(** * Stress-detection decision pipeline (js/detection.js)

    A shallow embedding of the stress-inference pipeline of the front end:
    the derived metrics (relief urgency, weekly trend), the emotion alias
    table, the pixel heuristic, the backend probe and the orchestrator
    [detectStress], together with the statements checked against them.

    Conventions of the embedding.
    - A JavaScript number is an element of a type [num] carrying the
      operations of the class [JsNumber].  Two instances are given: IEEE-754
      binary64 (what the engine computes, built on the standard library's
      [spec_float] with round-to-nearest-even), and exact rationals, used
      where a statement quantifies over all random draws or all image
      statistics.
    - An object literal used as a lookup table is an association list of its
      own properties; a lookup that falls through to a member inherited from
      [Object.prototype] is reported as such.
    - Asynchronous functions are run to completion one after another (the
      page is single threaded) and every request settles; the globals,
      [localStorage] and the supply of [Math.random] draws form an explicit
      world, and everything the outside answers (HTTP replies, model
      downloads, face detections, the decoded image) is an explicit
      environment.

    The file has three parts: the model, translated function by function
    from the source; the vocabulary of the statements, with the formulas of
    the specification written out in its own words; and the statements. *)

From Stdlib Require Import ZArith QArith Qround Qabs Qminmax List String Ascii Bool Lia Lqa.
From Stdlib Require Import SpecFloat Sorted Permutation.
From stdpp Require Import base gmap strings.

Local Open Scope string_scope.
Local Open Scope Z_scope.

(** ** JavaScript numbers *)

Class JsNumber (num : Type) := {
  (** the number denoted by an integer literal *)
  num_of_Z : Z -> num;
  (** the number denoted by the decimal literal [n/d] *)
  num_lit : Z -> positive -> num;
  num_add : num -> num -> num;
  num_sub : num -> num -> num;
  num_mul : num -> num -> num;
  num_div : num -> num -> num;
  (** [a < b] and [a <= b]; both are false when an operand is NaN *)
  num_ltb : num -> num -> bool;
  num_leb : num -> num -> bool;
  (** [!x] on a number: true for 0, -0 and NaN *)
  num_falsy : num -> bool;
  Math_abs : num -> num;
  Math_min : num -> num -> num;
  Math_max : num -> num -> num;
  Math_round : num -> num;
  Math_floor : num -> num;
  (** the integer a number is equal to, when there is one *)
  num_to_Z : num -> option Z
}.

(** *** IEEE-754 binary64 *)

Module B64.

Definition prec : Z := 53.
Definition emax : Z := 1024.

Definition of_Z (z : Z) : spec_float := binary_normalize prec emax z 0 false.

Definition lit (n : Z) (d : positive) : spec_float :=
  SFdiv prec emax (of_Z n) (of_Z (Zpos d)).

(** The real value of a float that is not NaN. *)
Inductive ext := NegInf | Real (q : Q) | PosInf.

Definition value (x : spec_float) : option ext :=
  match x with
  | S754_nan => None
  | S754_zero _ => Some (Real 0)
  | S754_infinity s => Some (if s then NegInf else PosInf)
  | S754_finite s m e =>
      Some (Real (inject_Z (cond_Zopp s (Zpos m)) * Qpower 2 e))
  end.

Definition ext_compare (a b : ext) : comparison :=
  match a, b with
  | NegInf, NegInf => Eq
  | NegInf, _ => Lt
  | _, NegInf => Gt
  | PosInf, PosInf => Eq
  | PosInf, _ => Gt
  | _, PosInf => Lt
  | Real p, Real q => Qcompare p q
  end.

(** Comparison is comparison of the real values; NaN is unordered. *)
Definition compare (x y : spec_float) : option comparison :=
  match value x, value y with
  | Some a, Some b => Some (ext_compare a b)
  | _, _ => None
  end.

Definition ltb (x y : spec_float) : bool :=
  match compare x y with Some Lt => true | _ => false end.

Definition leb (x y : spec_float) : bool :=
  match compare x y with Some Lt | Some Eq => true | _ => false end.

Definition falsy (x : spec_float) : bool :=
  match x with S754_zero _ | S754_nan => true | _ => false end.

Definition is_neg_zero (x : spec_float) : bool :=
  match x with S754_zero true => true | _ => false end.

(** [Math.min]/[Math.max]: NaN when an operand is NaN; -0 is below +0. *)
Definition min (x y : spec_float) : spec_float :=
  match compare x y with
  | None => S754_nan
  | Some Lt => x
  | Some Gt => y
  | Some Eq => if is_neg_zero x then x else y
  end.

Definition max (x y : spec_float) : spec_float :=
  match compare x y with
  | None => S754_nan
  | Some Lt => y
  | Some Gt => x
  | Some Eq => if is_neg_zero x then y else x
  end.

(** The integer [floor (x + half)] as a float; a zero result keeps the
    sign of [x]; zeros, infinities and NaN are returned as they are. *)
Definition to_integer (half : Q) (x : spec_float) : spec_float :=
  match x, value x with
  | S754_finite s _ _, Some (Real q) =>
      match Qfloor (q + half) with
      | Z0 => S754_zero s
      | z => of_Z z
      end
  | _, _ => x
  end.

(** [Math.round] rounds halves towards +infinity. *)
Definition round : spec_float -> spec_float := to_integer (1 # 2).
Definition floor : spec_float -> spec_float := to_integer 0.

Definition to_Z (x : spec_float) : option Z :=
  match value x with
  | Some (Real q) =>
      if Qeq_bool q (inject_Z (Qfloor q)) then Some (Qfloor q) else None
  | _ => None
  end.

End B64.

#[export] Instance binary64 : JsNumber spec_float := {|
  num_of_Z := B64.of_Z;
  num_lit := B64.lit;
  num_add := SFadd B64.prec B64.emax;
  num_sub := SFsub B64.prec B64.emax;
  num_mul := SFmul B64.prec B64.emax;
  num_div := SFdiv B64.prec B64.emax;
  num_ltb := B64.ltb;
  num_leb := B64.leb;
  num_falsy := B64.falsy;
  Math_abs := SFabs;
  Math_min := B64.min;
  Math_max := B64.max;
  Math_round := B64.round;
  Math_floor := B64.floor;
  num_to_Z := B64.to_Z
|}.

(** *** Exact rationals *)

Module Exact.

Definition lit (n : Z) (d : positive) : Q := Qmake n d.

Definition ltb (x y : Q) : bool :=
  match Qcompare x y with Lt => true | _ => false end.

Definition leb (x y : Q) : bool :=
  match Qcompare x y with Gt => false | _ => true end.

Definition min (x y : Q) : Q := if ltb y x then y else x.
Definition max (x y : Q) : Q := if ltb x y then y else x.

Definition round (x : Q) : Q := inject_Z (Qfloor (x + Qmake 1 2)).
Definition floor (x : Q) : Q := inject_Z (Qfloor x).

Definition to_Z (x : Q) : option Z :=
  if Qeq_bool x (inject_Z (Qfloor x)) then Some (Qfloor x) else None.

End Exact.

#[export] Instance exact : JsNumber Q := {|
  num_of_Z := inject_Z;
  num_lit := Exact.lit;
  num_add := Qplus;
  num_sub := Qminus;
  num_mul := Qmult;
  num_div := Qdiv;
  num_ltb := Exact.ltb;
  num_leb := Exact.leb;
  num_falsy := fun x => Qeq_bool x 0;
  Math_abs := Qabs;
  Math_min := Exact.min;
  Math_max := Exact.max;
  Math_round := Exact.round;
  Math_floor := Exact.floor;
  num_to_Z := Exact.to_Z
|}.

(** ** Property lookup in object literals *)

(** The own members of [Object.prototype]; a key that an object literal
    does not define itself resolves to one of them when it is listed here
    (a built-in function, or the prototype object for [__proto__]). *)
Definition OBJECT_PROTOTYPE_KEYS : list string :=
  [ "constructor"; "hasOwnProperty"; "isPrototypeOf"; "propertyIsEnumerable";
    "toLocaleString"; "toString"; "valueOf"; "__proto__";
    "__defineGetter__"; "__defineSetter__"; "__lookupGetter__";
    "__lookupSetter__" ].

Inductive property (A : Type) :=
  | Own (a : A)
  | Inherited (k : string)
  | Absent.
Arguments Own {A} a.
Arguments Inherited {A} k.
Arguments Absent {A}.

Fixpoint assoc {A} (k : string) (l : list (string * A)) : option A :=
  match l with
  | [] => None
  | (k', a) :: l' => if String.eqb k k' then Some a else assoc k l'
  end.

Definition mem (k : string) (l : list string) : bool :=
  existsb (String.eqb k) l.

(** [obj[k]] for an object literal with own properties [obj]. *)
Definition get {A} (obj : list (string * A)) (k : string) : property A :=
  match assoc k obj with
  | Some a => Own a
  | None => if mem k OBJECT_PROTOTYPE_KEYS then Inherited k else Absent
  end.

(** ** JavaScript values *)

#[warnings="-register-all"] Inductive value (num : Type) : Type :=
  | VUndefined
  | VNull
  | VBool (b : bool)
  | VNum (n : num)
  | VStr (s : string)
  | VArr (items : list (value num))
  | VObj (fields : list (string * value num))
  (** the member of [Object.prototype] named [k] *)
  | VBuiltin (k : string).
Arguments VUndefined {num}.
Arguments VNull {num}.
Arguments VBool {num} b.
Arguments VNum {num} n.
Arguments VStr {num} s.
Arguments VArr {num} items.
Arguments VObj {num} fields.
Arguments VBuiltin {num} k.

Section Values.
Context {num : Type} `{JsNumber num}.

(** [!!v] *)
Definition truthy (v : value num) : bool :=
  match v with
  | VUndefined | VNull => false
  | VBool b => b
  | VNum n => negb (num_falsy n)
  | VStr s => negb (String.eqb s "")
  | VArr _ | VObj _ | VBuiltin _ => true
  end.

(** [a || b] *)
Definition or_else (a b : value num) : value num := if truthy a then a else b.

(** The text of a built-in member: the source text of a native function,
    and the default object text for the prototype object itself. *)
Definition builtin_text (k : string) : string :=
  if String.eqb k "__proto__" then "[object Object]"
  else "function " ++ k ++ "() { [native code] }".

Definition join (sep : string) (l : list string) : string :=
  match l with
  | [] => ""
  | x :: l' => fold_left (fun acc y => acc ++ sep ++ y) l' x
  end.

(** [String(v)], left undefined on values that contain a number: the
    decimal text of a number is not modelled. *)
Fixpoint to_string (v : value num) : option string :=
  match v with
  | VUndefined => Some "undefined"
  | VNull => Some "null"
  | VBool b => Some (if b then "true" else "false")
  | VNum _ => None
  | VStr s => Some s
  | VArr items =>
      let fix go (l : list (value num)) : option (list string) :=
        match l with
        | [] => Some []
        | x :: l' =>
            match (match x with
                   | VUndefined | VNull => Some ""
                   | _ => to_string x
                   end), go l' with
            | Some sx, Some sl => Some (sx :: sl)
            | _, _ => None
            end
        end in
      option_map (join ",") (go items)
  | VObj _ => Some "[object Object]"
  | VBuiltin k => Some (builtin_text k)
  end.

(** [table[key]] for a table whose keys are free of digits: a key whose
    text contains the digits of a number names none of its properties, nor
    one of [Object.prototype]. *)
Definition index {A} (table : list (string * A)) (key : value num) : property A :=
  match to_string key with
  | Some k => get table k
  | None => Absent
  end.

(** [obj.name] on a value. *)
Definition field (name : string) (v : value num) : value num :=
  match v with
  | VObj fields =>
      match get fields name with
      | Own x => x
      | Inherited k => VBuiltin k
      | Absent => VUndefined
      end
  | _ => VUndefined
  end.

End Values.

(** ** Constant tables *)

(** [EMOTION_ALIASES] (detection.js, l. 37-48), in source order. *)
Definition EMOTION_ALIASES : list (string * string) :=
  [ ("Fear", "Fearful"); ("Disgust", "Disgusted"); ("Surprise", "Surprised");
    ("fear", "Fearful"); ("disgust", "Disgusted"); ("surprise", "Surprised");
    ("happy", "Happy"); ("sad", "Sad"); ("angry", "Angry");
    ("neutral", "Neutral") ].

(** [FEATURE_LEVELS] (detection.js, l. 51). *)
Definition FEATURE_LEVELS : list string :=
  [ "Normal"; "Mild"; "Moderate"; "High"; "Severe" ].

(** The three stress levels of a result. *)
Definition STRESS_LEVELS : list string := [ "Low"; "Medium"; "High" ].

(** ** Derived metrics *)

Section Metrics.
Context {num : Type} `{JsNumber num}.

(** [v || d] for a looked-up numeric table entry: [None] when the lookup
    resolves to a non-numeric member inherited from [Object.prototype],
    which takes the computation out of number arithmetic. *)
Definition or_default (p : property num) (d : num) : option num :=
  match p with
  | Own v => Some (if num_falsy v then d else v)
  | Absent => Some d
  | Inherited _ => None
  end.

Definition stressScores : list (string * num) :=
  [ ("Low", num_of_Z 2); ("Medium", num_of_Z 5); ("High", num_of_Z 8) ].

Definition highStressEmotions : list string :=
  [ "Angry"; "Fearful"; "Sad"; "Disgusted" ].

Definition featureLevelScores : list (string * num) :=
  [ ("Normal", num_of_Z 0); ("Mild", num_lit 3 10); ("Moderate", num_lit 6 10);
    ("High", num_lit 9 10); ("Severe", num_lit 12 10) ].

(** [list.includes(v)] for a list of strings. *)
Definition includes (l : list string) (v : value num) : bool :=
  match v with
  | VStr s => mem s l
  | _ => false
  end.

(** [calculateReliefUrgency] (detection.js, l. 367-388). *)
Definition calculateReliefUrgency
    (stressLevel emotion eyeStrain browTension facialFatigue : value num)
    : option num :=
  match or_default (index stressScores stressLevel) (num_of_Z 5),
        or_default (index featureLevelScores eyeStrain) (num_of_Z 0),
        or_default (index featureLevelScores browTension) (num_of_Z 0),
        or_default (index featureLevelScores facialFatigue) (num_of_Z 0) with
  | Some base, Some s1, Some s2, Some s3 =>
      let urgency := base in
      let urgency :=
        if includes highStressEmotions emotion
        then num_add urgency (num_of_Z 1) else urgency in
      let urgency := num_add urgency s1 in
      let urgency := num_add urgency s2 in
      let urgency := num_add urgency s3 in
      Some (Math_max (num_of_Z 1) (Math_min (num_of_Z 10) (Math_round urgency)))
  | _, _, _, _ => None
  end.

End Metrics.

(** ** Emotion alias normalisation *)

Section Aliases.
Context {num : Type} `{JsNumber num}.

(** The normalisation step of [detectWithBackend] (detection.js,
    l. 157-161): [if (EMOTION_ALIASES[emotion]) emotion =
    EMOTION_ALIASES[emotion]]. *)
Definition normalizeEmotion (emotion : value num) : value num :=
  let looked_up : value num :=
    match index EMOTION_ALIASES emotion with
    | Own canonical => VStr canonical
    | Inherited k => VBuiltin k
    | Absent => VUndefined
    end in
  if truthy looked_up then looked_up else emotion.

End Aliases.

(** ** Pixel heuristic *)

Record Features (num : Type) := {
  brightness : num;
  contrast : num;
  redChannel : num;
  greenChannel : num;
  blueChannel : num;
  skinToneScore : num;
  imageQuality : num
}.
Arguments brightness {num} _.
Arguments contrast {num} _.
Arguments redChannel {num} _.
Arguments greenChannel {num} _.
Arguments blueChannel {num} _.
Arguments skinToneScore {num} _.
Arguments imageQuality {num} _.

(** What loading the data URL into an image gives: the RGBA bytes of its
    pixels (an image has at least one), or a load error. *)
Inductive image :=
  | Decoded (first : Z * Z * Z * Z) (rest : list (Z * Z * Z * Z))
  | Undecodable.

Section PixelHeuristic.
Context {num : Type} `{JsNumber num}.

(** [detectSkinTone] (detection.js, l. 269-277). *)
Definition detectSkinTone (r g b : num) : num :=
  let ratio1 := num_div r (num_add g (num_of_Z 1)) in
  let ratio2 := num_div r (num_add b (num_of_Z 1)) in
  if num_ltb (num_lit 9 10) ratio1 && num_ltb ratio1 (num_lit 18 10)
     && num_ltb (num_lit 8 10) ratio2 && num_ltb ratio2 (num_lit 25 10)
     && num_ltb (num_of_Z 80) r
  then Math_min (num_of_Z 1) (num_div (num_add ratio1 ratio2) (num_of_Z 4))
  else num_lit 3 10.

(** [calculateImageQuality] (detection.js, l. 282-286). *)
Definition calculateImageQuality (brightness contrast : num) : num :=
  let brightnessScore :=
    num_sub (num_of_Z 1)
      (num_div (Math_abs (num_sub brightness (num_of_Z 128))) (num_of_Z 128)) in
  let contrastScore := Math_min (num_of_Z 1) (num_div contrast (num_of_Z 50)) in
  num_add (num_mul brightnessScore (num_lit 6 10))
          (num_mul contrastScore (num_lit 4 10)).

(** The running sums of the pixel loop of [analyzeImageData]. *)
Record sums := {
  totalBrightness : num;
  redTotal : num;
  greenTotal : num;
  blueTotal : num;
  contrastSum : num;
  prevBrightness : num
}.

Definition pixel_step (first : bool) (acc : sums) (px : Z * Z * Z * Z) : sums :=
  let '(r, g, b, _) := px in
  let r := num_of_Z r in
  let g := num_of_Z g in
  let b := num_of_Z b in
  let brightness :=
    num_add (num_add (num_mul r (num_lit 299 1000)) (num_mul g (num_lit 587 1000)))
            (num_mul b (num_lit 114 1000)) in
  {| totalBrightness := num_add (totalBrightness acc) brightness;
     redTotal := num_add (redTotal acc) r;
     greenTotal := num_add (greenTotal acc) g;
     blueTotal := num_add (blueTotal acc) b;
     contrastSum :=
       if first then contrastSum acc
       else num_add (contrastSum acc)
              (Math_abs (num_sub brightness (prevBrightness acc)));
     prevBrightness := brightness |}.

(** [analyzeImageData] (detection.js, l. 191-264). *)
Definition analyzeImageData (img : image) : Features num :=
  match img with
  | Decoded first rest =>
      let zero := num_of_Z 0 in
      let start :=
        {| totalBrightness := zero; redTotal := zero; greenTotal := zero;
           blueTotal := zero; contrastSum := zero; prevBrightness := zero |} in
      let acc := fold_left (pixel_step false) rest (pixel_step true start first) in
      let pixelCount := num_of_Z (Z.of_nat (S (length rest))) in
      let avgBrightness := num_div (totalBrightness acc) pixelCount in
      let avgRed := num_div (redTotal acc) pixelCount in
      let avgGreen := num_div (greenTotal acc) pixelCount in
      let avgBlue := num_div (blueTotal acc) pixelCount in
      let avgContrast := num_div (contrastSum acc) pixelCount in
      {| brightness := avgBrightness;
         contrast := avgContrast;
         redChannel := avgRed;
         greenChannel := avgGreen;
         blueChannel := avgBlue;
         skinToneScore := detectSkinTone avgRed avgGreen avgBlue;
         imageQuality := calculateImageQuality avgBrightness avgContrast |}
  | Undecodable =>
      {| brightness := num_of_Z 128;
         contrast := num_of_Z 50;
         redChannel := num_of_Z 128;
         greenChannel := num_of_Z 128;
         blueChannel := num_of_Z 128;
         skinToneScore := num_lit 5 10;
         imageQuality := num_lit 7 10 |}
  end.

(** The four probability templates of [detectEmotionClientSide], each in
    the order in which its keys are assigned. *)
Definition emotionScores (features : Features num) : list (string * num) :=
  if num_ltb (num_of_Z 140) (brightness features)
     && num_ltb (num_lit 5 10) (skinToneScore features)
  then [ ("Happy", num_lit 35 100); ("Neutral", num_lit 30 100);
         ("Surprised", num_lit 15 100); ("Sad", num_lit 5 100);
         ("Angry", num_lit 5 100); ("Fearful", num_lit 5 100);
         ("Disgusted", num_lit 5 100) ]
  else if num_ltb (brightness features) (num_of_Z 100)
          || num_ltb (num_of_Z 150) (redChannel features)
  then [ ("Sad", num_lit 25 100); ("Angry", num_lit 20 100);
         ("Fearful", num_lit 15 100); ("Neutral", num_lit 15 100);
         ("Disgusted", num_lit 10 100); ("Happy", num_lit 8 100);
         ("Surprised", num_lit 7 100) ]
  else if num_ltb (num_of_Z 60) (contrast features)
  then [ ("Angry", num_lit 22 100); ("Fearful", num_lit 18 100);
         ("Surprised", num_lit 18 100); ("Neutral", num_lit 15 100);
         ("Sad", num_lit 12 100); ("Disgusted", num_lit 10 100);
         ("Happy", num_lit 5 100) ]
  else [ ("Neutral", num_lit 35 100); ("Happy", num_lit 20 100);
         ("Sad", num_lit 12 100); ("Surprised", num_lit 12 100);
         ("Angry", num_lit 8 100); ("Fearful", num_lit 7 100);
         ("Disgusted", num_lit 6 100) ].

(** The jitter loop: the [i]-th entry uses the [i]-th draw of
    [Math.random]; returns the jittered table and its total. *)
Fixpoint jitter (scores : list (string * num)) (random : nat -> num) (i : nat)
    (total : num) : list (string * num) * num :=
  match scores with
  | [] => ([], total)
  | (emotion, prob) :: rest =>
      let variance :=
        num_mul (num_sub (random i) (num_lit 5 10)) (num_lit 1 10) in
      let p := Math_max (num_lit 1 100) (num_add prob variance) in
      let '(table, total') := jitter rest random (S i) (num_add total p) in
      ((emotion, p) :: table, total')
  end.

(** The loop that finds the dominant emotion. *)
Definition dominant (allProbabilities : list (string * num)) : string :=
  fst (fold_left
         (fun '(dominantEmotion, maxProb) '(emotion, prob) =>
            if num_ltb maxProb prob then (emotion, prob)
            else (dominantEmotion, maxProb))
         allProbabilities ("Neutral", num_of_Z 0)).

(** [detectEmotionClientSide] (detection.js, l. 292-362). *)
Definition detectEmotionClientSide (features : Features num) (random : nat -> num)
    : string * list (string * num) :=
  let '(jittered, total) := jitter (emotionScores features) random 0 (num_of_Z 0) in
  let allProbabilities :=
    map (fun '(emotion, p) =>
           (emotion, Math_round (num_mul (num_div p total) (num_of_Z 100))))
        jittered in
  (dominant allProbabilities, allProbabilities).

(** [calculateConfidence] for [isBackend = false] (detection.js,
    l. 488-498); [random] is the draw of [Math.random]. *)
Definition calculateConfidence (features : Features num) (random : num) : num :=
  let confidence :=
    num_add (num_mul (imageQuality features) (num_of_Z 60))
            (num_mul (skinToneScore features) (num_of_Z 30)) in
  let confidence :=
    num_add confidence (num_sub (num_mul random (num_of_Z 15)) (num_of_Z 5)) in
  let confidence :=
    Math_max (num_of_Z 70) (Math_min (num_of_Z 95) confidence) in
  Math_round confidence.

End PixelHeuristic.

(** ** Outcomes, storage and the environment *)

(** From here on numbers are binary64. *)
Abbreviation number := spec_float (only parsing).
Abbreviation jsval := (value spec_float) (only parsing).

Definition NaN : number := S754_nan.

Inductive error :=
  | TypeError
  | SyntaxError
  | NetworkError
  | AbortError
  (** [new Error(`HTTP error! status: ${status}`)] *)
  | HttpError (status : Z)
  | Error (message : jsval).

(** The result of running a piece of code: a value, or a thrown error. *)
Inductive outcome (A : Type) :=
  | Ok (a : A)
  | Throw (e : error).
Arguments Ok {A} a.
Arguments Throw {A} e.

(** [localStorage].  Every key used here is written through
    [JSON.stringify] and read back through [JSON.parse]; a stored text is
    represented by the value it parses to. *)
Abbreviation storage := (gmap string (value spec_float)) (only parsing).

Definition MS_PER_HOUR : Z := 3600000.
Definition MS_PER_DAY : Z := 24 * MS_PER_HOUR.

(** What the clock and the [Date] constructor answer.  Local time is UTC
    shifted by a fixed offset (no daylight-saving change inside the
    window). *)
Record Calendar := {
  (** [new Date()], in milliseconds since the epoch *)
  Date_now : Z;
  (** local time minus UTC, in milliseconds *)
  tz_offset : Z;
  (** [new Date(v).getTime()]; [None] is Invalid Date *)
  Date_parse : jsval -> option Z;
  (** [new Date().toISOString()] *)
  now_iso : string
}.

(** [new Date(t).getHours()] *)
Definition getHours (cal : Calendar) (t : Z) : Z :=
  ((t + tz_offset cal) / MS_PER_HOUR) mod 24.

(** ** History and trend *)

(** [stressValues] of [analyzeStressTrends]. *)
Definition stressValues : list (string * number) :=
  [ ("Low", num_of_Z 1); ("Medium", num_of_Z 2); ("High", num_of_Z 3) ].

(** [sum + stressValues[r.stressLevel]].  An unknown level adds
    [undefined], which makes the sum NaN for good; a level naming an
    inherited member turns the sum into text, which the division that
    follows the reduction turns into NaN as well. *)
Definition add_stress (sum : number) (r : jsval) : number :=
  match index stressValues (field "stressLevel" r) with
  | Own v => num_add sum v
  | Inherited _ | Absent => NaN
  end.

(** [l.reduce((sum, r) => sum + stressValues[r.stressLevel], 0) / l.length] *)
Definition average (l : list jsval) : number :=
  num_div (fold_left add_stress l (num_of_Z 0)) (num_of_Z (Z.of_nat (length l))).

(** The callback of the seven-day filter; reading [r.timestamp] throws on
    [null] and [undefined]. *)
Definition in_last7Days (cal : Calendar) (r : jsval) : outcome bool :=
  match r with
  | VNull | VUndefined => Throw TypeError
  | _ =>
      let weekAgo := Date_now cal - 7 * MS_PER_DAY in
      match Date_parse cal (field "timestamp" r) with
      | Some date => Ok (weekAgo <=? date)
      | None => Ok false
      end
  end.

(** [results.filter(...)] with that callback. *)
Fixpoint filter_last7Days (cal : Calendar) (results : list jsval)
    : outcome (list jsval) :=
  match results with
  | [] => Ok []
  | r :: rest =>
      match in_last7Days cal r with
      | Throw e => Throw e
      | Ok keep =>
          match filter_last7Days cal rest with
          | Throw e => Throw e
          | Ok kept => Ok (if keep then r :: kept else kept)
          end
      end
  end.

(** [r.stressLevel === 'High'] *)
Definition is_High (r : jsval) : bool :=
  match field "stressLevel" r with
  | VStr s => String.eqb s "High"
  | _ => false
  end.

(** [hourCounts[hour] = (hourCounts[hour] || 0) + 1].  The keys of
    [hourCounts] are the decimal texts of hours; [Object.entries] lists such
    integer keys in ascending numeric order whatever the order of insertion,
    so the object is kept as a list of (hour, count) sorted by hour. *)
Fixpoint bump (hour : Z) (hourCounts : list (Z * Z)) : list (Z * Z) :=
  match hourCounts with
  | [] => [(hour, 1)]
  | (h, c) :: rest =>
      if hour =? h then (h, c + 1) :: rest
      else if hour <? h then (hour, 1) :: (h, c) :: rest
      else (h, c) :: bump hour rest
  end.

(** [Array.prototype.sort] with the comparator [(a, b) => b[1] - a[1]]:
    the sort is stable, so equal counts keep their order. *)
Fixpoint insert_by_count (x : Z * Z) (sorted : list (Z * Z)) : list (Z * Z) :=
  match sorted with
  | [] => [x]
  | y :: rest =>
      if snd y <=? snd x then x :: y :: rest
      else y :: insert_by_count x rest
  end.

Definition sort_by_count (entries : list (Z * Z)) : list (Z * Z) :=
  fold_right insert_by_count [] entries.

(** The hours of the High entries of the window, in history order (every
    entry of the window has a valid date, or the filter would have dropped
    it). *)
Definition high_hours (cal : Calendar) (last7Days : list jsval) : list Z :=
  flat_map (fun r =>
    match Date_parse cal (field "timestamp" r) with
    | Some t => [getHours cal t]
    | None => []
    end) (List.filter is_High last7Days).

(** The [forEach] loop that fills [hourCounts]. *)
Definition hourCounts_of (hours : list Z) : list (Z * Z) :=
  fold_left (fun counts h => bump h counts) hours [].

(** [Object.entries(hourCounts).sort(...).slice(0, 3).map(([hour]) =>
    parseInt(hour))] *)
Definition peakTimes_of (hours : list Z) : list Z :=
  map fst (firstn 3 (sort_by_count (hourCounts_of hours))).

(** [analyzeStressTrends] (detection.js, l. 393-438). *)
Definition analyzeStressTrends (cal : Calendar) (store : storage) : outcome jsval :=
  match (match store !! "stressResults" with
         | None => Ok []
         | Some (VArr results) => Ok results
         | Some _ => Throw TypeError
         end) with
  | Throw e => Throw e
  | Ok results =>
  match filter_last7Days cal results with
  | Throw e => Throw e
  | Ok last7Days =>
      if Nat.eqb (length last7Days) 0 then
        Ok (VObj [ ("trend", VStr "insufficient_data"); ("avgStress", VNull);
                   ("peakTimes", VArr []); ("improvementRate", VNum (num_of_Z 0)) ])
      else
        let avgStress := average last7Days in
        let half := Nat.div2 (length last7Days) in
        let firstHalf := firstn half last7Days in
        let secondHalf := skipn half last7Days in
        let firstAvg :=
          if Nat.ltb 0 (length firstHalf) then average firstHalf else avgStress in
        let secondAvg :=
          if Nat.ltb 0 (length secondHalf) then average secondHalf else avgStress in
        let trend :=
          if num_ltb secondAvg (num_sub firstAvg (num_lit 3 10)) then "improving"
          else if num_ltb (num_add firstAvg (num_lit 3 10)) secondAvg then "worsening"
          else "stable" in
        let peakTimes := peakTimes_of (high_hours cal last7Days) in
        Ok (VObj
          [ ("trend", VStr trend);
            ("avgStress",
               VStr (if num_leb avgStress (num_lit 15 10) then "Low"
                     else if num_leb avgStress (num_lit 25 10) then "Medium"
                     else "High"));
            ("peakTimes", VArr (map (fun h => VNum (num_of_Z h)) peakTimes));
            ("totalScansThisWeek", VNum (num_of_Z (Z.of_nat (length last7Days))));
            ("improvementRate",
               VNum (Math_round (num_mul (num_sub firstAvg secondAvg)
                                         (num_lit 333 10)))) ])
  end
  end.

(** ** JSON *)

(** A number after the round trip through its JSON text: NaN and the
    infinities are written as [null], -0 as 0. *)
Definition json_number (n : number) : jsval :=
  match n with
  | S754_nan | S754_infinity _ => VNull
  | S754_zero _ => VNum (S754_zero false)
  | S754_finite _ _ _ => VNum n
  end.

(** [JSON.parse (JSON.stringify v)]; [None] when [v] has no JSON text
    ([undefined], a function): such a property value is dropped from its
    object, and such an array element becomes [null]. *)
Fixpoint to_json (v : jsval) : option jsval :=
  match v with
  | VUndefined => None
  | VNull => Some VNull
  | VBool b => Some (VBool b)
  | VNum n => Some (json_number n)
  | VStr s => Some (VStr s)
  | VArr items =>
      Some (VArr (map (fun x => match to_json x with
                                | Some j => j
                                | None => VNull
                                end) items))
  | VObj fields =>
      let fix go (l : list (string * jsval)) : list (string * jsval) :=
        match l with
        | [] => []
        | (k, x) :: l' =>
            match to_json x with
            | Some j => (k, j) :: go l'
            | None => go l'
            end
        end in
      Some (VObj (go fields))
  | VBuiltin k => if String.eqb k "__proto__" then Some (VObj []) else None
  end.

(** ** The world *)

(** An HTTP reply as [fetch] and [response.json()] deliver it. *)
Inductive body :=
  | Json (data : jsval)
  | Malformed.

Inductive reply :=
  (** [fetch] rejects: network failure, or abort by the timer *)
  | Rejected (e : error)
  | Response (status : Z) (b : body).

(** [response.ok] *)
Definition ok (status : Z) : bool := (200 <=? status) && (status <=? 299).

(** One face found by the face-api detector.  [analysis] is what
    [analyzeFacialLandmarks] computes for its landmarks; that geometry is
    taken as given. *)
Record FacialAnalysis := {
  eyeFatigueScore : number;
  browTensionScore : number;
  mouthTensionScore : number;
  darkCircleScore : number;
  wrinkleScore : number;
  fatigueScore : number;
  overallStressScore : number;
  details : jsval
}.

Record Detection := {
  (** the expression vector, in the library's key order *)
  expressions : list (string * number);
  analysis : FacialAnalysis;
  box : jsval
}.

(** Everything the outside answers during one detection. *)
Record Env := {
  calendar : Calendar;
  (** the [k]-th draw of [Math.random], in [0, 1) *)
  random : nat -> number;
  (** [window.uploadedImage] *)
  uploadedImage : jsval;
  (** the reply to [GET /api/health/] *)
  health_reply : reply;
  (** the reply to [POST /api/detect/] *)
  detect_reply : reply;
  (** [typeof faceapi !== 'undefined'] *)
  faceapi_defined : bool;
  (** for each model mirror in turn, whether all three nets load from it *)
  mirror_loads : list bool;
  (** what the data URL decodes to *)
  decoded : image;
  (** whether the image element of the face-api path loads *)
  face_image_loads : bool;
  (** the detector runs with the primary and the permissive settings *)
  face_primary : outcome (list Detection);
  face_retry : outcome (list Detection)
}.

(** The mutable state of the page. *)
Record World := {
  (** [null], [true] or [false] *)
  backendAvailable : option bool;
  faceApiModelsLoaded : bool;
  localStorage : storage;
  (** how many draws of [Math.random] have been taken *)
  drawn : nat
}.

Definition set_backendAvailable (b : option bool) (w : World) : World :=
  {| backendAvailable := b; faceApiModelsLoaded := faceApiModelsLoaded w;
     localStorage := localStorage w; drawn := drawn w |}.

Definition set_faceApiModelsLoaded (b : bool) (w : World) : World :=
  {| backendAvailable := backendAvailable w; faceApiModelsLoaded := b;
     localStorage := localStorage w; drawn := drawn w |}.

Definition set_localStorage (st : storage) (w : World) : World :=
  {| backendAvailable := backendAvailable w;
     faceApiModelsLoaded := faceApiModelsLoaded w;
     localStorage := st; drawn := drawn w |}.

Definition advance (n : nat) (w : World) : World :=
  {| backendAvailable := backendAvailable w;
     faceApiModelsLoaded := faceApiModelsLoaded w;
     localStorage := localStorage w; drawn := (drawn w + n)%nat |}.

(** Code that reads and updates the world and may throw. *)
Definition M (A : Type) : Type := World -> outcome A * World.

Definition ret {A} (a : A) : M A := fun w => (Ok a, w).
Definition throw {A} (e : error) : M A := fun w => (Throw e, w).
Definition bind {A B} (m : M A) (k : A -> M B) : M B :=
  fun w => match m w with
           | (Ok a, w') => k a w'
           | (Throw e, w') => (Throw e, w')
           end.
Definition try_catch {A} (m : M A) (handler : error -> M A) : M A :=
  fun w => match m w with
           | (Ok a, w') => (Ok a, w')
           | (Throw e, w') => handler e w'
           end.
Definition lift {A} (o : outcome A) : M A := fun w => (o, w).
Definition read {A} (f : World -> A) : M A := fun w => (Ok (f w), w).
Definition update (f : World -> World) : M unit := fun w => (Ok tt, f w).

Declare Scope js_scope.
Delimit Scope js_scope with js.
Notation "x <- m ;; k" := (bind m (fun x => k))
  (at level 100, m at next level, right associativity) : js_scope.
Notation "m ;;; k" := (bind m (fun _ => k))
  (at level 100, right associativity) : js_scope.
Local Open Scope js_scope.

(** [v.name]; throws on [null] and [undefined]. *)
Definition member (name : string) (v : jsval) : outcome jsval :=
  match v with
  | VNull | VUndefined => Throw TypeError
  | _ => Ok (field name v)
  end.

(** [JSON.parse(localStorage.getItem(key) || fallback)] *)
Definition stored (key : string) (fallback : jsval) : M jsval :=
  read (fun w => match localStorage w !! key with
                 | Some v => v
                 | None => fallback
                 end).

(** ** Backend probe *)

(** The mirror loop of [loadFaceApiModels]: the first mirror that loads
    sets the flag. *)
Fixpoint try_mirrors (mirrors : list bool) : M bool :=
  match mirrors with
  | [] => ret false
  | loads :: rest =>
      if loads then update (set_faceApiModelsLoaded true) ;;; ret true
      else try_mirrors rest
  end.

(** [loadFaceApiModels] (detection.js, l. 57-102). *)
Definition loadFaceApiModels (env : Env) : M bool :=
  loaded <- read faceApiModelsLoaded ;;
  if loaded then ret true
  else if negb (faceapi_defined env) then ret false
  else
    modelsLoaded <- try_mirrors (firstn 3 (mirror_loads env)) ;;
    if modelsLoaded then ret true
    else update (set_faceApiModelsLoaded false) ;;; ret false.

(** [checkBackendHealth] (detection.js, l. 107-132). *)
Definition checkBackendHealth (env : Env) : M bool :=
  let on_error : M bool :=
    update (set_backendAvailable (Some false)) ;;;
    _ <- loadFaceApiModels env ;;
    ret false in
  match health_reply env with
  | Rejected _ => on_error
  | Response status b =>
      if ok status then
        match b with
        | Malformed => on_error
        | Json data =>
            match member "status" data with
            | Throw _ => on_error
            | Ok status_field =>
                let healthy :=
                  match status_field with
                  | VStr s => String.eqb s "healthy"
                  | _ => false
                  end in
                update (set_backendAvailable (Some healthy)) ;;; ret true
            end
        end
      else ret false
  end.

(** ** Remote inference client *)

(** [EMOTIONS] (detection.js, l. 26-34): weight and stress factor of each
    emotion (the icon, used for display only, is left out). *)
Definition EMOTIONS : list (string * (number * string)) :=
  [ ("Neutral", (num_lit 2 10, "Low")); ("Happy", (num_lit 15 100, "Low"));
    ("Sad", (num_lit 15 100, "High")); ("Angry", (num_lit 15 100, "High"));
    ("Fearful", (num_lit 1 10, "High")); ("Disgusted", (num_lit 1 10, "High"));
    ("Surprised", (num_lit 15 100, "Medium")) ].

Definition CNN_METHOD : string := "CNN Model (Backend)".
Definition FACE_API_METHOD : string := "Face-API.js Neural Network".
Definition FALLBACK_METHOD : string := "Image Analysis (Fallback)".

(** [detectWithBackend] (detection.js, l. 138-186). *)
Definition detectWithBackend (env : Env) : M jsval :=
  match detect_reply env with
  | Rejected e => throw e
  | Response status b =>
      if negb (ok status) then throw (HttpError status)
      else
        match b with
        | Malformed => throw SyntaxError
        | Json result =>
            success <- lift (member "success" result) ;;
            if truthy success then
              ret (VObj
                [ ("emotion", normalizeEmotion (field "emotion" result));
                  ("stressLevel", field "stressLevel" result);
                  ("eyeStrain", or_else (field "eyeStrain" result) (VStr "Normal"));
                  ("browTension", or_else (field "browTension" result) (VStr "Normal"));
                  ("facialFatigue",
                     or_else (field "facialFatigue" result) (VStr "Normal"));
                  ("confidence",
                     or_else (field "confidence" result) (VNum (num_of_Z 85)));
                  ("timestamp", VStr (now_iso (calendar env)));
                  ("detectionMethod", VStr CNN_METHOD);
                  ("faceDetected", field "faceDetected" result);
                  ("allPredictions", field "allPredictions" result);
                  ("facesCount",
                     or_else (field "facesCount" result) (VNum (num_of_Z 1)));
                  ("allFaces", or_else (field "allFaces" result) (VArr []));
                  ("combinedStressLevel",
                     or_else (field "combinedStressLevel" result)
                             (field "stressLevel" result)) ])
            else
              throw (Error (or_else (field "error" result)
                                    (VStr "Detection failed")))
        end
  end.

(** ** Client-side landmark analyzer *)

(** [FEATURE_LEVELS[i]] for a number [i]. *)
Definition feature_level (i : number) : jsval :=
  match num_to_Z i with
  | Some z =>
      if (0 <=? z) && (z <? 5)
      then match nth_error FEATURE_LEVELS (Z.to_nat z) with
           | Some level => VStr level
           | None => VUndefined
           end
      else VUndefined
  | None => VUndefined
  end.

(** [FEATURE_LEVELS[Math.min(4, Math.floor(score * 5))]] *)
Definition level_of_score (score : number) : jsval :=
  feature_level (Math_min (num_of_Z 4) (Math_floor (num_mul score (num_of_Z 5)))).

(** [EMOTIONS[emotion]?.stressFactor || 'Medium'] *)
Definition stressFactor_or_Medium (emotion : string) : string :=
  match get EMOTIONS emotion with
  | Own (_, factor) => if String.eqb factor "" then "Medium" else factor
  | Inherited _ | Absent => "Medium"
  end.

(** [relief] as a value: a lookup that leaves number arithmetic makes the
    rounded result NaN. *)
Definition reliefUrgency_value
    (stressLevel emotion eyeStrain browTension facialFatigue : jsval) : jsval :=
  match calculateReliefUrgency stressLevel emotion eyeStrain browTension
          facialFatigue with
  | Some n => VNum n
  | None => VNum NaN
  end.

(** The loops that find the dominant emotion: strict [>] against the
    running maximum, starting from the given emotion and 0. *)
Definition dominant_from (start : string) (allProbabilities : list (string * number))
    : string * number :=
  fold_left
    (fun '(dominantEmotion, maxProb) '(emotion, prob) =>
       if num_ltb maxProb prob then (emotion, prob)
       else (dominantEmotion, maxProb))
    allProbabilities (start, num_of_Z 0).

(** [table[key] = f(table[key])] on a table that has the key. *)
Fixpoint adjust (key : string) (f : number -> number)
    (table : list (string * number)) : list (string * number) :=
  match table with
  | [] => []
  | (k, v) :: rest =>
      if String.eqb k key then (k, f v) :: rest else (k, v) :: adjust key f rest
  end.

Definition prob_of (key : string) (table : list (string * number)) : number :=
  match assoc key table with
  | Some v => v
  | None => NaN
  end.

Definition numbers_object (table : list (string * number)) : jsval :=
  VObj (map (fun '(k, v) => (k, VNum v)) table).

(** One entry of [allFaces] in [processDetections]. *)
Definition face_entry (i : nat) (d : Detection) : outcome jsval :=
  match expressions d with
  | [] => Throw TypeError
  | first :: rest =>
      let best :=
        fold_left (fun a b => if num_ltb (snd a) (snd b) then b else a) rest first in
      let highest :=
        fold_left Math_max (map snd (expressions d)) (S754_infinity true) in
      Ok (VObj
        [ ("faceId", VNum (num_of_Z (Z.of_nat i)));
          ("emotion", VStr (fst best));
          ("stressLevel", VStr (stressFactor_or_Medium (fst best)));
          ("confidence", VNum (Math_round (num_mul highest (num_of_Z 100))));
          ("boundingBox", box d) ])
  end.

Fixpoint face_entries (i : nat) (detections : list Detection)
    : outcome (list jsval) :=
  match detections with
  | [] => Ok []
  | d :: rest =>
      match face_entry i d, face_entries (S i) rest with
      | Ok e, Ok es => Ok (e :: es)
      | Throw err, _ => Throw err
      | _, Throw err => Throw err
      end
  end.

(** [processDetections] (detection.js, l. 726-853). *)
Definition processDetections (env : Env) (detections : list Detection) : M jsval :=
  match detections with
  | [] => throw TypeError
  | detection :: _ =>
      let expr name :=
        Math_round (num_mul (prob_of name (expressions detection)) (num_of_Z 100)) in
      let facialAnalysis := analysis detection in
      let allProbabilities :=
        [ ("Neutral", expr "neutral"); ("Happy", expr "happy"); ("Sad", expr "sad");
          ("Angry", expr "angry"); ("Fearful", expr "fearful");
          ("Disgusted", expr "disgusted"); ("Surprised", expr "surprised") ] in
      let '(dominantEmotion, _) := dominant_from "Neutral" allProbabilities in
      let allProbabilities :=
        if num_ltb (num_lit 6 10) (browTensionScore facialAnalysis)
           && num_ltb (num_of_Z 15) (prob_of "Angry" allProbabilities)
        then
          adjust "Neutral" (fun p => Math_max (num_of_Z 0) (num_sub p (num_of_Z 15)))
            (adjust "Angry" (fun p => Math_min (num_of_Z 100) (num_add p (num_of_Z 20)))
               allProbabilities)
        else allProbabilities in
      let allProbabilities :=
        if num_ltb (num_lit 5 10) (eyeFatigueScore facialAnalysis)
        then
          adjust "Neutral" (fun p => Math_max (num_of_Z 0) (num_sub p (num_of_Z 10)))
            (adjust "Sad" (fun p => Math_min (num_of_Z 100) (num_add p (num_of_Z 15)))
               allProbabilities)
        else allProbabilities in
      let '(dominantEmotion, maxProb) :=
        dominant_from dominantEmotion allProbabilities in
      let stressLevel := stressFactor_or_Medium dominantEmotion in
      let stressLevel :=
        if num_ltb (num_lit 7 10) (overallStressScore facialAnalysis)
           && String.eqb stressLevel "Low" then "Medium"
        else if num_ltb (num_lit 8 10) (overallStressScore facialAnalysis)
                && String.eqb stressLevel "Medium" then "High"
        else stressLevel in
      let eyeStrain := level_of_score (eyeFatigueScore facialAnalysis) in
      let browTension := level_of_score (browTensionScore facialAnalysis) in
      let facialFatigue := level_of_score (fatigueScore facialAnalysis) in
      let confidence :=
        Math_round (num_add (num_mul maxProb (num_lit 85 100)) (num_of_Z 15)) in
      let reliefUrgency :=
        reliefUrgency_value (VStr stressLevel) (VStr dominantEmotion)
          eyeStrain browTension facialFatigue in
      stressTrends <- (fun w => (analyzeStressTrends (calendar env) (localStorage w), w)) ;;
      allFaces <- lift (face_entries 0 detections) ;;
      ret (VObj
        [ ("emotion", VStr dominantEmotion);
          ("stressLevel", VStr stressLevel);
          ("eyeStrain", eyeStrain);
          ("browTension", browTension);
          ("facialFatigue", facialFatigue);
          ("confidence", VNum confidence);
          ("timestamp", VStr (now_iso (calendar env)));
          ("detectionMethod", VStr FACE_API_METHOD);
          ("allProbabilities", numbers_object allProbabilities);
          ("reliefUrgency", reliefUrgency);
          ("stressTrends", stressTrends);
          ("facialAnalysis", VObj
             [ ("darkCircles", level_of_score (darkCircleScore facialAnalysis));
               ("wrinkleIndicator", level_of_score (wrinkleScore facialAnalysis));
               ("mouthTension", level_of_score (mouthTensionScore facialAnalysis));
               ("overallStressScore",
                  VNum (Math_round (num_mul (overallStressScore facialAnalysis)
                                            (num_of_Z 100))));
               ("details", details facialAnalysis) ]);
          ("facesCount", VNum (num_of_Z (Z.of_nat (length detections))));
          ("allFaces", VArr allFaces);
          ("algorithmResults", VObj
             [ ("emotionClassification", VObj
                  [ ("name", VStr "Face-API.js Expression Recognition");
                    ("dominantEmotion", VStr dominantEmotion);
                    ("probabilities", numbers_object allProbabilities);
                    ("stressCorrelation", VStr stressLevel) ]);
               ("facialIndicators", VObj
                  [ ("name", VStr "Facial Stress Indicators");
                    ("eyeStrain", eyeStrain);
                    ("browTension", browTension);
                    ("facialFatigue", facialFatigue) ]) ]);
          ("imageFeatures", VObj [ ("quality", VNum confidence) ]) ])
  end.

(** [detectWithFaceApi] (detection.js, l. 663-721): a result, or [null]. *)
Definition detectWithFaceApi (env : Env) : M jsval :=
  try_catch
    (if negb (face_image_loads env) then throw (Error (VStr "Failed to load image"))
     else
       detections <- lift (face_primary env) ;;
       match detections with
       | [] =>
           retryDetections <- lift (face_retry env) ;;
           match retryDetections with
           | [] => ret VNull
           | _ => processDetections env retryDetections
           end
       | _ => processDetections env detections
       end)
    (fun _ => ret VNull).

(** ** Pixel-heuristic analyzer *)

(** [Math.random()] *)
Definition Math_random (env : Env) : M number :=
  fun w => (Ok (random env (drawn w)), advance 1 w).

(** [calculateStressLevel] (detection.js, l. 443-448). *)
Definition calculateStressLevel (emotion : string) : jsval :=
  match get EMOTIONS emotion with
  | Own (_, factor) => VStr factor
  | Inherited _ => VUndefined
  | Absent => VStr "Medium"
  end.

(** [base + Math.floor(Math.random() * n)] *)
Definition random_index (env : Env) (base n : Z) : M number :=
  r <- Math_random env ;;
  ret (num_add (num_of_Z base) (Math_floor (num_mul r (num_of_Z n)))).

Definition is_string (s : string) (v : jsval) : bool :=
  match v with
  | VStr s' => String.eqb s' s
  | _ => false
  end.

(** [calculateFacialFeatures] (detection.js, l. 453-483); returns the
    levels of eye strain, brow tension and facial fatigue. *)
Definition calculateFacialFeatures (env : Env) (stressLevel : jsval)
    (features : Features number) : M (jsval * jsval * jsval) :=
  indices <-
    (if is_string "High" stressLevel then
       e <- random_index env 3 2 ;;
       b <- random_index env 2 3 ;;
       f <- random_index env 2 3 ;;
       ret (e, b, f)
     else if is_string "Medium" stressLevel then
       e <- random_index env 1 3 ;;
       b <- random_index env 1 2 ;;
       f <- random_index env 1 2 ;;
       ret (e, b, f)
     else
       e <- random_index env 0 2 ;;
       b <- random_index env 0 2 ;;
       f <- random_index env 0 2 ;;
       ret (e, b, f)) ;;
  let '(eyeStrainIndex, browTensionIndex, fatigueIndex) := indices in
  let fatigueIndex :=
    if num_ltb (brightness features) (num_of_Z 100)
    then Math_min (num_add fatigueIndex (num_of_Z 1)) (num_of_Z 4)
    else fatigueIndex in
  let browTensionIndex :=
    if num_ltb (num_of_Z 60) (contrast features)
    then Math_min (num_add browTensionIndex (num_of_Z 1)) (num_of_Z 4)
    else browTensionIndex in
  ret (feature_level eyeStrainIndex, feature_level browTensionIndex,
       feature_level fatigueIndex).

(** [detectClientSideFallback] (detection.js, l. 859-918). *)
Definition detectClientSideFallback (env : Env) : M jsval :=
  let features := analyzeImageData (decoded env) in
  k <- read drawn ;;
  let '(emotion, allProbabilities) :=
    detectEmotionClientSide features (fun i => random env (k + i)%nat) in
  update (advance 7) ;;;
  let stressLevel := calculateStressLevel emotion in
  facialFeatures <- calculateFacialFeatures env stressLevel features ;;
  let '(eyeStrain, browTension, facialFatigue) := facialFeatures in
  r <- Math_random env ;;
  let confidence := calculateConfidence features r in
  let reliefUrgency :=
    reliefUrgency_value stressLevel (VStr emotion) eyeStrain browTension
      facialFatigue in
  stressTrends <- (fun w => (analyzeStressTrends (calendar env) (localStorage w), w)) ;;
  ret (VObj
    [ ("emotion", VStr emotion);
      ("stressLevel", stressLevel);
      ("eyeStrain", eyeStrain);
      ("browTension", browTension);
      ("facialFatigue", facialFatigue);
      ("confidence", VNum confidence);
      ("timestamp", VStr (now_iso (calendar env)));
      ("detectionMethod", VStr FALLBACK_METHOD);
      ("allProbabilities", numbers_object allProbabilities);
      ("reliefUrgency", reliefUrgency);
      ("stressTrends", stressTrends);
      ("algorithmResults", VObj
         [ ("imageAnalysis", VObj
              [ ("name", VStr "Image Feature Analysis");
                ("confidence", VNum confidence);
                ("metrics", VObj
                   [ ("brightness", VNum (Math_round (brightness features)));
                     ("contrast", VNum (Math_round (contrast features)));
                     ("skinToneScore",
                        VNum (Math_round (num_mul (skinToneScore features)
                                                  (num_of_Z 100))));
                     ("imageQuality",
                        VNum (Math_round (num_mul (imageQuality features)
                                                  (num_of_Z 100)))) ]) ]);
           ("emotionClassification", VObj
              [ ("name", VStr "Emotion Classification (Softmax)");
                ("dominantEmotion", VStr emotion);
                ("probabilities", numbers_object allProbabilities);
                ("stressCorrelation", VStr (stressFactor_or_Medium emotion)) ]);
           ("facialIndicators", VObj
              [ ("name", VStr "Facial Stress Indicators");
                ("eyeStrain", eyeStrain);
                ("browTension", browTension);
                ("facialFatigue", facialFatigue) ]) ]);
      ("imageFeatures", VObj
         [ ("brightness", VNum (Math_round (brightness features)));
           ("contrast", VNum (Math_round (contrast features)));
           ("quality",
              VNum (Math_round (num_mul (imageQuality features) (num_of_Z 100)))) ]) ]).

(** ** Decision orchestrator *)

(** [detectClientSide] (detection.js, l. 637-657). *)
Definition detectClientSide (env : Env) : M jsval :=
  viaFaceApi <-
    (if faceapi_defined env then
       try_catch
         (loaded <- read faceApiModelsLoaded ;;
          _ <- (if loaded then ret true else loadFaceApiModels env) ;;
          loaded <- read faceApiModelsLoaded ;;
          if loaded then
            result <- detectWithFaceApi env ;;
            ret (if truthy result then Some result else None)
          else ret None)
         (fun _ => ret None)
     else ret None) ;;
  match viaFaceApi with
  | Some result => ret result
  | None => detectClientSideFallback env
  end.

(** [obj[name] = v] on an object. *)
Fixpoint assign (name : string) (v : jsval) (fields : list (string * jsval))
    : list (string * jsval) :=
  match fields with
  | [] => [(name, v)]
  | (k, x) :: rest =>
      if String.eqb k name then (k, v) :: rest else (k, x) :: assign name v rest
  end.

Definition set_field (name : string) (v : jsval) (obj : jsval) : outcome jsval :=
  match obj with
  | VObj fields => Ok (VObj (assign name v fields))
  | VNull | VUndefined => Throw TypeError
  | _ => Ok obj
  end.

(** The "add user info" lines of [detectStress]. *)
Definition add_user_info (result : jsval) : M jsval :=
  currentUser <- stored "currentUser" (VObj []) ;;
  name <- lift (member "name" currentUser) ;;
  result <- lift (set_field "userName" (or_else name (VStr "Anonymous")) result) ;;
  email <- lift (member "email" currentUser) ;;
  lift (set_field "userEmail" (or_else email (VStr "")) result).

(** [detectStress] (detection.js, l. 924-972). *)
Definition detectStress (env : Env) : M jsval :=
  if negb (truthy (uploadedImage env)) then
    ret (VObj
      [ ("emotion", VStr "Neutral"); ("stressLevel", VStr "Low");
        ("eyeStrain", VStr "Normal"); ("browTension", VStr "Normal");
        ("facialFatigue", VStr "Normal"); ("confidence", VNum (num_of_Z 75));
        ("timestamp", VStr (now_iso (calendar env)));
        ("detectionMethod", VStr "Default") ])
  else
    flag <- read backendAvailable ;;
    _ <- (match flag with
          | None => checkBackendHealth env
          | Some _ => ret true
          end) ;;
    flag <- read backendAvailable ;;
    viaBackend <-
      (match flag with
       | Some true =>
           try_catch
             (result <- detectWithBackend env ;;
              result <- add_user_info result ;;
              ret (Some result))
             (fun _ => ret None)
       | _ => ret None
       end) ;;
    match viaBackend with
    | Some result => ret result
    | None =>
        result <- detectClientSide env ;;
        add_user_info result
    end.

(** ** History *)

(** [saveResult] (detection.js, l. 1009-1013); the storage quota is not
    modelled. *)
Definition saveResult (result : jsval) : M unit :=
  results <- stored "stressResults" (VArr []) ;;
  match results with
  | VArr items =>
      match to_json (VArr (items ++ [result])) with
      | Some text =>
          update (fun w => set_localStorage
                             (<["stressResults" := text]> (localStorage w)) w)
      | None => throw TypeError
      end
  | _ => throw TypeError
  end.

(** [getResultsHistory] (detection.js, l. 1018-1020). *)
Definition getResultsHistory : M jsval := stored "stressResults" (VArr []).

(** ** Classifier metrics *)

(** The simulated metrics that [getKNNResults] falls back to. *)
Definition KNN_SIMULATED : jsval :=
  VObj [ ("success", VBool true);
         ("accuracy", VNum (num_of_Z 89));
         ("classificationError", VNum (num_of_Z 11));
         ("sensitivity", VNum (num_lit 875 10));
         ("specificity", VNum (num_lit 902 10));
         ("falsePositiveRate", VNum (num_lit 98 10));
         ("precision", VNum (num_lit 883 10));
         ("sampleSize", VNum (num_of_Z 35887)) ].

(** [getKNNResults] (detection.js, l. 977-1004); [knn_reply] is the reply
    to [GET /api/knn-results/]. *)
Definition getKNNResults (env : Env) (knn_reply : reply) : M jsval :=
  flag <- read backendAvailable ;;
  _ <- (match flag with
        | None => checkBackendHealth env
        | Some _ => ret true
        end) ;;
  flag <- read backendAvailable ;;
  fromBackend <-
    (match flag with
     | Some true =>
         try_catch
           (match knn_reply with
            | Rejected e => throw e
            | Response status b =>
                if ok status then
                  match b with
                  | Json data => ret (Some data)
                  | Malformed => throw SyntaxError
                  end
                else ret None
            end)
           (fun _ => ret None)
     | _ => ret None
     end) ;;
  match fromBackend with
  | Some data => ret data
  | None => ret KNN_SIMULATED
  end.

(** ** User statistics *)

(** [a === b] for values read from two different JSON texts: two arrays or
    two objects are never the same object. *)
Definition strict_eq (a b : jsval) : bool :=
  match a, b with
  | VUndefined, VUndefined => true
  | VNull, VNull => true
  | VBool x, VBool y => Bool.eqb x y
  | VNum x, VNum y => num_leb x y && num_leb y x
  | VStr x, VStr y => String.eqb x y
  | VBuiltin x, VBuiltin y => String.eqb x y
  | _, _ => false
  end.

(** [items.filter(r => r.userEmail === email)]; reading [r.userEmail]
    throws on [null] and [undefined]. *)
Fixpoint filter_by_email (email : jsval) (items : list jsval) : outcome (list jsval) :=
  match items with
  | [] => Ok []
  | r :: rest =>
      match member "userEmail" r, filter_by_email email rest with
      | Throw e, _ => Throw e
      | Ok _, Throw e => Throw e
      | Ok userEmail, Ok kept =>
          Ok (if strict_eq userEmail email then r :: kept else kept)
      end
  end.

(** [items.filter(r => r.stressLevel === level).length] *)
Fixpoint count_level (level : string) (items : list jsval) : outcome Z :=
  match items with
  | [] => Ok 0
  | r :: rest =>
      match member "stressLevel" r, count_level level rest with
      | Throw e, _ => Throw e
      | Ok _, Throw e => Throw e
      | Ok stressLevel, Ok n => Ok (if is_string level stressLevel then 1 + n else n)
      end
  end.

(** [acc + r.confidence]: [None] once the sum has become text (a string,
    an array or an object was added): the number that the final division
    reads back from that text depends on the decimal text of numbers. *)
Definition plus_confidence (acc : outcome (option number)) (r : jsval)
    : outcome (option number) :=
  match acc, member "confidence" r with
  | Throw e, _ => Throw e
  | Ok _, Throw e => Throw e
  | Ok None, Ok _ => Ok None
  | Ok (Some a), Ok confidence =>
      match confidence with
      | VNum n => Ok (Some (num_add a n))
      | VUndefined => Ok (Some NaN)
      | VNull => Ok (Some (num_add a (num_of_Z 0)))
      | VBool b => Ok (Some (num_add a (num_of_Z (if b then 1 else 0))))
      | VStr _ | VArr _ | VObj _ | VBuiltin _ => Ok None
      end
  end.

(** The value of a property of [emotionCounts]: a count, or text once a
    built-in member was incremented. *)
Inductive tally :=
  | Count (c : Z)
  | Text.

Definition digit_of (c : ascii) : option Z :=
  let n := Z.of_nat (nat_of_ascii c) in
  if (48 <=? n) && (n <=? 57) then Some (n - 48) else None.

Fixpoint decimal (acc : Z) (s : string) : option Z :=
  match s with
  | EmptyString => Some acc
  | String c rest =>
      match digit_of c with
      | Some d => decimal (10 * acc + d) rest
      | None => None
      end
  end.

(** The array index that a property key denotes, if any: the canonical
    decimal text of an integer from 0 to 2^32 - 2.  [Object.entries] lists
    such keys first, in ascending order, and the other keys after them in
    the order of their creation. *)
Definition array_index (key : string) : option Z :=
  match key with
  | EmptyString => None
  | String c rest =>
      if Ascii.eqb c "0" && negb (String.eqb rest "") then None
      else match decimal 0 key with
           | Some n => if n <=? 4294967294 then Some n else None
           | None => None
           end
  end.

(** A new property, at its place in the enumeration order. *)
Fixpoint add_property (key : string) (v : tally) (props : list (string * tally))
    : list (string * tally) :=
  match props with
  | [] => [(key, v)]
  | (k, x) :: rest =>
      match array_index key, array_index k with
      | Some i, Some j =>
          if i <? j then (key, v) :: props else (k, x) :: add_property key v rest
      | Some _, None => (key, v) :: props
      | None, _ => (k, x) :: add_property key v rest
      end
  end.

Fixpoint set_property (key : string) (v : tally) (props : list (string * tally))
    : list (string * tally) :=
  match props with
  | [] => []
  | (k, x) :: rest =>
      if String.eqb k key then (k, v) :: rest else (k, x) :: set_property key v rest
  end.

(** [emotionCounts[key] = (emotionCounts[key] || 0) + 1].  A key that names
    a member of [Object.prototype] reads that member, and adding 1 to it
    gives text; assigning text to [__proto__] is ignored. *)
Definition count_emotion (key : string) (emotionCounts : list (string * tally))
    : list (string * tally) :=
  match get emotionCounts key with
  | Own (Count c) => set_property key (Count (c + 1)) emotionCounts
  | Own Text => emotionCounts
  | Inherited k =>
      if String.eqb k "__proto__" then emotionCounts
      else add_property key Text emotionCounts
  | Absent => add_property key (Count 1) emotionCounts
  end.

(** The [forEach] loop; [None] when the text of a key is not modelled. *)
Fixpoint emotionCounts_of (items : list jsval) (emotionCounts : list (string * tally))
    : outcome (option (list (string * tally))) :=
  match items with
  | [] => Ok (Some emotionCounts)
  | r :: rest =>
      match member "emotion" r with
      | Throw e => Throw e
      | Ok emotion =>
          match to_string emotion with
          | Some key => emotionCounts_of rest (count_emotion key emotionCounts)
          | None =>
              match emotionCounts_of rest emotionCounts with
              | Throw e => Throw e
              | Ok _ => Ok None
              end
          end
      end
  end.

(** The counts of a table without text. *)
Fixpoint counts_of (props : list (string * tally)) : option (list (string * Z)) :=
  match props with
  | [] => Some []
  | (k, Count c) :: rest => option_map (cons (k, c)) (counts_of rest)
  | (_, Text) :: _ => None
  end.

(** The stable sort with the comparator [(a, b) => b[1] - a[1]]. *)
Fixpoint insert_by_tally (x : string * Z) (sorted : list (string * Z))
    : list (string * Z) :=
  match sorted with
  | [] => [x]
  | y :: rest =>
      if snd y <=? snd x then x :: y :: rest
      else y :: insert_by_tally x rest
  end.

Definition sort_by_tally (entries : list (string * Z)) : list (string * Z) :=
  fold_right insert_by_tally [] entries.

(** What [getUserStats] returns.  [avgConfidence] and [commonEmotion] are
    [None] where they depend on the decimal text of a number, or on the
    order in which a sort with an inconsistent comparator (text among the
    counts) leaves its input. *)
Record UserStats := {
  totalScans : Z;
  avgConfidence : option number;
  stressDistribution : Z * Z * Z;
  commonEmotion : option string
}.

Definition NO_STATS : UserStats :=
  {| totalScans := 0; avgConfidence := Some (num_of_Z 0);
     stressDistribution := (0, 0, 0); commonEmotion := Some "N/A" |}.

(** [f.length] for a member of [Object.prototype]. *)
Definition builtin_length (k : string) : jsval :=
  if String.eqb k "__proto__" then VUndefined
  else if mem k [ "toLocaleString"; "toString"; "valueOf" ] then VNum (num_of_Z 0)
  else if mem k [ "__defineGetter__"; "__defineSetter__" ] then VNum (num_of_Z 2)
  else VNum (num_of_Z 1).

(** [getUserStats] (detection.js, l. 1025-1065). *)
Definition getUserStats : M UserStats :=
  results <- getResultsHistory ;;
  currentUser <- stored "currentUser" (VObj []) ;;
  email <- lift (member "email" currentUser) ;;
  userResults <-
    lift (if truthy email then
            match results with
            | VArr items =>
                match filter_by_email email items with
                | Ok kept => Ok (VArr kept)
                | Throw e => Throw e
                end
            | _ => Throw TypeError
            end
          else Ok results) ;;
  empty <-
    lift (match userResults with
          | VNull | VUndefined => Throw TypeError
          | VArr items => Ok (Nat.eqb (length items) 0)
          | VStr s => Ok (String.eqb s "")
          | VBuiltin k => Ok (strict_eq (builtin_length k) (VNum (num_of_Z 0)))
          | _ => Ok (strict_eq (field "length" userResults) (VNum (num_of_Z 0)))
          end) ;;
  if empty then ret NO_STATS
  else
    match userResults with
    | VArr items =>
        low <- lift (count_level "Low" items) ;;
        medium <- lift (count_level "Medium" items) ;;
        high <- lift (count_level "High" items) ;;
        sum <- lift (fold_left plus_confidence items (Ok (Some (num_of_Z 0)))) ;;
        emotionCounts <- lift (emotionCounts_of items []) ;;
        commonEmotion <-
          lift (match emotionCounts with
                | None => Ok None
                | Some [] => Throw TypeError
                | Some props =>
                    match counts_of props with
                    | None => Ok None
                    | Some entries =>
                        Ok (option_map fst (head (sort_by_tally entries)))
                    end
                end) ;;
        ret {| totalScans := Z.of_nat (length items);
               avgConfidence :=
                 option_map
                   (fun s => Math_round
                               (num_div s (num_of_Z (Z.of_nat (length items)))))
                   sum;
               stressDistribution := (low, medium, high);
               commonEmotion := commonEmotion |}
    | _ => throw TypeError
    end.

(** ** Landmark geometry *)

(** The landmark groups that [analyzeFacialLandmarks] reads, each an array
    of points (x, y). *)
Record Landmarks := {
  getLeftEye : list (number * number);
  getRightEye : list (number * number);
  getLeftEyeBrow : list (number * number);
  getRightEyeBrow : list (number * number);
  getMouth : list (number * number)
}.

(** The canvas that the image is drawn on: its size, and the colour bytes
    that [getImageData(x, y, 1, 1)] returns. *)
Record Canvas := {
  canvas_width : number;
  canvas_height : number;
  getImageData : number -> number -> Z * Z * Z
}.

(** [o] and then [k], unless [o] throws. *)
Definition and_then {A B} (o : outcome A) (k : A -> outcome B) : outcome B :=
  match o with
  | Ok a => k a
  | Throw e => Throw e
  end.

Notation "x <~ o ;; k" := (and_then o (fun x => k))
  (at level 100, o at next level, right associativity) : js_scope.

(** [points[i]], for reading a coordinate of it: that read throws when the
    array has no such element. *)
Definition point (points : list (number * number)) (i : nat)
    : outcome (number * number) :=
  match nth_error points i with
  | Some p => Ok p
  | None => Throw TypeError
  end.

(** [Math.max(0, Math.min(1, x))] *)
Definition clamp01 (x : number) : number :=
  Math_max (num_of_Z 0) (Math_min (num_of_Z 1) x).

(** The offsets of the sampling loops, in the order of the iteration. *)
Definition SAMPLE_OFFSETS : list (Z * Z) :=
  flat_map (fun dx => map (fun dy => (dx, dy)) [ 3; 5; 7; 9; 11; 13 ])
           [ -10; -8; -6; -4; -2; 0; 2; 4; 6; 8; 10 ].

(** One sample below an eye: the running darkness and sample count. *)
Definition sample (canvas : Canvas) (under : number * number) (offset : Z * Z)
    (acc : number * Z) : number * Z :=
  let '(totalDarkness, samples) := acc in
  let x := Math_floor (num_add (fst under) (num_of_Z (fst offset))) in
  let y := Math_floor (num_add (snd under) (num_of_Z (snd offset))) in
  if num_ltb (num_of_Z 0) x && num_ltb (num_of_Z 0) y
     && num_ltb x (canvas_width canvas) && num_ltb y (canvas_height canvas)
  then
    let '(r, g, b) := getImageData canvas x y in
    let brightness :=
      num_div (num_add (num_add (num_of_Z r) (num_of_Z g)) (num_of_Z b))
              (num_of_Z 3) in
    (num_add totalDarkness (num_sub (num_of_Z 255) brightness), samples + 1)
  else acc.

(** The dark-circle score, computed inside a [try] of its own: the default
    0.3 stays when anything throws there.  [None] for the canvas stands for
    a canvas that cannot be drawn on or read. *)
Definition darkCircles (canvas : option Canvas)
    (underLeftEye underRightEye : option (number * number)) : number :=
  match canvas, underLeftEye, underRightEye with
  | Some c, Some underLeftEye, Some underRightEye =>
      let '(totalDarkness, samples) :=
        fold_left
          (fun acc offset => sample c underRightEye offset (sample c underLeftEye offset acc))
          SAMPLE_OFFSETS (num_of_Z 0, 0) in
      if 0 <? samples then
        let avgDarkness := num_div totalDarkness (num_of_Z samples) in
        clamp01 (num_div avgDarkness (num_of_Z 150))
      else num_lit 3 10
  | _, _, _ => num_lit 3 10
  end.

(** What [analyzeFacialLandmarks] returns when anything throws. *)
Definition DEFAULT_ANALYSIS : FacialAnalysis :=
  {| eyeFatigueScore := num_lit 3 10; browTensionScore := num_lit 3 10;
     mouthTensionScore := num_lit 3 10; darkCircleScore := num_lit 3 10;
     wrinkleScore := num_lit 3 10; fatigueScore := num_lit 3 10;
     overallStressScore := num_lit 3 10; details := VObj [] |}.

(** [analyzeFacialLandmarks] (detection.js, l. 504-631); [toFixed x d] is
    [x.toFixed(d)]. *)
Definition analyzeFacialLandmarks (toFixed : number -> nat -> string)
    (landmarks : Landmarks) (canvas : option Canvas) (faceBox : jsval)
    : FacialAnalysis :=
  let leftEye := getLeftEye landmarks in
  let rightEye := getRightEye landmarks in
  let leftBrow := getLeftEyeBrow landmarks in
  let rightBrow := getRightEyeBrow landmarks in
  let mouth := getMouth landmarks in
  let attempt : outcome FacialAnalysis :=
    leftEye1 <~ point leftEye 1 ;; leftEye5 <~ point leftEye 5 ;;
    leftEye0 <~ point leftEye 0 ;; leftEye3 <~ point leftEye 3 ;;
    let leftEyeHeight := Math_abs (num_sub (snd leftEye1) (snd leftEye5)) in
    let leftEyeWidth := Math_abs (num_sub (fst leftEye0) (fst leftEye3)) in
    let leftEyeRatio := num_div leftEyeHeight leftEyeWidth in
    rightEye1 <~ point rightEye 1 ;; rightEye5 <~ point rightEye 5 ;;
    rightEye0 <~ point rightEye 0 ;; rightEye3 <~ point rightEye 3 ;;
    let rightEyeHeight := Math_abs (num_sub (snd rightEye1) (snd rightEye5)) in
    let rightEyeWidth := Math_abs (num_sub (fst rightEye0) (fst rightEye3)) in
    let rightEyeRatio := num_div rightEyeHeight rightEyeWidth in
    let avgEyeOpenness := num_div (num_add leftEyeRatio rightEyeRatio) (num_of_Z 2) in
    let eyeFatigueScore :=
      clamp01 (num_mul (num_sub (num_lit 35 100) avgEyeOpenness) (num_of_Z 4)) in
    leftBrow2 <~ point leftBrow 2 ;; rightBrow2 <~ point rightBrow 2 ;;
    let leftBrowHeight := num_sub (snd leftBrow2) (snd leftEye1) in
    let rightBrowHeight := num_sub (snd rightBrow2) (snd rightEye1) in
    let avgBrowDistance :=
      num_div (num_add leftBrowHeight rightBrowHeight) (num_of_Z 2) in
    let browTensionScore :=
      clamp01 (num_div (num_sub (num_of_Z 15) avgBrowDistance) (num_of_Z 30)) in
    mouth0 <~ point mouth 0 ;; mouth6 <~ point mouth 6 ;;
    mouth3 <~ point mouth 3 ;; mouth9 <~ point mouth 9 ;;
    let mouthWidth := Math_abs (num_sub (fst mouth0) (fst mouth6)) in
    let mouthHeight := Math_abs (num_sub (snd mouth3) (snd mouth9)) in
    let mouthRatio := num_div mouthWidth mouthHeight in
    let mouthTensionScore :=
      if num_ltb (num_of_Z 4) mouthRatio then num_lit 7 10
      else if num_ltb (num_of_Z 3) mouthRatio then num_lit 4 10
      else num_lit 2 10 in
    _ <~ member "width" faceBox ;;
    let darkCircleScore :=
      darkCircles canvas (nth_error leftEye 4) (nth_error rightEye 4) in
    let browVariance := Math_abs (num_sub (snd leftBrow2) (snd rightBrow2)) in
    let wrinkleScore :=
      Math_min (num_of_Z 1)
        (num_add (num_div browVariance (num_of_Z 10))
                 (num_mul browTensionScore (num_lit 5 10))) in
    let fatigueScore :=
      num_add
        (num_add
           (num_add (num_mul eyeFatigueScore (num_lit 3 10))
                    (num_mul darkCircleScore (num_lit 3 10)))
           (num_mul mouthTensionScore (num_lit 2 10)))
        (num_mul wrinkleScore (num_lit 2 10)) in
    let overallStressScore :=
      num_add
        (num_add
           (num_add
              (num_add (num_mul eyeFatigueScore (num_lit 25 100))
                       (num_mul browTensionScore (num_lit 3 10)))
              (num_mul mouthTensionScore (num_lit 15 100)))
           (num_mul darkCircleScore (num_lit 2 10)))
        (num_mul fatigueScore (num_lit 1 10)) in
    Ok {| eyeFatigueScore := eyeFatigueScore;
          browTensionScore := browTensionScore;
          mouthTensionScore := mouthTensionScore;
          darkCircleScore := darkCircleScore;
          wrinkleScore := wrinkleScore;
          fatigueScore := fatigueScore;
          overallStressScore := overallStressScore;
          details :=
            VObj [ ("eyeOpenness", VStr (toFixed avgEyeOpenness 3%nat));
                   ("browDistance", VStr (toFixed avgBrowDistance 1%nat));
                   ("mouthRatio", VStr (toFixed mouthRatio 2%nat)) ] |} in
  match attempt with
  | Ok result => result
  | Throw _ => DEFAULT_ANALYSIS
  end.

(** *** The confidence formula as the specification words it *)

Module ConfidenceSpec.
Local Open Scope Q_scope.

Definition brightnessScore (brightness : Q) : Q :=
  1 - Qabs (brightness - 128) / 128.

Definition contrastScore (contrast : Q) : Q := Qminmax.Qmin 1 (contrast / 50).

Definition imageQuality (brightness contrast : Q) : Q :=
  brightnessScore brightness * (6 # 10) + contrastScore contrast * (4 # 10).

Definition clamp (x lo hi : Q) : Q := Qminmax.Qmax lo (Qminmax.Qmin hi x).

Definition confidence (imageQuality skinToneScore jitter : Q) : Z :=
  Qfloor (clamp (imageQuality * 60 + skinToneScore * 30 + jitter) 70 95 + (1 # 2)).

End ConfidenceSpec.

(** *** Peak hours as the specification words them *)

Module PeakTimesSpec.

(** Counting with the hours kept in the order in which they are first
    met in the history. *)
Fixpoint tally (hour : Z) (counts : list (Z * Z)) : list (Z * Z) :=
  match counts with
  | [] => [(hour, 1)]
  | (h, c) :: rest =>
      if hour =? h then (h, c + 1) :: rest else (h, c) :: tally hour rest
  end.

(** Top three by descending count, ties in first-encountered order. *)
Definition peakTimes (hours : list Z) : list Z :=
  map fst (firstn 3 (sort_by_count
                       (fold_left (fun counts h => tally h counts) hours []))).

End PeakTimesSpec.

(** *** A calendar for worked examples *)

Module ExampleCalendar.

Definition digit (c : ascii) : option Z :=
  let n := Z.of_N (N_of_ascii c) in
  if (48 <=? n) && (n <=? 57) then Some (n - 48) else None.

Fixpoint digits (acc : Z) (l : list ascii) : option Z :=
  match l with
  | [] => Some acc
  | c :: l' =>
      match digit c with
      | Some d => digits (10 * acc + d) l'
      | None => None
      end
  end.

Definition number_at (start len : nat) (s : string) : option Z :=
  let l := list_ascii_of_string (substring start len s) in
  if Nat.eqb (length l) len then digits 0 l else None.

(** Days from 1970-01-01 to the civil date [y-m-d]. *)
Definition days_from_civil (y m d : Z) : Z :=
  let y' := if m <=? 2 then y - 1 else y in
  let era := y' / 400 in
  let yoe := y' - era * 400 in
  let doy := (153 * (if 2 <? m then m - 3 else m + 9) + 2) / 5 + d - 1 in
  let doe := yoe * 365 + yoe / 4 - yoe / 100 + doy in
  era * 146097 + doe - 719468.

(** The instant of a text in the format of [toISOString],
    [YYYY-MM-DDTHH:mm:ss.sssZ]. *)
Definition parse_iso (s : string) : option Z :=
  match number_at 0 4 s, number_at 5 2 s, number_at 8 2 s,
        number_at 11 2 s, number_at 14 2 s, number_at 17 2 s,
        number_at 20 3 s with
  | Some y, Some mo, Some d, Some h, Some mi, Some sec, Some ms =>
      if Nat.eqb (String.length s) 24 then
        Some ((((days_from_civil y mo d * 24 + h) * 60 + mi) * 60 + sec) * 1000 + ms)
      else None
  | _, _, _, _, _, _, _ => None
  end.

Definition parse (v : jsval) : option Z :=
  match v with
  | VStr s => parse_iso s
  | VNum n => num_to_Z n
  | _ => None
  end.

(** Noon UTC on 2026-11-03, in a UTC time zone. *)
Definition calendar : Calendar :=
  {| Date_now := 1793707200000; tz_offset := 0; Date_parse := parse;
     now_iso := "2026-11-03T12:00:00.000Z" |}.

End ExampleCalendar.

(** *** The relief-urgency formula as the specification words it *)

Module ReliefUrgencySpec.

Definition base (stressLevel : string) : Q :=
  if String.eqb stressLevel "Low" then 2
  else if String.eqb stressLevel "Medium" then 5
  else if String.eqb stressLevel "High" then 8
  else 5.

Definition emotionBonus (emotion : string) : Q :=
  if mem emotion [ "Angry"; "Fearful"; "Sad"; "Disgusted" ] then 1 else 0.

Definition contribution (level : string) : Q :=
  if String.eqb level "Mild" then 3 # 10
  else if String.eqb level "Moderate" then 6 # 10
  else if String.eqb level "High" then 9 # 10
  else if String.eqb level "Severe" then 12 # 10
  else 0.

Definition featureSum (eyeStrain browTension facialFatigue : string) : Q :=
  contribution eyeStrain + contribution browTension + contribution facialFatigue.

(** nearest integer, halves upwards *)
Definition round (x : Q) : Z := Qfloor (x + (1 # 2)).

Definition clamp (lo hi z : Z) : Z := Z.max lo (Z.min hi z).

Definition reliefUrgency
    (stressLevel emotion eyeStrain browTension facialFatigue : string) : Z :=
  clamp 1 10
    (round (base stressLevel + emotionBonus emotion
            + featureSum eyeStrain browTension facialFatigue)).

Definition count (level : string) (l : list string) : nat :=
  length (List.filter (String.eqb level) l).

(** The inputs whose exact sum is a half-integer that the binary64
    accumulation misses from below: Low without emotion bonus and the levels
    Mild, Mild, High in some order (3.5), or Medium with the levels Mild,
    Moderate, Moderate in some order (6.5 and 7.5). *)
Definition just_below_half
    (stressLevel emotion eyeStrain browTension facialFatigue : string) : bool :=
  let l := [ eyeStrain; browTension; facialFatigue ] in
  (String.eqb stressLevel "Low" && negb (mem emotion highStressEmotions)
     && Nat.eqb (count "Mild" l) 2 && Nat.eqb (count "High" l) 1)
  || (String.eqb stressLevel "Medium"
     && Nat.eqb (count "Mild" l) 1 && Nat.eqb (count "Moderate" l) 2).

End ReliefUrgencySpec.

(** * Vocabulary of the statements *)

(** ** Relief urgency *)

(** Decidable equality of binary64 results, for checking tables by
    evaluation. *)
Definition sf_eqb (x y : spec_float) : bool :=
  match x, y with
  | S754_zero s1, S754_zero s2 => Bool.eqb s1 s2
  | S754_infinity s1, S754_infinity s2 => Bool.eqb s1 s2
  | S754_nan, S754_nan => true
  | S754_finite s1 m1 e1, S754_finite s2 m2 e2 =>
      Bool.eqb s1 s2 && Pos.eqb m1 m2 && Z.eqb e1 e2
  | _, _ => false
  end.

(** The integer that the amended statement of the relief urgency assigns to
    an input: the specified formula, lowered by one on the inputs of
    [just_below_half]. *)
Definition urgency_amended
    (stressLevel emotion eyeStrain browTension facialFatigue : string) : Z :=
  ReliefUrgencySpec.reliefUrgency stressLevel emotion eyeStrain browTension facialFatigue
  - (if ReliefUrgencySpec.just_below_half
          stressLevel emotion eyeStrain browTension facialFatigue
     then 1 else 0).

(** One row of the table of all inputs: the function returns that integer,
    which lies in 1..10 and does not decrease along Low, Medium, High. *)
Definition urgency_row_ok (sl em e b f : string) : bool :=
  match calculateReliefUrgency (num := spec_float)
          (VStr sl) (VStr em) (VStr e) (VStr b) (VStr f) with
  | Some r => sf_eqb r (num_of_Z (urgency_amended sl em e b f))
  | None => false
  end
  && (1 <=? urgency_amended sl em e b f) && (urgency_amended sl em e b f <=? 10)
  && (urgency_amended "Low" em e b f <=? urgency_amended "Medium" em e b f)
  && (urgency_amended "Medium" em e b f <=? urgency_amended "High" em e b f).

(** The values that a feature level, respectively a stress level, can take
    in a client-side result. *)
Definition levels_or_undefined : list jsval := VUndefined :: map VStr FEATURE_LEVELS.
Definition stress_or_undefined : list jsval := VUndefined :: map VStr STRESS_LEVELS.

(** The relief urgency of such an input is an integer of 1..10. *)
Definition relief_ok (sl em e b f : jsval) : bool :=
  match reliefUrgency_value sl em e b f with
  | VNum n =>
      match num_to_Z n with
      | Some z => (1 <=? z) && (z <=? 10) && sf_eqb n (num_of_Z z)
      | None => false
      end
  | _ => false
  end.

(** ** History and trend *)

(** An entry carrying a timestamp from before the seven-day window. *)
Definition stale (cal : Calendar) (r : jsval) : Prop :=
  match r with
  | VObj _ =>
      exists t, Date_parse cal (field "timestamp" r) = Some t
                /\ t < Date_now cal - 7 * MS_PER_DAY
  | _ => False
  end.

(** How often hour [h] occurs. *)
Definition occurrences (h : Z) (hours : list Z) : Z :=
  Z.of_nat (count_occ Z.eq_dec hours h).

(** [a] is listed before [b]: more occurrences, or as many and an earlier
    hour of day. *)
Definition ranks_before (hours : list Z) (a b : Z) : Prop :=
  occurrences b hours < occurrences a hours
  \/ (occurrences a hours = occurrences b hours /\ a < b).

(** The shape of [hourCounts]: one entry per hour, by ascending hour. *)
Definition keys_ascending (l : list (Z * Z)) : Prop :=
  StronglySorted (fun x y => fst x < fst y) l.

(** [ranks_before] on entries that carry their count. *)
Definition rank (x y : Z * Z) : Prop :=
  snd y < snd x \/ (snd x = snd y /\ fst x < fst y).

(** The count stored for hour [h]; 0 when there is none. *)
Fixpoint count_at (h : Z) (l : list (Z * Z)) : Z :=
  match l with
  | [] => 0
  | (k, c) :: rest => if h =? k then c else count_at h rest
  end.

(** Worked histories. *)
Definition entry (timestamp stressLevel : string) : jsval :=
  VObj [ ("emotion", VStr "Sad"); ("stressLevel", VStr stressLevel);
         ("timestamp", VStr timestamp) ].

Definition store_of (history : list jsval) : storage :=
  <["stressResults" := VArr history]> ∅.

(** Two High entries inside the window, the first at 14h, the second at 9h. *)
Definition tie_history : list jsval :=
  [ entry "2026-11-02T14:10:00.000Z" "High";
    entry "2026-11-03T09:05:00.000Z" "High" ].

(** One entry a month before the window. *)
Definition stale_history : list jsval :=
  [ entry "2026-10-03T09:05:00.000Z" "High" ].

(** ** Percentages *)

(** The sum of a table of integer percentages; [None] when an entry is not
    an integer. *)
Definition percent_sum {num : Type} `{JsNumber num}
    (allProbabilities : list (string * num)) : option Z :=
  fold_right
    (fun '(_, v) acc =>
       match num_to_Z v, acc with
       | Some z, Some total => Some (z + total)
       | _, _ => None
       end)
    (Some 0) allProbabilities.

(** The draws of [Math.random], given as decimal fractions. *)
Definition draws {num : Type} `{JsNumber num} (l : list Q) (i : nat) : num :=
  let q := nth i l (0 # 1)%Q in num_lit (Qnum q) (Qden q).

(** ** Persisted state *)

Definition is_object (v : jsval) : Prop :=
  match v with VObj _ => True | _ => False end.

(** The persisted state as this code base writes it: the current user is
    absent or an object, the history is absent or an array of objects. *)
Definition well_formed (st : storage) : Prop :=
  match st !! "currentUser" with
  | None => True
  | Some v => is_object v
  end
  /\ match st !! "stressResults" with
     | None => True
     | Some (VArr results) => Forall is_object results
     | Some _ => False
     end.

(** JSON data: a value that the round trip through [JSON.stringify] and
    [JSON.parse] returns as it is. *)
Definition json_data (v : jsval) : Prop := to_json v = Some v.

(** ** Runs of the world monad *)

(** [m] run on a world with storage [st] ends with the same storage and,
    when it returns, with a value satisfying [Q]. *)
Definition keeps {A} (st : storage) (m : M A) (Q : A -> Prop) : Prop :=
  forall w, localStorage w = st ->
    exists o w', m w = (o, w') /\ localStorage w' = st
      /\ match o with Ok a => Q a | Throw _ => True end.

(** As [keeps], and [m] does return. *)
Definition returns {A} (st : storage) (m : M A) (Q : A -> Prop) : Prop :=
  forall w, localStorage w = st ->
    exists a w', m w = (Ok a, w') /\ localStorage w' = st /\ Q a.

(** [m] never changes the storage, whether it returns or throws. *)
Definition preserves {A} (m : M A) : Prop :=
  forall w, localStorage (snd (m w)) = localStorage w.

(** ** Results and replies *)

(** A result that carries its provenance tag, a relief urgency of 1..10 and
    a trend object. *)
Definition enriched (method : string) (r : jsval) : Prop :=
  is_object r
  /\ field "detectionMethod" r = VStr method
  /\ (exists z, 1 <= z <= 10 /\ field "reliefUrgency" r = VNum (num_of_Z z))
  /\ is_object (field "stressTrends" r).

(** A result of the remote path: tagged as such, without relief urgency and
    without trends. *)
Definition unenriched (r : jsval) : Prop :=
  is_object r
  /\ field "detectionMethod" r = VStr CNN_METHOD
  /\ field "reliefUrgency" r = VUndefined
  /\ field "stressTrends" r = VUndefined.

(** The remote call fails: [fetch] rejects (network error, abort or
    timeout), the status is not 2xx, the body is not JSON, or it does not
    report success. *)
Definition detect_failed (r : reply) : Prop :=
  match r with
  | Rejected _ => True
  | Response status b =>
      ok status = false
      \/ match b with
         | Malformed => True
         | Json result =>
             match member "success" result with
             | Throw _ => True
             | Ok success => truthy success = false
             end
         end
  end.

(** ** Worked environments *)

(** A supplied image. *)
Definition data_url : jsval := VStr "data:image/png;base64,iVBORw0KGgo=".

(** A page where face-api is present and its first mirror loads, the image
    loads neither in the face-api path nor in the pixel heuristic, and every
    draw is 0.5. *)
Definition example_env (health detect : reply) : Env :=
  {| calendar := ExampleCalendar.calendar;
     random := fun _ => num_lit 5 10;
     uploadedImage := data_url;
     health_reply := health;
     detect_reply := detect;
     faceapi_defined := true;
     mirror_loads := [true];
     decoded := Undecodable;
     face_image_loads := false;
     face_primary := Ok [];
     face_retry := Ok [] |}.

(** The page right after loading, with nothing stored. *)
Definition fresh : World :=
  {| backendAvailable := None; faceApiModelsLoaded := false;
     localStorage := ∅; drawn := 0 |}.

(** Replies of the backend. *)
Definition healthy : reply := Response 200 (Json (VObj [ ("status", VStr "healthy") ])).

Definition detected : reply :=
  Response 200 (Json (VObj
    [ ("success", VBool true); ("emotion", VStr "Fear");
      ("stressLevel", VStr "High"); ("confidence", VNum (num_of_Z 91));
      ("faceDetected", VBool true);
      ("allPredictions", VObj [ ("Fearful", VNum (num_of_Z 91)) ]) ])).

Definition http_500 : reply := Response 500 (Json (VObj [ ("error", VStr "boom") ])).

(** ** Further vocabulary *)

(** [m] keeps the property [P] of the world, whether it returns or throws. *)
Definition invariant {A} (P : World -> Prop) (m : M A) : Prop :=
  forall w, P w -> P (snd (m w)).

(** [m] takes exactly [n] draws of [Math.random]. *)
Definition takes {A} (n : nat) (m : M A) : Prop :=
  forall w, drawn (snd (m w)) = (drawn w + n)%nat.

(** [env] with other replies of the backend. *)
Definition with_replies (health detect : reply) (env : Env) : Env :=
  {| calendar := calendar env;
     random := random env;
     uploadedImage := uploadedImage env;
     health_reply := health;
     detect_reply := detect;
     faceapi_defined := faceapi_defined env;
     mirror_loads := mirror_loads env;
     decoded := decoded env;
     face_image_loads := face_image_loads env;
     face_primary := face_primary env;
     face_retry := face_retry env |}.

(** [m] returns after exactly [n] draws of [Math.random]. *)
Definition draws_exactly {A} (n : nat) (m : M A) : Prop :=
  forall w, (exists a, fst (m w) = Ok a) /\ drawn (snd (m w)) = (drawn w + n)%nat.

(** The position of a stress level on the scale Low < Medium < High. *)
Definition stress_rank (level : string) : Z :=
  if String.eqb level "High" then 2
  else if String.eqb level "Medium" then 1
  else 0.

(** An integer percentage, 0 to 100. *)
Definition percentage (x : number) : Prop :=
  exists z, 0 <= z <= 100 /\ x = num_of_Z z.

(** [Math.round(expressions[name] * 100)] *)
Definition expression_percent (d : Detection) (name : string) : number :=
  Math_round (num_mul (prob_of name (expressions d)) (num_of_Z 100)).

Definition EXPRESSION_KEYS : list string :=
  [ "neutral"; "happy"; "sad"; "angry"; "fearful"; "disgusted"; "surprised" ].

(** [Math.min(100, z + up)] and [Math.max(0, z - down)] are the integers
    they are in exact arithmetic. *)
Definition clamp_row_ok (up down z : Z) : bool :=
  sf_eqb (Math_min (num_of_Z 100) (num_add (num_of_Z z) (num_of_Z up)))
         (num_of_Z (Z.min 100 (z + up)))
  && sf_eqb (Math_max (num_of_Z 0) (num_sub (num_of_Z z) (num_of_Z down)))
            (num_of_Z (Z.max 0 (z - down))).

(** The stored history: the array under [stressResults], or the empty one
    when the key is absent. *)
Definition has_history (st : storage) (h : list jsval) : Prop :=
  st !! "stressResults" = Some (VArr h)
  \/ (st !! "stressResults" = None /\ h = []).

(** The array element that [JSON.stringify] writes for [v], read back. *)
Definition stored_as (v : jsval) : jsval :=
  match to_json v with
  | Some j => j
  | None => VNull
  end.

(** The payload of a 2xx reply with a JSON body. *)
Definition payload (r : reply) : option jsval :=
  match r with
  | Response status (Json data) => if ok status then Some data else None
  | _ => None
  end.

(** The colour channels of a pixel are bytes. *)
Definition byte_pixel (px : Z * Z * Z * Z) : Prop :=
  let '(r, g, b, _) := px in
  0 <= r <= 255 /\ 0 <= g <= 255 /\ 0 <= b <= 255.

(** The running sums after [k] byte pixels, in exact arithmetic. *)
Definition sums_in_range (k : Z) (acc : @sums Q) : Prop :=
  (0 <= totalBrightness acc <= 255 * inject_Z k
   /\ 0 <= redTotal acc <= 255 * inject_Z k
   /\ 0 <= greenTotal acc <= 255 * inject_Z k
   /\ 0 <= blueTotal acc <= 255 * inject_Z k
   /\ 0 <= contrastSum acc <= 255 * inject_Z k
   /\ 0 <= prevBrightness acc <= 255)%Q.

(** An entry whose stress level is none of Low, Medium and High. *)
Definition unknown_level (r : jsval) : Prop :=
  match index stressValues (field "stressLevel" r) with
  | Own _ => False
  | Inherited _ | Absent => True
  end.

(** A face as the detector reports it: mostly happy, with a tense brow and
    a high overall stress score. *)
Definition example_detection : Detection :=
  {| expressions :=
       [ ("neutral", num_lit 10 100); ("happy", num_lit 70 100);
         ("sad", num_lit 5 100); ("angry", num_lit 5 100);
         ("fearful", num_lit 4 100); ("disgusted", num_lit 3 100);
         ("surprised", num_lit 3 100) ];
     analysis :=
       {| eyeFatigueScore := num_lit 6 10; browTensionScore := num_lit 7 10;
          mouthTensionScore := num_lit 4 10; darkCircleScore := num_lit 3 10;
          wrinkleScore := num_lit 5 10; fatigueScore := num_lit 45 100;
          overallStressScore := num_lit 75 100; details := VObj [] |};
     box := VObj [ ("x", VNum (num_of_Z 10)); ("y", VNum (num_of_Z 20));
                   ("width", VNum (num_of_Z 100)); ("height", VNum (num_of_Z 120)) ] |}.

(** How often [e] occurs in [l], and where it occurs first. *)
Fixpoint occ (e : string) (l : list string) : Z :=
  match l with
  | [] => 0
  | x :: l' => (if String.eqb x e then 1 else 0) + occ e l'
  end.

Fixpoint position (e : string) (l : list string) : nat :=
  match l with
  | [] => 0
  | x :: l' => if String.eqb x e then 0 else S (position e l')
  end.

(** A key that is neither an array index nor a member of
    [Object.prototype]. *)
Definition ordinary (key : string) : Prop :=
  array_index key = None /\ mem key OBJECT_PROTOTYPE_KEYS = false.

(** The results that [getUserStats] counts: those of the current user, or
    all of them when no user with an e-mail address is signed in. *)
Definition user_results (st : storage) (kept : list jsval) : Prop :=
  exists items,
    has_history st items
    /\ match st !! "currentUser" with
       | Some currentUser =>
           if truthy (field "email" currentUser)
           then filter_by_email (field "email" currentUser) items = Ok kept
           else kept = items
       | None => kept = items
       end.

(** The entry that a stable descending sort by count puts first. *)
Fixpoint best (entries : list (string * Z)) : option (string * Z) :=
  match entries with
  | [] => None
  | x :: rest =>
      match best rest with
      | None => Some x
      | Some y => if snd y <=? snd x then Some x else Some y
      end
  end.

(** A table of counts, as a table of tallies. *)
Definition tallies (counts : list (string * Z)) : list (string * tally) :=
  map (fun '(k, c) => (k, Count c)) counts.

(** The table of counts is that of the emotions [seen] so far: every key
    was seen and carries the number of its occurrences, every emotion seen
    has a key, and the keys stand in the order of their first occurrence. *)
Definition counted (seen : list string) (counts : list (string * Z)) : Prop :=
  (forall k c, In (k, c) counts -> In k seen /\ c = occ k seen)
  /\ (forall k, In k seen -> In k (map fst counts))
  /\ StronglySorted lt (map (fun kc => position (fst kc) seen) counts).

(** A saved result of a user. *)
Definition scan (userEmail emotion stressLevel : string) (confidence : Z) : jsval :=
  VObj [ ("emotion", VStr emotion); ("stressLevel", VStr stressLevel);
         ("confidence", VNum (num_of_Z confidence));
         ("userEmail", VStr userEmail) ].

(** Three results of one user and one of another, and the storage of a page
    where the first user is signed in. *)
Definition scans : list jsval :=
  [ scan "ann@example.org" "Happy" "Low" 80;
    scan "bob@example.org" "Angry" "High" 90;
    scan "ann@example.org" "Sad" "Stressed" 85;
    scan "ann@example.org" "Sad" "High" 75 ].

Definition signed_in : storage :=
  <["currentUser" := VObj [ ("name", VStr "Ann"); ("email", VStr "ann@example.org") ]]>
    (store_of scans).

Definition scans_of_ann : list jsval :=
  [ scan "ann@example.org" "Happy" "Low" 80;
    scan "ann@example.org" "Sad" "Stressed" 85;
    scan "ann@example.org" "Sad" "High" 75 ].

(** [0 <= x && x <= 1] *)
Definition in_unit_interval (x : number) : Prop :=
  num_leb (num_of_Z 0) x = true /\ num_leb x (num_of_Z 1) = true.

(** A page whose clock text parses back to the clock's instant. *)
Definition coherent (cal : Calendar) : Prop :=
  Date_parse cal (VStr (now_iso cal)) = Some (Date_now cal).

(** A reply of a backend that grades stress on another scale. *)
Definition graded_moderate : reply :=
  Response 200 (Json (VObj
    [ ("success", VBool true); ("emotion", VStr "Sad");
      ("stressLevel", VStr "Moderate"); ("confidence", VNum (num_of_Z 88)) ])).

(** * Statements *)

(** ** Relief urgency: statements *)

Lemma sf_eqb_eq x y : sf_eqb x y = true -> x = y.
Proof.
  destruct x as [s1|s1| |s1 m1 e1], y as [s2|s2| |s2 m2 e2]; simpl;
    try discriminate; try reflexivity.
  - intros E%Bool.eqb_prop. now subst.
  - intros E%Bool.eqb_prop. now subst.
  - intros E. apply andb_prop in E as [E E3]. apply andb_prop in E as [E1 E2].
    apply Bool.eqb_prop in E1. apply Pos.eqb_eq in E2. apply Z.eqb_eq in E3.
    now subst.
Qed.

(** C3, counterexample: with stress level Low, emotion Happy and the levels
    Mild, Mild, High the exact sum is 2 + 0.3 + 0.3 + 0.9 = 3.5, which rounds
    to 4, but the binary64 accumulation yields 3.4999999999999996 and the
    function returns 3. *)
Lemma relief_urgency_spec_formula_fails :
  ReliefUrgencySpec.reliefUrgency "Low" "Happy" "Mild" "Mild" "High" = 4
  /\ calculateReliefUrgency (num := spec_float)
    (VStr "Low") (VStr "Happy") (VStr "Mild") (VStr "Mild") (VStr "High")
     = Some (num_of_Z 3)
  /\ calculateReliefUrgency (num := spec_float)
    (VStr "Low") (VStr "Happy") (VStr "Mild") (VStr "Mild") (VStr "High")
     <> Some (num_of_Z
               (ReliefUrgencySpec.reliefUrgency "Low" "Happy" "Mild" "Mild" "High")).
Proof.
  split; [reflexivity|]. split; [vm_compute; reflexivity|].
  vm_compute. discriminate.
Qed.

Lemma urgency_table_ok :
  forallb (fun em =>
    forallb (fun sl =>
      forallb (fun e =>
        forallb (fun b =>
          forallb (fun f => urgency_row_ok sl em e b f) FEATURE_LEVELS)
          FEATURE_LEVELS) FEATURE_LEVELS) STRESS_LEVELS) [ "Angry"; "Happy" ]
  = true.
Proof. vm_compute. reflexivity. Qed.

Lemma urgency_row_emotion (sl em e b f : string) :
  urgency_row_ok sl em e b f
  = urgency_row_ok sl (if mem em highStressEmotions then "Angry" else "Happy") e b f.
Proof.
  unfold urgency_row_ok, urgency_amended, calculateReliefUrgency, includes,
    ReliefUrgencySpec.reliefUrgency, ReliefUrgencySpec.just_below_half,
    ReliefUrgencySpec.emotionBonus.
  change (mem em ["Angry"; "Fearful"; "Sad"; "Disgusted"])
    with (mem em highStressEmotions).
  change (mem (if mem em highStressEmotions then "Angry" else "Happy")
              ["Angry"; "Fearful"; "Sad"; "Disgusted"])
    with (mem (if mem em highStressEmotions then "Angry" else "Happy")
              highStressEmotions).
  destruct (mem em highStressEmotions); reflexivity.
Qed.

(** C3, as amended: for a stress level among Low, Medium, High, any emotion
    and any three feature levels, the function returns the integer of the
    specified formula, lowered by one exactly on the inputs of
    [just_below_half]; the result lies in 1..10 and does not decrease along
    Low, Medium, High. *)
Theorem relief_urgency_binary64
    (stressLevel emotion eyeStrain browTension facialFatigue : string) :
  In stressLevel STRESS_LEVELS ->
  In eyeStrain FEATURE_LEVELS ->
  In browTension FEATURE_LEVELS ->
  In facialFatigue FEATURE_LEVELS ->
  let urgency sl :=
    ReliefUrgencySpec.reliefUrgency sl emotion eyeStrain browTension facialFatigue
    - (if ReliefUrgencySpec.just_below_half
            sl emotion eyeStrain browTension facialFatigue
       then 1 else 0) in
  calculateReliefUrgency (num := spec_float)
    (VStr stressLevel) (VStr emotion) (VStr eyeStrain) (VStr browTension)
    (VStr facialFatigue)
  = Some (num_of_Z (urgency stressLevel))
  /\ 1 <= urgency stressLevel <= 10
  /\ urgency "Low" <= urgency "Medium" <= urgency "High".
Proof.
  intros Hs He Hb Hf urgency.
  assert (Hrow : urgency_row_ok stressLevel emotion eyeStrain browTension
                   facialFatigue = true).
  { rewrite urgency_row_emotion.
    pose proof urgency_table_ok as T.
    rewrite forallb_forall in T.
    specialize (T (if mem emotion highStressEmotions then "Angry" else "Happy")).
    assert (Hem : In (if mem emotion highStressEmotions then "Angry" else "Happy")
                     ["Angry"; "Happy"])
      by (destruct (mem emotion highStressEmotions); simpl; tauto).
    specialize (T Hem).
    rewrite forallb_forall in T. specialize (T _ Hs).
    rewrite forallb_forall in T. specialize (T _ He).
    rewrite forallb_forall in T. specialize (T _ Hb).
    rewrite forallb_forall in T. exact (T _ Hf). }
  unfold urgency_row_ok in Hrow.
  fold (urgency_amended "Low" emotion eyeStrain browTension facialFatigue) in *.
  repeat (apply andb_prop in Hrow as [Hrow ?]).
  destruct (calculateReliefUrgency (VStr stressLevel) (VStr emotion)
              (VStr eyeStrain) (VStr browTension) (VStr facialFatigue))
    as [r|]; [|discriminate].
  apply sf_eqb_eq in Hrow. subst r. subst urgency. cbv beta.
  change (ReliefUrgencySpec.reliefUrgency ?sl emotion eyeStrain browTension facialFatigue
    - (if ReliefUrgencySpec.just_below_half ?sl emotion eyeStrain browTension facialFatigue
       then 1 else 0)) with (urgency_amended sl emotion eyeStrain browTension facialFatigue).
  repeat split; try reflexivity; lia.
Qed.

(** The theorem applied to High, Sad, Severe, Mild, High. *)
Lemma relief_urgency_binary64_witness :
  calculateReliefUrgency (num := spec_float)
    (VStr "High") (VStr "Sad") (VStr "Severe") (VStr "Mild") (VStr "High")
  = Some (num_of_Z 10).
Proof.
  refine (proj1 (relief_urgency_binary64 "High" "Sad" "Severe" "Mild" "High" _ _ _ _));
    simpl; tauto.
Defined.

(** ** Alias normalisation: statements *)

Lemma assoc_In {A} (k : string) (a : A) l : assoc k l = Some a -> In (k, a) l.
Proof.
  induction l as [|[k' a'] l IH]; simpl; [discriminate|].
  destruct (String.eqb_spec k k') as [->|]; [intros [= ->]; now left|].
  intros; right; auto.
Qed.

Lemma mem_In k l : mem k l = true -> In k l.
Proof.
  unfold mem. rewrite existsb_exists. intros (x & Hx & Heq).
  apply String.eqb_eq in Heq. now subst.
Qed.




(** ** History and trend: statements *)

Lemma filter_last7Days_stale cal results :
  Forall (stale cal) results -> filter_last7Days cal results = Ok [].
Proof.
  induction 1 as [|r results Hr _ IH]; [reflexivity|].
  cbn [filter_last7Days]. rewrite IH.
  destruct r; try contradiction.
  destruct Hr as (t & Ht & Hlt). unfold in_last7Days. rewrite Ht.
  destruct (Z.leb_spec (Date_now cal - 7 * MS_PER_DAY) t); [lia|reflexivity].
Qed.


(** *** Peak hours *)

Lemma bump_Forall_key (P : Z -> Prop) h l :
  P h -> Forall (fun y => P (fst y)) l -> Forall (fun y => P (fst y)) (bump h l).
Proof.
  intros Hh. induction 1 as [|[k c] l Hk Hl IH]; cbn [bump].
  - repeat constructor. exact Hh.
  - destruct (Z.eqb_spec h k) as [->|]; [constructor; assumption|].
    destruct (Z.ltb_spec h k); repeat constructor; assumption.
Qed.

Lemma bump_ascending h l : keys_ascending l -> keys_ascending (bump h l).
Proof.
  unfold keys_ascending.
  induction 1 as [|[k c] l Hl IH Hk]; cbn [bump].
  - repeat constructor.
  - destruct (Z.eqb_spec h k) as [->|Hne]; [constructor; assumption|].
    destruct (Z.ltb_spec h k) as [Hlt|Hge].
    + constructor; [constructor; assumption|].
      constructor; [exact Hlt|].
      eapply List.Forall_impl; [|exact Hk]. cbn. intros; lia.
    + constructor; [exact IH|].
      apply (bump_Forall_key (fun key => k < key)); [lia|exact Hk].
Qed.

Lemma bump_positive h l :
  Forall (fun y => 0 < snd y) l -> Forall (fun y => 0 < snd y) (bump h l).
Proof.
  induction 1 as [|[k c] l Hk Hl IH]; cbn [bump].
  - repeat constructor.
  - cbn in Hk. destruct (Z.eqb_spec h k); [constructor; [cbn; lia|assumption]|].
    destruct (Z.ltb_spec h k); repeat constructor; try assumption; cbn; lia.
Qed.

Lemma count_at_absent h l :
  Forall (fun y => h < fst y) l -> count_at h l = 0.
Proof.
  induction 1 as [|[k c] l Hk Hl IH]; [reflexivity|].
  cbn in *. destruct (Z.eqb_spec h k); [lia|exact IH].
Qed.

Lemma count_at_bump h h' l :
  keys_ascending l ->
  count_at h' (bump h l) = count_at h' l + (if h' =? h then 1 else 0).
Proof.
  unfold keys_ascending.
  induction 1 as [|[k c] l Hl IH Hk]; cbn [bump count_at].
  - destruct (h' =? h); reflexivity.
  - destruct (Z.eqb_spec h k) as [->|Hne].
    + cbn [count_at]. destruct (Z.eqb_spec h' k); lia.
    + destruct (Z.ltb_spec h k) as [Hlt|Hge]; cbn [count_at].
      * destruct (Z.eqb_spec h' h) as [->|]; [|lia].
        destruct (Z.eqb_spec h k); [lia|].
        rewrite (count_at_absent h l); [lia|].
        eapply List.Forall_impl; [|exact Hk]. cbn. intros; lia.
      * rewrite IH. destruct (Z.eqb_spec h' k), (Z.eqb_spec h' h); lia.
Qed.

Lemma occurrences_cons h x hours :
  occurrences h (x :: hours) = (if h =? x then 1 else 0) + occurrences h hours.
Proof.
  unfold occurrences. cbn [count_occ].
  destruct (Z.eq_dec x h) as [->|Hne].
  - rewrite Z.eqb_refl. lia.
  - destruct (Z.eqb_spec h x); [congruence|lia].
Qed.

Lemma hourCounts_fold hours : forall acc,
  keys_ascending acc -> Forall (fun y => 0 < snd y) acc ->
  let counts := fold_left (fun counts h => bump h counts) hours acc in
  keys_ascending counts
  /\ Forall (fun y => 0 < snd y) counts
  /\ forall h, count_at h counts = count_at h acc + occurrences h hours.
Proof.
  induction hours as [|x hours IH]; intros acc Hasc Hpos; cbn [fold_left].
  - repeat split; try assumption. intros h. unfold occurrences. cbn. lia.
  - destruct (IH (bump x acc) (bump_ascending _ _ Hasc) (bump_positive _ _ Hpos))
      as (H1 & H2 & H3).
    repeat split; try assumption.
    intros h. rewrite H3, count_at_bump by assumption.
    rewrite occurrences_cons. lia.
Qed.

Lemma In_count_at h c l : keys_ascending l -> In (h, c) l -> count_at h l = c.
Proof.
  unfold keys_ascending.
  induction 1 as [|[k c'] l Hl IH Hk]; [intros []|].
  intros [[= -> ->]|Hin]; cbn [count_at].
  - now rewrite Z.eqb_refl.
  - destruct (Z.eqb_spec h k) as [->|]; [|auto].
    rewrite List.Forall_forall in Hk. specialize (Hk _ Hin). cbn in Hk. lia.
Qed.

Lemma count_at_In h l : 0 < count_at h l -> In (h, count_at h l) l.
Proof.
  induction l as [|[k c] l IH]; cbn [count_at]; [lia|].
  destruct (Z.eqb_spec h k) as [->|]; [now left|]. intros; right; auto.
Qed.

Lemma occurrences_In h hours : In h hours -> 0 < occurrences h hours.
Proof.
  intros Hin. unfold occurrences.
  apply (count_occ_In Z.eq_dec) in Hin. lia.
Qed.

Lemma occurrences_pos_In h hours : 0 < occurrences h hours -> In h hours.
Proof.
  unfold occurrences. intros Hpos.
  apply (count_occ_In Z.eq_dec). lia.
Qed.

(** What [hourCounts] holds once the loop is over. *)
Lemma hourCounts_of_spec hours :
  keys_ascending (hourCounts_of hours)
  /\ (forall h c, In (h, c) (hourCounts_of hours) ->
        c = occurrences h hours /\ In h hours)
  /\ (forall h, In h hours -> In (h, occurrences h hours) (hourCounts_of hours)).
Proof.
  unfold hourCounts_of.
  destruct (hourCounts_fold hours [] (SSorted_nil _) (List.Forall_nil _))
    as (Hasc & Hpos & Hcount).
  cbn [count_at] in Hcount.
  split; [exact Hasc|]. split.
  - intros h c Hin.
    pose proof (In_count_at _ _ _ Hasc Hin) as Hc.
    rewrite Hcount in Hc.
    rewrite List.Forall_forall in Hpos. specialize (Hpos _ Hin). cbn in Hpos.
    split; [lia|]. apply occurrences_pos_In. lia.
  - intros h Hin. apply occurrences_In in Hin.
    specialize (Hcount h). cbn in Hcount.
    replace (occurrences h hours) with
      (count_at h (fold_left (fun counts h0 => bump h0 counts) hours [])) by lia.
    apply count_at_In. lia.
Qed.

Lemma insert_by_count_perm x l : Permutation (x :: l) (insert_by_count x l).
Proof.
  induction l as [|y l IH]; cbn [insert_by_count]; [reflexivity|].
  destruct (snd y <=? snd x); [reflexivity|].
  rewrite perm_swap. now apply perm_skip.
Qed.

Lemma sort_by_count_perm l : Permutation l (sort_by_count l).
Proof.
  induction l as [|x l IH]; cbn; [reflexivity|].
  rewrite <- insert_by_count_perm. now apply perm_skip.
Qed.

Lemma insert_by_count_sorted x l :
  StronglySorted rank l -> Forall (fun y => fst x < fst y) l ->
  StronglySorted rank (insert_by_count x l).
Proof.
  induction 1 as [|y l Hl IH Hy]; intros Hx; cbn [insert_by_count].
  - repeat constructor.
  - inversion Hx as [|? ? Hxy Hxl]; subst.
    destruct (Z.leb_spec (snd y) (snd x)) as [Hle|Hgt].
    + constructor; [constructor; assumption|].
      constructor; [unfold rank; lia|].
      rewrite List.Forall_forall in Hy, Hxl |- *.
      intros z Hz. specialize (Hy z Hz). specialize (Hxl z Hz).
      unfold rank in *. lia.
    + constructor; [apply IH; assumption|].
      apply (Permutation_Forall (insert_by_count_perm x l)).
      constructor; [unfold rank; lia|assumption].
Qed.

Lemma sort_by_count_sorted l :
  keys_ascending l -> StronglySorted rank (sort_by_count l).
Proof.
  unfold keys_ascending.
  induction 1 as [|x l Hl IH Hx]; cbn; [constructor|].
  apply insert_by_count_sorted; [exact IH|].
  apply (Permutation_Forall (sort_by_count_perm l)). exact Hx.
Qed.

Lemma StronglySorted_app {A} (R : A -> A -> Prop) l1 l2 :
  StronglySorted R (l1 ++ l2) ->
  StronglySorted R l1 /\ forall a b, In a l1 -> In b l2 -> R a b.
Proof.
  induction l1 as [|x l1 IH]; cbn; intros Hs.
  - split; [constructor|intros a b []].
  - inversion Hs as [|? ? Hs' Hx]; subst.
    destruct (IH Hs') as [H1 H2].
    rewrite List.Forall_forall in Hx.
    split.
    + constructor; [exact H1|].
      rewrite List.Forall_forall. intros y Hy. apply Hx, in_or_app. now left.
    + intros a b [<-|Ha] Hb; [apply Hx, in_or_app; now right|now apply H2].
Qed.

Lemma firstn_sorted {A} (R : A -> A -> Prop) n l :
  StronglySorted R l ->
  StronglySorted R (firstn n l)
  /\ forall b, In b l -> In b (firstn n l)
       \/ (length (firstn n l) = n /\ forall a, In a (firstn n l) -> R a b).
Proof.
  intros Hs. rewrite <- (firstn_skipn n l) in Hs at 1.
  destruct (StronglySorted_app _ _ _ Hs) as [H1 H2].
  split; [exact H1|].
  intros b Hb. rewrite <- (firstn_skipn n l) in Hb at 1.
  apply in_app_or in Hb as [Hb|Hb]; [now left|right].
  split; [|intros a Ha; now apply H2].
  apply firstn_length_le.
  destruct (Nat.le_gt_cases n (length l)) as [Hle|Hgt]; [exact Hle|].
  rewrite skipn_all2 in Hb by lia. destruct Hb.
Qed.

Lemma StronglySorted_map_fst (R' : Z -> Z -> Prop) l :
  StronglySorted rank l ->
  (forall x y, In x l -> In y l -> rank x y -> R' (fst x) (fst y)) ->
  StronglySorted R' (map fst l).
Proof.
  induction 1 as [|x l Hl IH Hx]; intros Himp; cbn; [constructor|].
  constructor.
  - apply IH. intros a b Ha Hb. apply Himp; now right.
  - rewrite List.Forall_forall in Hx |- *. intros h Hh.
    apply in_map_iff in Hh as (y & <- & Hy).
    apply Himp; [now left|now right|now apply Hx].
Qed.

(** The peak hours of a list of hours: at most three, each an hour that
    occurs, listed by descending count and, among equal counts, by
    ascending hour; an hour left out is outranked by three listed ones. *)
Lemma peakTimes_of_spec hours :
  let peak := peakTimes_of hours in
  (length peak <= 3)%nat
  /\ (forall p, In p peak -> In p hours)
  /\ StronglySorted (ranks_before hours) peak
  /\ (forall h, In h hours -> ~ In h peak ->
        length peak = 3%nat /\ forall p, In p peak -> ranks_before hours p h).
Proof.
  intros peak. subst peak. unfold peakTimes_of.
  destruct (hourCounts_of_spec hours) as (Hasc & Hin & Hall).
  set (counts := hourCounts_of hours) in *.
  pose proof (sort_by_count_sorted counts Hasc) as Hsorted.
  pose proof (sort_by_count_perm counts) as Hperm.
  destruct (firstn_sorted rank 3 _ Hsorted) as [Hpre Hrest].
  set (top := firstn 3 (sort_by_count counts)) in *.
  assert (Htop : forall x, In x top -> In x counts).
  { intros x Hx. apply (Permutation_in _ (Permutation_sym Hperm)).
    rewrite <- (firstn_skipn 3 (sort_by_count counts)).
    apply in_or_app. now left. }
  assert (Hrank : forall x y, In x counts -> In y counts -> rank x y ->
                    ranks_before hours (fst x) (fst y)).
  { intros [h1 c1] [h2 c2] H1 H2 Hr.
    destruct (Hin _ _ H1) as [-> _]. destruct (Hin _ _ H2) as [-> _].
    exact Hr. }
  split; [|split; [|split]].
  - rewrite length_map. apply firstn_le_length.
  - intros p Hp. apply in_map_iff in Hp as ([h c] & <- & Hx).
    exact (proj2 (Hin _ _ (Htop _ Hx))).
  - apply StronglySorted_map_fst; [exact Hpre|].
    intros x y Hx Hy. apply Hrank; auto.
  - intros h Hh Hnot.
    pose proof (Hall h Hh) as Hc.
    apply (Permutation_in _ Hperm) in Hc.
    destruct (Hrest _ Hc) as [Hc'|[Hlen Hout]].
    + exfalso. apply Hnot. apply in_map_iff. now exists (h, occurrences h hours).
    + split; [now rewrite length_map|].
      intros p Hp. apply in_map_iff in Hp as (x & <- & Hx).
      apply (Hrank x (h, occurrences h hours)); auto.
Qed.

Lemma getHours_range cal t : 0 <= getHours cal t < 24.
Proof. unfold getHours. apply Z.mod_pos_bound. lia. Qed.

Lemma high_hours_range cal last7Days h :
  In h (high_hours cal last7Days) -> 0 <= h < 24.
Proof.
  unfold high_hours. rewrite in_flat_map. intros (r & _ & Hh).
  destruct (Date_parse cal (field "timestamp" r)); [|destruct Hh].
  destruct Hh as [<-|[]]. apply getHours_range.
Qed.

Lemma filter_last7Days_nonempty (last7Days : list jsval) :
  last7Days <> [] -> Nat.eqb (length last7Days) 0 = false.
Proof. destruct last7Days; [congruence|reflexivity]. Qed.





(** ** Pixel heuristic: statements *)

Section ExactPercentages.
Local Open Scope Q_scope.

Lemma exact_max_lower (x y : Q) : x <= Exact.max x y.
Proof.
  unfold Exact.max, Exact.ltb.
  destruct (Qcompare_spec x y) as [E|L|G]; try apply Qle_refl.
  now apply Qlt_le_weak.
Qed.

Lemma exact_to_Z_inject (z : Z) : Exact.to_Z (inject_Z z) = Some z.
Proof.
  unfold Exact.to_Z. rewrite Qfloor_Z.
  now rewrite (proj2 (Qeq_bool_iff _ _) (Qeq_refl _)).
Qed.

Lemma round_bounds (x : Q) :
  x - (1 # 2) < inject_Z (Qfloor (x + (1 # 2)))
  /\ inject_Z (Qfloor (x + (1 # 2))) <= x + (1 # 2).
Proof.
  split; [|apply Qfloor_le].
  pose proof (Qlt_floor (x + (1 # 2))) as H.
  rewrite inject_Z_plus in H. change (inject_Z 1) with 1 in H. lra.
Qed.

(** Seven shares of a positive total, each rounded to the nearest
    integer percentage, add up to 100 within 3. *)
Lemma seven_rounded_shares (p1 p2 p3 p4 p5 p6 p7 : Q) :
  0 < p1 -> 0 < p2 -> 0 < p3 -> 0 < p4 -> 0 < p5 -> 0 < p6 -> 0 < p7 ->
  let total := 0 + p1 + p2 + p3 + p4 + p5 + p6 + p7 in
  let pct p := Qfloor (p / total * 100 + (1 # 2)) in
  (97 <= pct p1 + (pct p2 + (pct p3 + (pct p4 + (pct p5 + (pct p6 + (pct p7 + 0))))))
      <= 103)%Z.
Proof.
  intros H1 H2 H3 H4 H5 H6 H7 total pct.
  assert (Ht : 0 < total) by (unfold total; lra).
  assert (Hsum : p1 / total + p2 / total + p3 / total + p4 / total
                 + p5 / total + p6 / total + p7 / total == 1).
  { unfold total. field. unfold total in Ht. lra. }
  unfold pct.
  generalize dependent (p1 / total). intros y1.
  generalize dependent (p2 / total). intros y2.
  generalize dependent (p3 / total). intros y3.
  generalize dependent (p4 / total). intros y4.
  generalize dependent (p5 / total). intros y5.
  generalize dependent (p6 / total). intros y6.
  generalize dependent (p7 / total). intros y7 Hsum.
  destruct (round_bounds (y1 * 100)) as [L1 U1].
  destruct (round_bounds (y2 * 100)) as [L2 U2].
  destruct (round_bounds (y3 * 100)) as [L3 U3].
  destruct (round_bounds (y4 * 100)) as [L4 U4].
  destruct (round_bounds (y5 * 100)) as [L5 U5].
  destruct (round_bounds (y6 * 100)) as [L6 U6].
  destruct (round_bounds (y7 * 100)) as [L7 U7].
  set (z1 := Qfloor (y1 * 100 + (1 # 2))) in *.
  set (z2 := Qfloor (y2 * 100 + (1 # 2))) in *.
  set (z3 := Qfloor (y3 * 100 + (1 # 2))) in *.
  set (z4 := Qfloor (y4 * 100 + (1 # 2))) in *.
  set (z5 := Qfloor (y5 * 100 + (1 # 2))) in *.
  set (z6 := Qfloor (y6 * 100 + (1 # 2))) in *.
  set (z7 := Qfloor (y7 * 100 + (1 # 2))) in *.
  assert (Hq : inject_Z 96 < inject_Z (z1 + (z2 + (z3 + (z4 + (z5 + (z6 + (z7 + 0)))))))
               /\ inject_Z (z1 + (z2 + (z3 + (z4 + (z5 + (z6 + (z7 + 0)))))))
                  < inject_Z 104).
  { rewrite !inject_Z_plus.
    change (inject_Z 0) with 0. change (inject_Z 96) with 96.
    change (inject_Z 104) with 104. split; lra. }
  destruct Hq as [Hlo Hhi].
  rewrite <- Zlt_Qlt in Hlo, Hhi. lia.
Qed.

End ExactPercentages.

Lemma percent_sum_seven_exact (e1 e2 e3 e4 e5 e6 e7 : string)
    (a1 a2 a3 a4 a5 a6 a7 : Q) (random : nat -> Q) :
  let '(jittered, total) :=
    jitter (num := Q)
      [ (e1, a1); (e2, a2); (e3, a3); (e4, a4); (e5, a5); (e6, a6); (e7, a7) ]
      random 0 (num_of_Z 0) in
  exists s,
    percent_sum
      (map (fun '(emotion, p) =>
              (emotion, Math_round (num_mul (num_div p total) (num_of_Z 100))))
           jittered) = Some s
    /\ 97 <= s <= 103.
Proof.
  cbn [jitter map percent_sum fold_right num_add num_sub num_mul num_div num_lit
       num_of_Z Math_max Math_round num_to_Z exact].
  unfold Exact.round. rewrite !exact_to_Z_inject.
  eexists. split; [reflexivity|].
  apply (seven_rounded_shares
           (Exact.max (Exact.lit 1 100) _) (Exact.max (Exact.lit 1 100) _)
           (Exact.max (Exact.lit 1 100) _) (Exact.max (Exact.lit 1 100) _)
           (Exact.max (Exact.lit 1 100) _) (Exact.max (Exact.lit 1 100) _)
           (Exact.max (Exact.lit 1 100) _));
    (eapply Qlt_le_trans; [|apply exact_max_lower]; reflexivity).
Qed.

Lemma jitter_length {num : Type} `{JsNumber num} (scores : list (string * num))
    (random : nat -> num) : forall i total,
  length (fst (jitter scores random i total)) = length scores.
Proof.
  induction scores as [|[emotion prob] rest IH]; intros i total; [reflexivity|].
  cbn [jitter].
  specialize (IH (S i)
    (num_add total
       (Math_max (num_lit 1 100)
          (num_add prob
             (num_mul (num_sub (random i) (num_lit 5 10)) (num_lit 1 10)))))).
  destruct (jitter rest random (S i) _) as [table total']. cbn in *. now rewrite IH.
Qed.



(** *** Confidence *)

Lemma round_in_range (s : bool) (m : positive) (e : Z) (lo hi : Z) :
  let q := (inject_Z (cond_Zopp s (Zpos m)) * Qpower 2 e)%Q in
  0 < lo ->
  (inject_Z lo <= q)%Q -> (q <= inject_Z hi)%Q ->
  exists z, lo <= z <= hi /\ B64.round (S754_finite s m e) = B64.of_Z z.
Proof.
  intros q Hpos Hlo Hhi.
  exists (Qfloor (q + (1 # 2))).
  assert (Hz : lo <= Qfloor (q + (1 # 2)) <= hi).
  { split.
    - rewrite <- (Qfloor_Z lo). apply Qfloor_resp_le. lra.
    - assert (H : (inject_Z (Qfloor (q + (1 # 2))) < inject_Z (hi + 1))%Q).
      { eapply Qle_lt_trans; [apply Qfloor_le|].
        rewrite inject_Z_plus. change (inject_Z 1) with 1%Q. lra. }
      rewrite <- Zlt_Qlt in H. lia. }
  split; [exact Hz|].
  unfold B64.round, B64.to_integer. cbn [B64.value]. fold q.
  destruct (Qfloor (q + (1 # 2))); [lia|reflexivity|reflexivity].
Qed.

Lemma clamp_round_range (c : spec_float) :
  c <> S754_nan ->
  exists z, 70 <= z <= 95
    /\ B64.round (B64.max (B64.of_Z 70) (B64.min (B64.of_Z 95) c)) = B64.of_Z z.
Proof.
  intros Hnan.
  destruct c as [s|s| |s m e]; [| | congruence |].
  - exists 70. split; [lia|]. destruct s; vm_compute; reflexivity.
  - destruct s; [exists 70|exists 95]; (split; [lia|vm_compute; reflexivity]).
  - pose proof (round_in_range s m e 70 95) as Hround. cbv zeta in Hround.
    assert (Hc : B64.value (S754_finite s m e)
                 = Some (B64.Real (inject_Z (cond_Zopp s (Zpos m)) * Qpower 2 e)%Q))
      by reflexivity.
    generalize dependent (inject_Z (cond_Zopp s (Zpos m)) * Qpower 2 e)%Q.
    intros q Hround Hc.
    generalize dependent (S754_finite s m e). intros c _ Hround Hc.
    assert (H95 : exists a, B64.value (B64.of_Z 95) = Some (B64.Real a) /\ (a == 95)%Q)
      by (eexists; split; [vm_compute; reflexivity|reflexivity]).
    assert (H70 : exists a, B64.value (B64.of_Z 70) = Some (B64.Real a) /\ (a == 70)%Q)
      by (eexists; split; [vm_compute; reflexivity|reflexivity]).
    destruct H95 as (a95 & V95 & E95). destruct H70 as (a70 & V70 & E70).
    assert (Hupper : exists z, 70 <= z <= 95 /\
              B64.round (B64.max (B64.of_Z 70) (B64.of_Z 95)) = B64.of_Z z)
      by (exists 95; split; [lia|vm_compute; reflexivity]).
    assert (Hlower : exists z, 70 <= z <= 95 /\ B64.round (B64.of_Z 70) = B64.of_Z z)
      by (exists 70; split; [lia|vm_compute; reflexivity]).
    assert (Hmid : (q <= 95)%Q -> exists z, 70 <= z <= 95 /\
              B64.round (B64.max (B64.of_Z 70) c) = B64.of_Z z).
    { intros Hle. unfold B64.max, B64.compare. rewrite V70, Hc.
      cbn [B64.ext_compare].
      destruct (Qcompare_spec a70 q) as [E|L|G].
      - replace (B64.is_neg_zero (B64.of_Z 70)) with false by reflexivity.
        exact Hlower.
      - apply Hround; [lia| |exact Hle].
        change (inject_Z 70) with 70%Q. lra.
      - exact Hlower. }
    unfold B64.min, B64.compare. rewrite V95, Hc. cbn [B64.ext_compare].
    destruct (Qcompare_spec a95 q) as [E|L|G].
    + replace (B64.is_neg_zero (B64.of_Z 95)) with false by reflexivity.
      apply Hmid. lra.
    + exact Hupper.
    + apply Hmid. lra.
Qed.

Lemma exact_min_Qmin (x y : Q) : (Exact.min x y == Qmin x y)%Q.
Proof.
  unfold Exact.min, Exact.ltb.
  destruct (Qcompare_spec y x) as [E|L|G].
  - rewrite Q.min_l; [reflexivity|]. rewrite E. apply Qle_refl.
  - rewrite Q.min_r; [reflexivity|]. now apply Qlt_le_weak.
  - rewrite Q.min_l; [reflexivity|]. now apply Qlt_le_weak.
Qed.

Lemma exact_max_Qmax (x y : Q) : (Exact.max x y == Qmax x y)%Q.
Proof.
  unfold Exact.max, Exact.ltb.
  destruct (Qcompare_spec x y) as [E|L|G].
  - rewrite Q.max_l; [reflexivity|]. rewrite E. apply Qle_refl.
  - rewrite Q.max_r; [reflexivity|]. now apply Qlt_le_weak.
  - rewrite Q.max_l; [reflexivity|]. now apply Qlt_le_weak.
Qed.

Lemma Qfloor_range (x : Q) (lo hi : Z) :
  (inject_Z lo <= x)%Q -> (x <= inject_Z hi + (1 # 2))%Q -> lo <= Qfloor x <= hi.
Proof.
  intros Hlo Hhi. split.
  - rewrite <- (Qfloor_Z lo). now apply Qfloor_resp_le.
  - assert (H : (inject_Z (Qfloor x) < inject_Z (hi + 1))%Q).
    { eapply Qle_lt_trans; [apply Qfloor_le|].
      rewrite inject_Z_plus. change (inject_Z 1) with 1%Q. lra. }
    rewrite <- Zlt_Qlt in H. lia.
Qed.




(** ** Orchestrator: statements *)

Section Rules.
Context {A B : Type} (st : storage).

Lemma returns_keeps (m : M A) Q : returns st m Q -> keeps st m Q.
Proof.
  intros Hm w Hw. destruct (Hm w Hw) as (a & w' & E & Hs & Ha).
  exists (Ok a), w'. auto.
Qed.

Lemma returns_ret (a : A) (Q : A -> Prop) : Q a -> returns st (ret a) Q.
Proof. intros Ha w Hw. exists a, w. auto. Qed.

Lemma keeps_throw e (Q : A -> Prop) : keeps st (throw e) Q.
Proof. intros w Hw. exists (Throw e), w. auto. Qed.

Lemma keeps_lift (o : outcome A) (Q : A -> Prop) :
  match o with Ok a => Q a | Throw _ => True end -> keeps st (lift o) Q.
Proof. intros Ho w Hw. exists o, w. auto. Qed.

Lemma returns_lift (a : A) (Q : A -> Prop) : Q a -> returns st (lift (Ok a)) Q.
Proof. intros Ha w Hw. exists a, w. auto. Qed.

Lemma returns_bind (m : M A) (k : A -> M B) P Q :
  returns st m P -> (forall a, P a -> returns st (k a) Q) ->
  returns st (bind m k) Q.
Proof.
  intros Hm Hk w Hw. destruct (Hm w Hw) as (a & w1 & E & Hs & Ha).
  destruct (Hk a Ha w1 Hs) as (b & w2 & E2 & Hs2 & Hb).
  exists b, w2. unfold bind. rewrite E. auto.
Qed.

Lemma keeps_bind (m : M A) (k : A -> M B) P Q :
  keeps st m P -> (forall a, P a -> keeps st (k a) Q) ->
  keeps st (bind m k) Q.
Proof.
  intros Hm Hk w Hw. destruct (Hm w Hw) as (o & w1 & E & Hs & Ho).
  unfold bind. rewrite E. destruct o as [a|e].
  - exact (Hk a Ho w1 Hs).
  - exists (Throw e), w1. auto.
Qed.

Lemma returns_try_catch (m : M A) (handler : error -> M A) Q :
  keeps st m Q -> (forall e, returns st (handler e) Q) ->
  returns st (try_catch m handler) Q.
Proof.
  intros Hm Hh w Hw. destruct (Hm w Hw) as (o & w1 & E & Hs & Ho).
  unfold try_catch. rewrite E. destruct o as [a|e].
  - exists a, w1. auto.
  - exact (Hh e w1 Hs).
Qed.

Lemma returns_weaken (m : M A) (P Q : A -> Prop) :
  returns st m P -> (forall a, P a -> Q a) -> returns st m Q.
Proof.
  intros Hm HPQ w Hw. destruct (Hm w Hw) as (a & w' & E & Hs & Ha).
  exists a, w'. auto.
Qed.

Lemma keeps_weaken (m : M A) (P Q : A -> Prop) :
  keeps st m P -> (forall a, P a -> Q a) -> keeps st m Q.
Proof.
  intros Hm HPQ w Hw. destruct (Hm w Hw) as (o & w' & E & Hs & Ho).
  exists o, w'. destruct o; auto.
Qed.

Lemma returns_read (f : World -> A) : returns st (read f) (fun _ => True).
Proof. intros w Hw. exists (f w), w. auto. Qed.

End Rules.

Lemma returns_update (st : storage) (f : World -> World) :
  (forall w, localStorage (f w) = localStorage w) ->
  returns st (update f) (fun _ => True).
Proof. intros Hf w Hw. exists tt, (f w). rewrite Hf. auto. Qed.

Lemma returns_stored (st : storage) key fallback :
  returns st (stored key fallback)
    (fun v => v = match st !! key with Some x => x | None => fallback end).
Proof. intros w Hw. exists (match st !! key with Some x => x | None => fallback end), w.
  unfold stored, read. rewrite Hw. auto. Qed.

Lemma returns_try_mirrors st mirrors : returns st (try_mirrors mirrors) (fun _ => True).
Proof.
  induction mirrors as [|[] rest IH]; cbn [try_mirrors].
  - now apply returns_ret.
  - eapply returns_bind; [apply returns_update; reflexivity|].
    intros _ _. now apply returns_ret.
  - exact IH.
Qed.

Lemma returns_loadFaceApiModels st env :
  returns st (loadFaceApiModels env) (fun _ => True).
Proof.
  unfold loadFaceApiModels.
  eapply returns_bind; [apply returns_read|]. intros loaded _.
  destruct loaded; [now apply returns_ret|].
  destruct (negb (faceapi_defined env)); [now apply returns_ret|].
  eapply returns_bind; [apply returns_try_mirrors|]. intros [] _.
  - now apply returns_ret.
  - eapply returns_bind; [apply returns_update; reflexivity|].
    intros _ _. now apply returns_ret.
Qed.

Lemma returns_checkBackendHealth st env :
  returns st (checkBackendHealth env) (fun _ => True).
Proof.
  assert (Herr : returns st
    (update (set_backendAvailable (Some false)) ;;;
     _ <- loadFaceApiModels env ;; ret false) (fun _ => True)).
  { eapply returns_bind; [apply returns_update; reflexivity|]. intros _ _.
    eapply returns_bind; [apply returns_loadFaceApiModels|]. intros _ _.
    now apply returns_ret. }
  unfold checkBackendHealth.
  destruct (health_reply env) as [e|status b]; [exact Herr|].
  destruct (ok status); [|now apply returns_ret].
  destruct b as [data|]; [|exact Herr].
  destruct (member "status" data); [|exact Herr].
  eapply returns_bind; [apply returns_update; reflexivity|]. intros _ _.
  now apply returns_ret.
Qed.

(** *** Relief urgency of the client-side results *)

Lemma relief_table_ok :
  forallb (fun em =>
    forallb (fun sl =>
      forallb (fun e =>
        forallb (fun b =>
          forallb (fun f => relief_ok sl (VStr em) e b f) levels_or_undefined)
          levels_or_undefined) levels_or_undefined) stress_or_undefined)
    [ "Angry"; "Happy" ]
  = true.
Proof. vm_compute. reflexivity. Qed.

Lemma relief_ok_emotion (sl e b f : jsval) (em : string) :
  relief_ok sl (VStr em) e b f
  = relief_ok sl (VStr (if mem em highStressEmotions then "Angry" else "Happy")) e b f.
Proof.
  unfold relief_ok, reliefUrgency_value, calculateReliefUrgency, includes.
  destruct (mem em highStressEmotions); reflexivity.
Qed.

Lemma relief_value_range (sl e b f : jsval) (em : string) :
  In sl stress_or_undefined -> In e levels_or_undefined ->
  In b levels_or_undefined -> In f levels_or_undefined ->
  exists z, 1 <= z <= 10 /\ reliefUrgency_value sl (VStr em) e b f = VNum (num_of_Z z).
Proof.
  intros Hs He Hb Hf.
  assert (Hok : relief_ok sl (VStr em) e b f = true).
  { rewrite relief_ok_emotion.
    pose proof relief_table_ok as T. rewrite forallb_forall in T.
    assert (Hem : In (if mem em highStressEmotions then "Angry" else "Happy")
                     ["Angry"; "Happy"])
      by (destruct (mem em highStressEmotions); simpl; tauto).
    specialize (T _ Hem).
    rewrite forallb_forall in T. specialize (T _ Hs).
    rewrite forallb_forall in T. specialize (T _ He).
    rewrite forallb_forall in T. specialize (T _ Hb).
    rewrite forallb_forall in T. exact (T _ Hf). }
  unfold relief_ok in Hok.
  destruct (reliefUrgency_value sl (VStr em) e b f); try discriminate.
  destruct (num_to_Z n) as [z|]; [|discriminate].
  apply andb_prop in Hok as [Hok Heq]. apply andb_prop in Hok as [H1 H2].
  apply sf_eqb_eq in Heq. exists z. split; [lia|now subst].
Qed.

Lemma feature_level_cases (i : number) : In (feature_level i) levels_or_undefined.
Proof.
  unfold feature_level, levels_or_undefined.
  destruct (num_to_Z i) as [z|]; [|now left].
  destruct ((0 <=? z) && (z <? 5)); [|now left].
  destruct (Z.to_nat z) as [|[|[|[|[|n]]]]]; cbn; auto 10.
  destruct n; cbn; auto.
Qed.

Lemma EMOTIONS_factor (emotion : string) (w : number) (factor : string) :
  assoc emotion EMOTIONS = Some (w, factor) -> In factor STRESS_LEVELS.
Proof.
  intros E. apply assoc_In in E.
  apply (in_map (fun entry => snd (snd entry))) in E.
  unfold EMOTIONS in E. cbn [map snd In] in E.
  unfold STRESS_LEVELS. cbn [In]. intuition auto.
Qed.

Lemma calculateStressLevel_cases (emotion : string) :
  In (calculateStressLevel emotion) stress_or_undefined.
Proof.
  unfold calculateStressLevel, get.
  destruct (assoc emotion EMOTIONS) as [[w factor]|] eqn:E.
  - apply EMOTIONS_factor in E. cbn [In map]. right.
    apply in_map_iff. eauto.
  - destruct (mem emotion OBJECT_PROTOTYPE_KEYS); cbn; auto.
Qed.

Lemma stressFactor_or_Medium_cases (emotion : string) :
  In (stressFactor_or_Medium emotion) STRESS_LEVELS.
Proof.
  unfold stressFactor_or_Medium, get.
  destruct (assoc emotion EMOTIONS) as [[w factor]|] eqn:E.
  - apply EMOTIONS_factor in E.
    unfold STRESS_LEVELS in E. cbn [In] in E.
    destruct E as [<-|[<-|[<-|[]]]]; cbn; auto.
  - destruct (mem emotion OBJECT_PROTOTYPE_KEYS); cbn; auto.
Qed.

(** *** The analyzers on well-formed storage *)

Lemma filter_last7Days_total cal results :
  Forall is_object results -> exists kept, filter_last7Days cal results = Ok kept.
Proof.
  induction 1 as [|r results Hr _ [kept IH]]; [now exists []|].
  cbn [filter_last7Days]. rewrite IH.
  destruct r; try contradiction. unfold in_last7Days.
  destruct (Date_parse cal _); eexists; reflexivity.
Qed.

Lemma analyzeStressTrends_total cal st :
  well_formed st ->
  exists trends, analyzeStressTrends cal st = Ok trends /\ is_object trends.
Proof.
  intros [_ Hres]. unfold analyzeStressTrends.
  destruct (st !! "stressResults") as [v|].
  - destruct v; try contradiction.
    destruct (filter_last7Days_total cal _ Hres) as [kept ->].
    destruct (Nat.eqb (length kept) 0); eexists; split; try reflexivity; exact I.
  - cbn. eexists; split; [reflexivity|exact I].
Qed.

Lemma returns_trends st env :
  well_formed st ->
  returns st (fun w => (analyzeStressTrends (calendar env) (localStorage w), w))
    is_object.
Proof.
  intros Hwf w Hw. rewrite Hw.
  destruct (analyzeStressTrends_total (calendar env) st Hwf) as (t & -> & Ht).
  exists t, w. auto.
Qed.

Lemma returns_Math_random st env : returns st (Math_random env) (fun _ => True).
Proof. intros w Hw. eexists _, _. split; [reflexivity|]. auto. Qed.

Lemma returns_random_index st env base n :
  returns st (random_index env base n) (fun _ => True).
Proof.
  unfold random_index. eapply returns_bind; [apply returns_Math_random|].
  intros r _. now apply returns_ret.
Qed.

Lemma returns_calculateFacialFeatures st env stressLevel features :
  returns st (calculateFacialFeatures env stressLevel features)
    (fun '(e, b, f) =>
       In e levels_or_undefined /\ In b levels_or_undefined
       /\ In f levels_or_undefined).
Proof.
  unfold calculateFacialFeatures.
  eapply returns_bind with (P := fun _ => True).
  - destruct (is_string "High" stressLevel);
      [|destruct (is_string "Medium" stressLevel)];
      (eapply returns_bind; [apply returns_random_index|]; intros e _;
       eapply returns_bind; [apply returns_random_index|]; intros b _;
       eapply returns_bind; [apply returns_random_index|]; intros f _;
       now apply returns_ret).
  - intros [[e b] f] _. apply returns_ret.
    repeat split; apply feature_level_cases.
Qed.

Lemma returns_detectClientSideFallback st env :
  well_formed st ->
  returns st (detectClientSideFallback env) (enriched FALLBACK_METHOD).
Proof.
  intros Hwf. unfold detectClientSideFallback.
  eapply returns_bind; [apply returns_read|]. intros k _.
  destruct (detectEmotionClientSide _ _) as [emotion allProbabilities].
  eapply returns_bind; [apply returns_update; reflexivity|]. intros _ _.
  eapply returns_bind; [apply returns_calculateFacialFeatures|].
  intros [[e b] f] (He & Hb & Hf).
  eapply returns_bind; [apply returns_Math_random|]. intros r _.
  eapply returns_bind; [apply (returns_trends st env Hwf)|]. intros trends Ht.
  apply returns_ret.
  split; [exact I|]. split; [reflexivity|]. split; [|exact Ht].
  apply relief_value_range; auto. apply calculateStressLevel_cases.
Qed.

Lemma level_of_score_cases score : In (level_of_score score) levels_or_undefined.
Proof. apply feature_level_cases. Qed.

Lemma keeps_processDetections st env detections :
  well_formed st ->
  keeps st (processDetections env detections) (enriched FACE_API_METHOD).
Proof.
  intros Hwf. unfold processDetections.
  destruct detections as [|detection rest]; [apply keeps_throw|].
  destruct (dominant_from "Neutral" _) as [dominant0 max0].
  destruct (dominant_from dominant0 _) as [dominantEmotion maxProb].
  eapply keeps_bind; [apply returns_keeps, (returns_trends st env Hwf)|].
  intros trends Ht.
  eapply keeps_bind with (P := fun _ => True).
  { apply keeps_lift. now destruct (face_entries _ _). }
  intros allFaces _. apply returns_keeps, returns_ret.
  split; [exact I|]. split; [reflexivity|]. split; [|exact Ht].
  apply relief_value_range; try apply level_of_score_cases.
  right. apply in_map.
  pose proof (stressFactor_or_Medium_cases dominantEmotion) as Hs.
  destruct (_ && _); [cbn; auto|]. destruct (_ && _); [cbn; auto|]. exact Hs.
Qed.

Lemma returns_detectWithFaceApi st env :
  well_formed st ->
  returns st (detectWithFaceApi env)
    (fun r => r = VNull \/ enriched FACE_API_METHOD r).
Proof.
  intros Hwf. unfold detectWithFaceApi.
  apply returns_try_catch; [|intros e; apply returns_ret; now left].
  destruct (negb (face_image_loads env)); [apply keeps_throw|].
  eapply keeps_bind with (P := fun _ => True).
  { apply keeps_lift. now destruct (face_primary env). }
  intros detections _.
  destruct detections as [|d ds].
  - eapply keeps_bind with (P := fun _ => True).
    { apply keeps_lift. now destruct (face_retry env). }
    intros retry _. destruct retry as [|d ds].
    + apply returns_keeps, returns_ret. now left.
    + eapply keeps_weaken; [apply (keeps_processDetections st env _ Hwf)|].
      intros r Hr. now right.
  - eapply keeps_weaken; [apply (keeps_processDetections st env _ Hwf)|].
    intros r Hr. now right.
Qed.

Lemma enriched_truthy method r : enriched method r -> truthy r = true.
Proof. intros [Hobj _]. now destruct r. Qed.

Lemma returns_detectClientSide st env :
  well_formed st ->
  returns st (detectClientSide env)
    (fun r => enriched FACE_API_METHOD r \/ enriched FALLBACK_METHOD r).
Proof.
  intros Hwf. unfold detectClientSide.
  eapply returns_bind with
    (P := fun via => match via with
                     | Some r => enriched FACE_API_METHOD r
                     | None => True
                     end).
  - destruct (faceapi_defined env); [|now apply returns_ret].
    apply returns_try_catch; [|intros e; now apply returns_ret].
    apply returns_keeps.
    eapply returns_bind; [apply returns_read|]. intros loaded _.
    eapply returns_bind with (P := fun _ => True).
    { destruct loaded; [now apply returns_ret|apply returns_loadFaceApiModels]. }
    intros _ _.
    eapply returns_bind; [apply returns_read|]. intros loaded' _.
    destruct loaded'; [|now apply returns_ret].
    eapply returns_bind; [apply (returns_detectWithFaceApi st env Hwf)|].
    intros r [->|Hr]; apply returns_ret; [exact I|].
    now rewrite (enriched_truthy _ _ Hr).
  - intros [r|] Hr.
    + apply returns_ret. now left.
    + eapply returns_weaken; [apply (returns_detectClientSideFallback st env Hwf)|].
      intros r Hr'. now right.
Qed.

(** *** User info *)

Lemma assoc_assign_other (name k : string) (v : jsval) fields :
  k <> name -> assoc k (assign name v fields) = assoc k fields.
Proof.
  intros Hne. induction fields as [|[k' x] rest IH]; cbn [assign assoc].
  - destruct (String.eqb_spec k name); [contradiction|reflexivity].
  - destruct (String.eqb_spec k' name) as [->|Hk']; cbn [assoc].
    + destruct (String.eqb_spec k name); [contradiction|reflexivity].
    + now rewrite IH.
Qed.

Lemma field_set_other (name k : string) (v obj obj' : jsval) :
  k <> name -> set_field name v obj = Ok obj' -> field k obj' = field k obj.
Proof.
  intros Hne Hset. destruct obj; cbn in Hset; try discriminate;
    injection Hset as <-; try reflexivity.
  unfold field, get. now rewrite assoc_assign_other.
Qed.

Lemma returns_add_user_info st (r : jsval) :
  well_formed st -> is_object r ->
  returns st (add_user_info r)
    (fun r' => is_object r'
               /\ forall k, k <> "userName" -> k <> "userEmail" ->
                    field k r' = field k r).
Proof.
  intros [Huser _] Hr. unfold add_user_info.
  eapply returns_bind; [apply returns_stored|]. intros currentUser ->.
  assert (Hcu : is_object (match st !! "currentUser" with
                           | Some x => x
                           | None => VObj []
                           end)).
  { destruct (st !! "currentUser"); [exact Huser|exact I]. }
  destruct (match st !! "currentUser" with Some x => x | None => VObj [] end)
    as [| | | | | |user|]; try contradiction.
  destruct r as [| | | | | |fields|]; try contradiction.
  cbn [member set_field lift].
  intros w Hw. unfold bind, lift. eexists _, w.
  split; [reflexivity|]. split; [exact Hw|]. split; [exact I|].
  intros k Hk1 Hk2. unfold field, get.
  now rewrite !assoc_assign_other.
Qed.

(** *** Remote path *)

Lemma keeps_detectWithBackend st env :
  keeps st (detectWithBackend env) unenriched.
Proof.
  unfold detectWithBackend.
  destruct (detect_reply env) as [e|status b]; [apply keeps_throw|].
  destruct (negb (ok status)); [apply keeps_throw|].
  destruct b as [result|]; [|apply keeps_throw].
  eapply keeps_bind with (P := fun _ => True).
  { apply keeps_lift. now destruct (member "success" result). }
  intros success _.
  destruct (truthy success); [|apply keeps_throw].
  apply returns_keeps, returns_ret. repeat split.
Qed.

Lemma detectWithBackend_fails st env :
  detect_failed (detect_reply env) ->
  keeps st (detectWithBackend env) (fun _ => False).
Proof.
  unfold detectWithBackend, detect_failed.
  destruct (detect_reply env) as [e|status b]; [intros _; apply keeps_throw|].
  intros [Hok|Hbody].
  - rewrite Hok. apply keeps_throw.
  - destruct (negb (ok status)); [apply keeps_throw|].
    destruct b as [result|]; [|apply keeps_throw].
    destruct (member "success" result) as [success|e].
    + unfold lift, bind. intros w Hw. rewrite Hbody.
      eexists _, w. split; [reflexivity|]. auto.
    + unfold lift, bind. intros w Hw.
      eexists _, w. split; [reflexivity|]. auto.
Qed.

Lemma enriched_user_info method r r' :
  enriched method r -> is_object r' ->
  (forall k, k <> "userName" -> k <> "userEmail" -> field k r' = field k r) ->
  enriched method r'.
Proof.
  intros (Hobj & Hm & Hu & Ht) Hobj' Hsame.
  split; [exact Hobj'|]. rewrite !Hsame by discriminate. auto.
Qed.

Lemma unenriched_user_info r r' :
  unenriched r -> is_object r' ->
  (forall k, k <> "userName" -> k <> "userEmail" -> field k r' = field k r) ->
  unenriched r'.
Proof.
  intros (Hobj & Hm & Hu & Ht) Hobj' Hsame.
  split; [exact Hobj'|]. rewrite !Hsame by discriminate. auto.
Qed.

Lemma returns_client_with_user st env :
  well_formed st ->
  returns st (result <- detectClientSide env ;; add_user_info result)
    (fun r => enriched FACE_API_METHOD r \/ enriched FALLBACK_METHOD r).
Proof.
  intros Hwf.
  eapply returns_bind; [apply (returns_detectClientSide st env Hwf)|].
  intros r Hr.
  assert (Hobj : is_object r) by (destruct Hr as [H|H]; apply H).
  eapply returns_weaken; [apply (returns_add_user_info st r Hwf Hobj)|].
  intros r' [Hobj' Hsame].
  destruct Hr as [H|H]; [left|right]; eapply enriched_user_info; eauto.
Qed.

(** The orchestrator on a supplied image: it returns, with the storage
    untouched, a result of one of the three analyzers; when the remote call
    fails, of one of the two client-side ones. *)
Lemma returns_detectStress st env :
  well_formed st -> truthy (uploadedImage env) = true ->
  returns st (detectStress env)
    (fun r => (unenriched r /\ ~ detect_failed (detect_reply env))
              \/ enriched FACE_API_METHOD r \/ enriched FALLBACK_METHOD r).
Proof.
  intros Hwf Himg. unfold detectStress. rewrite Himg. cbn [negb].
  eapply returns_bind; [apply returns_read|]. intros flag0 _.
  eapply returns_bind with (P := fun _ => True).
  { destruct flag0; [now apply returns_ret|apply returns_checkBackendHealth]. }
  intros _ _.
  eapply returns_bind; [apply returns_read|]. intros flag _.
  eapply returns_bind with
    (P := fun via => match via with
                     | Some r => unenriched r /\ ~ detect_failed (detect_reply env)
                     | None => True
                     end).
  - destruct flag as [[|]|]; try now apply returns_ret.
    apply returns_try_catch; [|intros e; now apply returns_ret].
    eapply keeps_bind with
      (P := fun r => unenriched r /\ ~ detect_failed (detect_reply env)).
    + intros w Hw.
      destruct (keeps_detectWithBackend st env w Hw) as (o & w' & E & Hs & Ho).
      exists o, w'. split; [exact E|]. split; [exact Hs|].
      destruct o as [r|e]; [|exact I]. split; [exact Ho|].
      intros Hfail.
      destruct (detectWithBackend_fails st env Hfail w Hw) as (o2 & w2 & E2 & _ & Ho2).
      rewrite E in E2. injection E2 as <- _. exact Ho2.
    + intros r [Hr Hnf]. apply returns_keeps.
      assert (Hobj : is_object r) by apply Hr.
      eapply returns_bind; [apply (returns_add_user_info st r Hwf Hobj)|].
      intros r' [Hobj' Hsame]. apply returns_ret.
      split; [|exact Hnf]. eapply unenriched_user_info; eauto.
  - intros [r|] Hr.
    + apply returns_ret. now left.
    + eapply returns_weaken; [apply (returns_client_with_user st env Hwf)|].
      intros r Hr'. now right.
Qed.

(** *** Storage is only written by [saveResult] *)

Lemma preserves_ret {A} (a : A) : preserves (ret a).
Proof. intros w. reflexivity. Qed.

Lemma preserves_throw {A} e : preserves (throw (A := A) e).
Proof. intros w. reflexivity. Qed.

Lemma preserves_lift {A} (o : outcome A) : preserves (lift o).
Proof. intros w. reflexivity. Qed.

Lemma preserves_read {A} (f : World -> A) : preserves (read f).
Proof. intros w. reflexivity. Qed.

Lemma preserves_update (f : World -> World) :
  (forall w, localStorage (f w) = localStorage w) -> preserves (update f).
Proof. intros Hf w. apply Hf. Qed.

Lemma preserves_bind {A B} (m : M A) (k : A -> M B) :
  preserves m -> (forall a, preserves (k a)) -> preserves (bind m k).
Proof.
  intros Hm Hk w. unfold bind. specialize (Hm w).
  destruct (m w) as [[a|e] w1]; cbn in *; [|exact Hm].
  now rewrite Hk.
Qed.

Lemma preserves_try_catch {A} (m : M A) (handler : error -> M A) :
  preserves m -> (forall e, preserves (handler e)) -> preserves (try_catch m handler).
Proof.
  intros Hm Hh w. unfold try_catch. specialize (Hm w).
  destruct (m w) as [[a|e] w1]; cbn in *; [exact Hm|].
  now rewrite Hh.
Qed.

Ltac preserves_leaf :=
  first
    [ apply preserves_ret | apply preserves_throw | apply preserves_lift
    | apply preserves_read | apply preserves_update; reflexivity ].

Tactic Notation "preserves_bind" ident(x) :=
  apply preserves_bind; [|intros x].

Lemma preserves_try_mirrors mirrors : preserves (try_mirrors mirrors).
Proof.
  induction mirrors as [|[] rest IH]; cbn [try_mirrors];
    [apply preserves_ret| |exact IH].
  preserves_bind u; preserves_leaf.
Qed.

Lemma preserves_loadFaceApiModels env : preserves (loadFaceApiModels env).
Proof.
  unfold loadFaceApiModels. preserves_bind loaded; [preserves_leaf|].
  destruct loaded; [preserves_leaf|].
  destruct (negb _); [preserves_leaf|].
  preserves_bind modelsLoaded; [apply preserves_try_mirrors|].
  destruct modelsLoaded; [preserves_leaf|].
  preserves_bind u; preserves_leaf.
Qed.

Lemma preserves_checkBackendHealth env : preserves (checkBackendHealth env).
Proof.
  assert (Herr : preserves
    (update (set_backendAvailable (Some false)) ;;;
     _ <- loadFaceApiModels env ;; ret false)).
  { preserves_bind u; [preserves_leaf|].
    preserves_bind l; [apply preserves_loadFaceApiModels|preserves_leaf]. }
  unfold checkBackendHealth.
  destruct (health_reply env) as [e|status b]; [exact Herr|].
  destruct (ok status); [|preserves_leaf].
  destruct b as [data|]; [|exact Herr].
  destruct (member "status" data); [|exact Herr].
  preserves_bind u; preserves_leaf.
Qed.

Lemma preserves_trends env :
  preserves (fun w => (analyzeStressTrends (calendar env) (localStorage w), w)).
Proof. intros w. reflexivity. Qed.

Lemma preserves_detectWithBackend env : preserves (detectWithBackend env).
Proof.
  unfold detectWithBackend.
  destruct (detect_reply env) as [e|status b]; [preserves_leaf|].
  destruct (negb _); [preserves_leaf|].
  destruct b; [|preserves_leaf].
  preserves_bind success; [preserves_leaf|].
  destruct (truthy success); preserves_leaf.
Qed.

Lemma preserves_processDetections env detections :
  preserves (processDetections env detections).
Proof.
  unfold processDetections. destruct detections; [preserves_leaf|].
  destruct (dominant_from "Neutral" _) as [d0 m0].
  destruct (dominant_from d0 _) as [d1 m1].
  preserves_bind trends; [apply preserves_trends|].
  preserves_bind allFaces; preserves_leaf.
Qed.

Lemma preserves_detectWithFaceApi env : preserves (detectWithFaceApi env).
Proof.
  unfold detectWithFaceApi. apply preserves_try_catch; [|intros e; preserves_leaf].
  destruct (negb _); [preserves_leaf|].
  preserves_bind detections; [preserves_leaf|].
  destruct detections; [|apply preserves_processDetections].
  preserves_bind retry; [preserves_leaf|].
  destruct retry; [preserves_leaf|apply preserves_processDetections].
Qed.

Lemma preserves_Math_random env : preserves (Math_random env).
Proof. intros w. reflexivity. Qed.

Lemma preserves_random_index env base n : preserves (random_index env base n).
Proof.
  unfold random_index. preserves_bind r; [apply preserves_Math_random|preserves_leaf].
Qed.

Lemma preserves_calculateFacialFeatures env stressLevel features :
  preserves (calculateFacialFeatures env stressLevel features).
Proof.
  unfold calculateFacialFeatures. preserves_bind indices.
  - destruct (is_string "High" _); [|destruct (is_string "Medium" _)];
      (preserves_bind e; [apply preserves_random_index|];
       preserves_bind b; [apply preserves_random_index|];
       preserves_bind f; [apply preserves_random_index|]; preserves_leaf).
  - destruct indices as [[e b] f]. preserves_leaf.
Qed.

Lemma preserves_detectClientSideFallback env :
  preserves (detectClientSideFallback env).
Proof.
  unfold detectClientSideFallback. preserves_bind k; [preserves_leaf|].
  destruct (detectEmotionClientSide _ _) as [emotion allProbabilities].
  preserves_bind u; [preserves_leaf|].
  preserves_bind facialFeatures; [apply preserves_calculateFacialFeatures|].
  destruct facialFeatures as [[e b] f].
  preserves_bind r; [apply preserves_Math_random|].
  preserves_bind trends; [apply preserves_trends|preserves_leaf].
Qed.

Lemma preserves_detectClientSide env : preserves (detectClientSide env).
Proof.
  unfold detectClientSide. preserves_bind via.
  - destruct (faceapi_defined env); [|preserves_leaf].
    apply preserves_try_catch; [|intros e; preserves_leaf].
    preserves_bind loaded; [preserves_leaf|].
    preserves_bind l;
      [destruct loaded; [preserves_leaf|apply preserves_loadFaceApiModels]|].
    preserves_bind loaded'; [preserves_leaf|].
    destruct loaded'; [|preserves_leaf].
    preserves_bind result; [apply preserves_detectWithFaceApi|preserves_leaf].
  - destruct via; [preserves_leaf|apply preserves_detectClientSideFallback].
Qed.

Lemma preserves_add_user_info r : preserves (add_user_info r).
Proof.
  unfold add_user_info, stored.
  preserves_bind currentUser; [preserves_leaf|].
  preserves_bind name; [preserves_leaf|].
  preserves_bind r1; [preserves_leaf|].
  preserves_bind email; preserves_leaf.
Qed.

Lemma preserves_detectStress env : preserves (detectStress env).
Proof.
  unfold detectStress. destruct (negb _); [preserves_leaf|].
  preserves_bind flag0; [preserves_leaf|].
  preserves_bind probed;
    [destruct flag0; [preserves_leaf|apply preserves_checkBackendHealth]|].
  preserves_bind flag; [preserves_leaf|].
  preserves_bind via.
  - destruct flag as [[|]|]; try preserves_leaf.
    apply preserves_try_catch; [|intros e; preserves_leaf].
    preserves_bind result; [apply preserves_detectWithBackend|].
    preserves_bind result'; [apply preserves_add_user_info|preserves_leaf].
  - destruct via; [preserves_leaf|].
    preserves_bind result; [apply preserves_detectClientSide|].
    apply preserves_add_user_info.
Qed.






(** *** Backend probe: statements *)

(** The probe on a rejected request, an unreadable body or a [null]
    payload: the flag becomes [false] and the landmark models are loaded. *)
Lemma health_check_unavailable (env : Env) (w : World) :
  match health_reply env with
  | Rejected _ => True
  | Response status b =>
      ok status = true
      /\ match b with
         | Malformed | Json VNull => True
         | Json _ => False
         end
  end ->
  checkBackendHealth env w
  = (Ok false, snd (loadFaceApiModels env (set_backendAvailable (Some false) w))).
Proof.
  assert (Herr : forall w,
    (update (set_backendAvailable (Some false)) ;;;
     _ <- loadFaceApiModels env ;; ret false) w
    = (Ok false, snd (loadFaceApiModels env (set_backendAvailable (Some false) w)))).
  { intros w0. unfold bind, update.
    destruct (returns_loadFaceApiModels _ env (set_backendAvailable (Some false) w0)
                eq_refl) as (a & w' & -> & _). reflexivity. }
  unfold checkBackendHealth.
  destruct (health_reply env) as [e|status b]; [intros _; apply Herr|].
  intros [-> Hb]. destruct b as [data|]; [|apply Herr].
  destruct data; try contradiction. apply Herr.
Qed.

(** The probe on a 2xx reply whose payload reports [healthy]: the flag
    becomes [true]. *)
Lemma health_check_healthy (env : Env) (w : World) status fields :
  health_reply env = Response status (Json (VObj fields)) ->
  ok status = true ->
  field "status" (VObj fields) = VStr "healthy" ->
  checkBackendHealth env w = (Ok true, set_backendAvailable (Some true) w).
Proof.
  intros Hreply Hok Hstatus. unfold checkBackendHealth.
  rewrite Hreply, Hok. cbn [member]. rewrite Hstatus. reflexivity.
Qed.

(** C5, at the failing input: the health endpoint answers HTTP 500.  The
    probe returns [false] and leaves the world as it was: the flag is still
    [null], not [false], and the models are not loaded, although a rejected
    request in the same environment sets the flag and loads them. *)
Lemma health_check_http_500_sets_nothing :
  checkBackendHealth (example_env http_500 http_500) fresh = (Ok false, fresh)
  /\ backendAvailable fresh = None
  /\ faceApiModelsLoaded fresh = false
  /\ checkBackendHealth (example_env (Rejected NetworkError) http_500) fresh
     = (Ok false,
        set_faceApiModelsLoaded true (set_backendAvailable (Some false) fresh)).
Proof. repeat split. Qed.

(** *** History: statements *)

Lemma to_json_array (items : list jsval) :
  Forall json_data items -> to_json (VArr items) = Some (VArr items).
Proof.
  intros Hall. cbn [to_json]. do 2 f_equal.
  induction Hall as [|x items Hx _ IH]; [reflexivity|].
  cbn [map]. unfold json_data in Hx. rewrite Hx, IH. reflexivity.
Qed.



(** Well-formedness is an invariant: it holds of the empty storage, saving
    an object keeps it, and nothing else writes the storage. *)
Lemma well_formed_fresh : well_formed (localStorage fresh).
Proof. split; exact I. Qed.

Lemma to_json_object (v : jsval) :
  is_object v ->
  is_object (match to_json v with Some j => j | None => VNull end).
Proof. destruct v; try contradiction. intros _. exact I. Qed.

Lemma saveResult_well_formed (w : World) (r : jsval) :
  well_formed (localStorage w) -> is_object r ->
  exists w', saveResult r w = (Ok tt, w') /\ well_formed (localStorage w').
Proof.
  intros [Huser Hres] Hr.
  assert (Hh : exists h, stored "stressResults" (VArr []) w = (Ok (VArr h), w)
                         /\ Forall is_object h).
  { unfold stored, read. destruct (localStorage w !! "stressResults") as [v|].
    - destruct v; try contradiction. eauto.
    - exists []. split; [reflexivity|constructor]. }
  destruct Hh as (h & Hread & Hh).
  eexists. split.
  { unfold saveResult, bind. rewrite Hread. cbn [to_json]. reflexivity. }
  cbn [localStorage set_localStorage]. split.
  - rewrite lookup_insert_ne by discriminate. exact Huser.
  - rewrite lookup_insert_eq. rewrite List.Forall_forall. intros x Hx.
    apply in_map_iff in Hx as (y & <- & Hy). apply to_json_object.
    apply in_app_or in Hy as [Hy|[<-|[]]]; [|exact Hr].
    rewrite List.Forall_forall in Hh. now apply Hh.
Qed.

(** * Further properties of the code *)

Section Invariants.
Variable P : World -> Prop.

Lemma invariant_ret {A} (a : A) : invariant P (ret a).
Proof. intros w Hw. exact Hw. Qed.

Lemma invariant_throw {A} e : invariant P (throw (A := A) e).
Proof. intros w Hw. exact Hw. Qed.

Lemma invariant_lift {A} (o : outcome A) : invariant P (lift o).
Proof. intros w Hw. exact Hw. Qed.

Lemma invariant_read {A} (f : World -> A) : invariant P (read f).
Proof. intros w Hw. exact Hw. Qed.

Lemma invariant_update (f : World -> World) :
  (forall w, P w -> P (f w)) -> invariant P (update f).
Proof. intros Hf w Hw. now apply Hf. Qed.

Lemma invariant_bind {A B} (m : M A) (k : A -> M B) :
  invariant P m -> (forall a, invariant P (k a)) -> invariant P (bind m k).
Proof.
  intros Hm Hk w Hw. unfold bind. specialize (Hm w Hw).
  destruct (m w) as [[a|e] w1]; cbn in *; [|exact Hm].
  now apply Hk.
Qed.

Lemma invariant_try_catch {A} (m : M A) (handler : error -> M A) :
  invariant P m -> (forall e, invariant P (handler e)) ->
  invariant P (try_catch m handler).
Proof.
  intros Hm Hh w Hw. unfold try_catch. specialize (Hm w Hw).
  destruct (m w) as [[a|e] w1]; cbn in *; [exact Hm|].
  now apply Hh.
Qed.

Lemma invariant_trends cal :
  invariant P (fun w => (analyzeStressTrends cal (localStorage w), w)).
Proof. intros w Hw. exact Hw. Qed.

Lemma invariant_detectWithBackend env : invariant P (detectWithBackend env).
Proof.
  unfold detectWithBackend.
  destruct (detect_reply env) as [e|status b]; [apply invariant_throw|].
  destruct (negb _); [apply invariant_throw|].
  destruct b; [|apply invariant_throw].
  apply invariant_bind; [apply invariant_lift|]. intros success.
  destruct (truthy success); [apply invariant_ret|apply invariant_throw].
Qed.

Lemma invariant_add_user_info r : invariant P (add_user_info r).
Proof.
  unfold add_user_info, stored.
  repeat (apply invariant_bind; [first [apply invariant_read|apply invariant_lift]|intro]).
  apply invariant_lift.
Qed.

Lemma invariant_processDetections env detections :
  invariant P (processDetections env detections).
Proof.
  unfold processDetections. destruct detections; [apply invariant_throw|].
  destruct (dominant_from "Neutral" _) as [d0 m0].
  destruct (dominant_from d0 _) as [d1 m1].
  apply invariant_bind; [apply invariant_trends|]. intros trends.
  apply invariant_bind; [apply invariant_lift|]. intros allFaces.
  apply invariant_ret.
Qed.

Lemma invariant_detectWithFaceApi env : invariant P (detectWithFaceApi env).
Proof.
  unfold detectWithFaceApi.
  apply invariant_try_catch; [|intros e; apply invariant_ret].
  destruct (negb _); [apply invariant_throw|].
  apply invariant_bind; [apply invariant_lift|]. intros detections.
  destruct detections; [|apply invariant_processDetections].
  apply invariant_bind; [apply invariant_lift|]. intros retry.
  destruct retry; [apply invariant_ret|apply invariant_processDetections].
Qed.

(** The steps that change the world. *)
Hypothesis P_advance : forall n w, P w -> P (advance n w).
Variable env : Env.
Hypothesis P_load : invariant P (loadFaceApiModels env).

Lemma invariant_Math_random : invariant P (Math_random env).
Proof. intros w Hw. now apply P_advance. Qed.

Lemma invariant_random_index base n : invariant P (random_index env base n).
Proof.
  unfold random_index. apply invariant_bind; [apply invariant_Math_random|].
  intros r. apply invariant_ret.
Qed.

Lemma invariant_calculateFacialFeatures stressLevel features :
  invariant P (calculateFacialFeatures env stressLevel features).
Proof.
  unfold calculateFacialFeatures. apply invariant_bind.
  - destruct (is_string "High" _); [|destruct (is_string "Medium" _)];
      repeat (apply invariant_bind; [apply invariant_random_index|intro]);
      apply invariant_ret.
  - intros [[e b] f]. apply invariant_ret.
Qed.

Lemma invariant_detectClientSideFallback :
  invariant P (detectClientSideFallback env).
Proof.
  unfold detectClientSideFallback.
  apply invariant_bind; [apply invariant_read|]. intros k.
  destruct (detectEmotionClientSide _ _) as [emotion allProbabilities].
  apply invariant_bind; [apply invariant_update, P_advance|]. intros u.
  apply invariant_bind; [apply invariant_calculateFacialFeatures|].
  intros [[e b] f].
  apply invariant_bind; [apply invariant_Math_random|]. intros r.
  apply invariant_bind; [apply invariant_trends|]. intros trends.
  apply invariant_ret.
Qed.

Lemma invariant_detectClientSide : invariant P (detectClientSide env).
Proof.
  unfold detectClientSide. apply invariant_bind.
  - destruct (faceapi_defined env); [|apply invariant_ret].
    apply invariant_try_catch; [|intros e; apply invariant_ret].
    apply invariant_bind; [apply invariant_read|]. intros loaded.
    apply invariant_bind;
      [destruct loaded; [apply invariant_ret|apply P_load]|]. intros l.
    apply invariant_bind; [apply invariant_read|]. intros loaded'.
    destruct loaded'; [|apply invariant_ret].
    apply invariant_bind; [apply invariant_detectWithFaceApi|]. intros result.
    apply invariant_ret.
  - intros [result|]; [apply invariant_ret|apply invariant_detectClientSideFallback].
Qed.

(** What [detectStress] does once the flag is read. *)
Lemma invariant_detect_with flag :
  invariant P
    (viaBackend <-
       (match flag with
        | Some true =>
            try_catch
              (result <- detectWithBackend env ;;
               result <- add_user_info result ;;
               ret (Some result))
              (fun _ => ret None)
        | _ => ret None
        end) ;;
     match viaBackend with
     | Some result => ret result
     | None => result <- detectClientSide env ;; add_user_info result
     end).
Proof.
  apply invariant_bind.
  - destruct flag as [[|]|]; try apply invariant_ret.
    apply invariant_try_catch; [|intros e; apply invariant_ret].
    apply invariant_bind; [apply invariant_detectWithBackend|]. intros result.
    apply invariant_bind; [apply invariant_add_user_info|]. intros result'.
    apply invariant_ret.
  - intros [result|]; [apply invariant_ret|].
    apply invariant_bind; [apply invariant_detectClientSide|]. intros result.
    apply invariant_add_user_info.
Qed.

End Invariants.

Lemma invariant_try_mirrors P mirrors :
  (forall w, P w -> P (set_faceApiModelsLoaded true w)) ->
  invariant P (try_mirrors mirrors).
Proof.
  intros HP. induction mirrors as [|[] rest IH]; cbn [try_mirrors];
    [apply invariant_ret| |exact IH].
  apply invariant_bind; [now apply invariant_update|]. intros u. apply invariant_ret.
Qed.

Lemma loadFaceApiModels_leaves {B} (proj : World -> B) (c : B) env :
  (forall b w, proj (set_faceApiModelsLoaded b w) = proj w) ->
  invariant (fun w => proj w = c) (loadFaceApiModels env).
Proof.
  intros Hp.
  assert (Hset : forall b w, proj w = c -> proj (set_faceApiModelsLoaded b w) = c).
  { intros b w Hw. now rewrite Hp. }
  unfold loadFaceApiModels. apply invariant_bind; [apply invariant_read|].
  intros loaded. destruct loaded; [apply invariant_ret|].
  destruct (negb _); [apply invariant_ret|].
  apply invariant_bind; [apply invariant_try_mirrors, Hset|]. intros [|].
  - apply invariant_ret.
  - apply invariant_bind; [apply invariant_update, Hset|]. intros u.
    apply invariant_ret.
Qed.

Lemma loadFaceApiModels_loaded env w :
  faceApiModelsLoaded w = true -> loadFaceApiModels env w = (Ok true, w).
Proof. intros Hw. unfold loadFaceApiModels, bind, read. now rewrite Hw. Qed.

Lemma bind_read {A B} (f : World -> A) (k : A -> M B) w :
  bind (read f) k w = k (f w) w.
Proof. reflexivity. Qed.

Lemma bind_ret {A B} (a : A) (k : A -> M B) w : bind (ret a) k w = k a w.
Proof. reflexivity. Qed.

(** X1: once the availability of the backend is resolved, [detectStress]
    never changes it.  In particular a backend marked available stays so
    after a remote call that fails: the failure is not recorded, and every
    later detection calls the backend again. *)
Theorem resolved_backend_flag_is_kept env w b :
  backendAvailable w = Some b ->
  backendAvailable (snd (detectStress env w)) = Some b.
Proof.
  intros Hw. unfold detectStress. destruct (negb _); [exact Hw|].
  rewrite bind_read, Hw, bind_ret, bind_read, Hw.
  refine (invariant_detect_with (fun w => backendAvailable w = Some b)
            _ env _ (Some b) w Hw); [auto|].
  apply loadFaceApiModels_leaves. reflexivity.
Qed.

(** The theorem on a page whose backend is marked available and answers the
    detection request with status 500. *)
Lemma resolved_backend_flag_is_kept_witness :
  backendAvailable
    (snd (detectStress (example_env healthy http_500)
            (set_backendAvailable (Some true) fresh))) = Some true.
Proof. apply resolved_backend_flag_is_kept. reflexivity. Defined.

Lemma checkBackendHealth_loaded env :
  invariant (fun w => faceApiModelsLoaded w = true) (checkBackendHealth env).
Proof.
  assert (Hload : invariant (fun w => faceApiModelsLoaded w = true)
                    (loadFaceApiModels env)).
  { intros w Hw. now rewrite loadFaceApiModels_loaded. }
  assert (Herr : invariant (fun w => faceApiModelsLoaded w = true)
    (update (set_backendAvailable (Some false)) ;;;
     _ <- loadFaceApiModels env ;; ret false)).
  { apply invariant_bind; [apply invariant_update; auto|]. intros u.
    apply invariant_bind; [exact Hload|]. intros l. apply invariant_ret. }
  unfold checkBackendHealth.
  destruct (health_reply env) as [e|status b]; [exact Herr|].
  destruct (ok status); [|apply invariant_ret].
  destruct b as [data|]; [|exact Herr].
  destruct (member "status" data); [|exact Herr].
  apply invariant_bind; [apply invariant_update; auto|]. intros u.
  apply invariant_ret.
Qed.

(** X2: once the face-api models are loaded they stay loaded: none of
    [loadFaceApiModels], [checkBackendHealth] and [detectStress] resets the
    flag. *)
Theorem loaded_models_stay_loaded env w :
  faceApiModelsLoaded w = true ->
  faceApiModelsLoaded (snd (loadFaceApiModels env w)) = true
  /\ faceApiModelsLoaded (snd (checkBackendHealth env w)) = true
  /\ faceApiModelsLoaded (snd (detectStress env w)) = true.
Proof.
  intros Hw.
  assert (Hload : invariant (fun w => faceApiModelsLoaded w = true)
                    (loadFaceApiModels env)).
  { intros w0 Hw0. now rewrite loadFaceApiModels_loaded. }
  split; [now apply Hload|]. split; [now apply checkBackendHealth_loaded|].
  revert w Hw. change (invariant (fun w => faceApiModelsLoaded w = true)
                         (detectStress env)).
  unfold detectStress. destruct (negb _); [apply invariant_ret|].
  apply invariant_bind; [apply invariant_read|]. intros flag0.
  apply invariant_bind;
    [destruct flag0; [apply invariant_ret|apply checkBackendHealth_loaded]|].
  intros probed.
  apply invariant_bind; [apply invariant_read|]. intros flag.
  apply invariant_detect_with; auto.
Qed.

Lemma try_mirrors_spec mirrors w :
  try_mirrors mirrors w
  = (Ok (existsb (fun loads => loads) mirrors),
     if existsb (fun loads => loads) mirrors
     then set_faceApiModelsLoaded true w else w).
Proof.
  induction mirrors as [|[] rest IH]; cbn [try_mirrors existsb orb];
    [reflexivity|reflexivity|exact IH].
Qed.

(** X3: [loadFaceApiModels] never throws, and what it returns is the flag
    as it leaves it.  The flag ends up set exactly when it was set already,
    or face-api is present and one of the three mirrors loads; the backend
    flag, the storage and the draws taken are untouched. *)
Theorem loadFaceApiModels_reports_the_flag env w :
  exists w',
    loadFaceApiModels env w = (Ok (faceApiModelsLoaded w'), w')
    /\ faceApiModelsLoaded w'
       = faceApiModelsLoaded w
         || (faceapi_defined env
             && existsb (fun loads => loads) (firstn 3 (mirror_loads env)))
    /\ backendAvailable w' = backendAvailable w
    /\ localStorage w' = localStorage w
    /\ drawn w' = drawn w.
Proof.
  unfold loadFaceApiModels. rewrite bind_read.
  destruct (faceApiModelsLoaded w) eqn:Hl.
  { exists w. rewrite Hl. auto. }
  destruct (faceapi_defined env); cbn [negb andb orb].
  2:{ exists w. rewrite Hl. auto. }
  unfold bind at 1. rewrite try_mirrors_spec.
  destruct (existsb _ _).
  - exists (set_faceApiModelsLoaded true w). auto.
  - exists (set_faceApiModelsLoaded false w). auto.
Qed.

Lemma draws_exactly_ret {A} (a : A) : draws_exactly 0 (ret a).
Proof. intros w. split; [now exists a|cbn; lia]. Qed.

Lemma draws_exactly_bind {A B} n k (m : M A) (f : A -> M B) :
  draws_exactly n m -> (forall a, draws_exactly k (f a)) ->
  draws_exactly (n + k) (bind m f).
Proof.
  intros Hm Hf w. unfold bind. destruct (Hm w) as [[a Ha] Hn].
  destruct (m w) as [o w1]. cbn in Ha, Hn. subst o.
  destruct (Hf a w1) as [Hb Hk]. split; [exact Hb|]. rewrite Hk, Hn. lia.
Qed.

Lemma takes_bind {A B} n k (m : M A) (f : A -> M B) :
  draws_exactly n m -> (forall a, takes k (f a)) -> takes (n + k) (bind m f).
Proof.
  intros Hm Hf w. unfold bind. destruct (Hm w) as [[a Ha] Hn].
  destruct (m w) as [o w1]. cbn in Ha, Hn. subst o.
  rewrite Hf, Hn. lia.
Qed.

Lemma draws_exactly_Math_random env : draws_exactly 1 (Math_random env).
Proof. intros w. split; [eexists; reflexivity|reflexivity]. Qed.

Lemma draws_exactly_random_index env base n :
  draws_exactly 1 (random_index env base n).
Proof.
  unfold random_index.
  apply (draws_exactly_bind 1 0); [apply draws_exactly_Math_random|].
  intros r. apply draws_exactly_ret.
Qed.

Lemma draws_exactly_calculateFacialFeatures env stressLevel features :
  draws_exactly 3 (calculateFacialFeatures env stressLevel features).
Proof.
  unfold calculateFacialFeatures. apply (draws_exactly_bind 3 0).
  - destruct (is_string "High" _); [|destruct (is_string "Medium" _)];
      (apply (draws_exactly_bind 1 2); [apply draws_exactly_random_index|]; intros e;
       apply (draws_exactly_bind 1 1); [apply draws_exactly_random_index|]; intros b;
       apply (draws_exactly_bind 1 0); [apply draws_exactly_random_index|]; intros f;
       apply draws_exactly_ret).
  - intros [[e b] f]. apply draws_exactly_ret.
Qed.

(** X4: the pixel heuristic takes exactly eleven draws of [Math.random] per
    call (seven for the jitter, three for the feature levels, one for the
    confidence), whether it returns or throws on reading the history; the
    landmark analyzer and the remote client take none. *)
Theorem draws_of_the_analyzers env w :
  drawn (snd (detectClientSideFallback env w)) = (drawn w + 11)%nat
  /\ drawn (snd (detectWithFaceApi env w)) = drawn w
  /\ drawn (snd (detectWithBackend env w)) = drawn w.
Proof.
  split; [|split].
  - revert w. change (takes 11 (detectClientSideFallback env)).
    unfold detectClientSideFallback.
    apply (takes_bind 0 11). { intros w. split; [eexists; reflexivity|cbn; lia]. }
    intros k. destruct (detectEmotionClientSide _ _) as [emotion allProbabilities].
    apply (takes_bind 7 4). { intros w. split; [eexists; reflexivity|reflexivity]. }
    intros u.
    apply (takes_bind 3 1); [apply draws_exactly_calculateFacialFeatures|].
    intros [[e b] f].
    apply (takes_bind 1 0); [apply draws_exactly_Math_random|]. intros r.
    intros w. unfold bind. destruct (analyzeStressTrends _ _); cbn; lia.
  - apply (invariant_detectWithFaceApi (fun w' => drawn w' = drawn w)). reflexivity.
  - apply (invariant_detectWithBackend (fun w' => drawn w' = drawn w)). reflexivity.
Qed.

Lemma detectStress_resolved env w b :
  backendAvailable w = Some b ->
  detectStress env w
  = if negb (truthy (uploadedImage env)) then
      ret (VObj
        [ ("emotion", VStr "Neutral"); ("stressLevel", VStr "Low");
          ("eyeStrain", VStr "Normal"); ("browTension", VStr "Normal");
          ("facialFatigue", VStr "Normal"); ("confidence", VNum (num_of_Z 75));
          ("timestamp", VStr (now_iso (calendar env)));
          ("detectionMethod", VStr "Default") ]) w
    else
      (viaBackend <-
         (if b then
            try_catch
              (result <- detectWithBackend env ;;
               result <- add_user_info result ;;
               ret (Some result))
              (fun _ => ret None)
          else ret None) ;;
       match viaBackend with
       | Some result => ret result
       | None => result <- detectClientSide env ;; add_user_info result
       end) w.
Proof.
  intros Hw. unfold detectStress. destruct (negb _); [reflexivity|].
  rewrite bind_read, Hw, bind_ret, bind_read, Hw. now destruct b.
Qed.

(** X5: with the flag resolved, [detectStress] does not probe the health
    endpoint: its outcome and the state it leaves are the same whatever
    that endpoint would answer.  With the backend marked unavailable it does
    not call the detection endpoint either. *)
Theorem resolved_flag_skips_the_network env w b :
  backendAvailable w = Some b ->
  (forall health,
     detectStress (with_replies health (detect_reply env) env) w = detectStress env w)
  /\ (b = false ->
      forall health detect,
        detectStress (with_replies health detect env) w = detectStress env w).
Proof.
  intros Hw. split.
  - intros health. rewrite !(detectStress_resolved _ _ _ Hw). reflexivity.
  - intros -> health detect. rewrite !(detectStress_resolved _ _ _ Hw). reflexivity.
Qed.

Section Dominant.
Context {num : Type} `{JsNumber num}.

Lemma dominant_fold_In (table : list (string * num)) (start : string * num) :
  let step := fun '(dominantEmotion, maxProb) '(emotion, prob) =>
                if num_ltb maxProb prob then (emotion, prob)
                else (dominantEmotion, (maxProb : num)) in
  fst (fold_left step table start) = fst start
  \/ In (fst (fold_left step table start)) (map fst table).
Proof.
  cbn zeta. revert start.
  induction table as [|[emotion prob] rest IH]; intros [d m]; [now left|].
  cbn [fold_left map fst In].
  destruct (num_ltb m prob).
  - destruct (IH (emotion, prob)) as [E|E]; cbn [fst] in E; auto.
  - destruct (IH (d, m)) as [E|E]; cbn [fst] in E; auto.
Qed.

Lemma jitter_keys (scores : list (string * num)) random i total :
  map fst (fst (jitter scores random i total)) = map fst scores.
Proof.
  revert i total. induction scores as [|[emotion prob] rest IH]; intros i total;
    [reflexivity|].
  cbn [jitter]. specialize (IH (S i) (num_add total
    (Math_max (num_lit 1 100)
       (num_add prob (num_mul (num_sub (random i) (num_lit 5 10)) (num_lit 1 10)))))).
  destruct (jitter rest random (S i) _) as [table total']. cbn [fst map] in *.
  now rewrite IH.
Qed.

Lemma emotionScores_keys (features : Features num) (e : string) :
  In e (map fst (emotionScores features)) ->
  In e [ "Neutral"; "Happy"; "Sad"; "Angry"; "Fearful"; "Disgusted"; "Surprised" ].
Proof.
  unfold emotionScores.
  destruct (_ && _); [|destruct (_ || _); [|destruct (num_ltb _ _)]];
    cbn [map fst In]; intuition auto.
Qed.

Lemma detectEmotionClientSide_emotion (features : Features num) random :
  In (fst (detectEmotionClientSide features random))
     [ "Neutral"; "Happy"; "Sad"; "Angry"; "Fearful"; "Disgusted"; "Surprised" ].
Proof.
  unfold detectEmotionClientSide.
  pose proof (jitter_keys (emotionScores features) random 0%nat (num_of_Z 0)) as Hk.
  destruct (jitter _ _ _ _) as [jittered total]. cbn [fst] in *.
  unfold dominant.
  match goal with |- In (fst (fold_left ?step (map ?g jittered) ?start)) _ =>
    assert (Hm : map fst (map g jittered) = map fst jittered)
      by (rewrite map_map; apply map_ext; now intros [emotion p]);
    destruct (dominant_fold_In (map g jittered) start) as [E|E] end.
  - cbn zeta in E. rewrite E. cbn. auto.
  - cbn zeta in E. apply (emotionScores_keys features).
    now rewrite <- Hk, <- Hm.
Qed.

End Dominant.

Lemma calculateStressLevel_known (e : string) :
  In e (map fst EMOTIONS) ->
  calculateStressLevel e = VStr (stressFactor_or_Medium e).
Proof.
  unfold EMOTIONS. cbn [map fst In].
  intros [<-|[<-|[<-|[<-|[<-|[<-|[<-|[]]]]]]]]; reflexivity.
Qed.

(** X6: on well-formed storage the pixel heuristic returns a result whose
    emotion is one of the seven of [EMOTIONS] and whose stress level is the
    stress factor of that emotion, hence one of Low, Medium and High. *)
Theorem fallback_stress_follows_its_emotion env w :
  well_formed (localStorage w) ->
  exists r w' e,
    detectClientSideFallback env w = (Ok r, w')
    /\ field "emotion" r = VStr e
    /\ In e (map fst EMOTIONS)
    /\ field "stressLevel" r = VStr (stressFactor_or_Medium e)
    /\ In (stressFactor_or_Medium e) STRESS_LEVELS.
Proof.
  intros Hwf.
  cut (returns (localStorage w) (detectClientSideFallback env)
         (fun r => exists e,
            field "emotion" r = VStr e /\ In e (map fst EMOTIONS)
            /\ field "stressLevel" r = VStr (stressFactor_or_Medium e))).
  { intros Hr. destruct (Hr w eq_refl) as (r & w' & E & _ & e & He & Hin & Hs).
    exists r, w', e. repeat split; auto. apply stressFactor_or_Medium_cases. }
  unfold detectClientSideFallback.
  eapply returns_bind; [apply returns_read|]. intros k _.
  pose proof (detectEmotionClientSide_emotion (analyzeImageData (decoded env))
                (fun i => random env (k + i)%nat)) as Hin.
  destruct (detectEmotionClientSide _ _) as [emotion allProbabilities].
  cbn [fst] in Hin.
  eapply returns_bind; [apply returns_update; reflexivity|]. intros _ _.
  eapply returns_bind; [apply returns_calculateFacialFeatures|].
  intros [[e b] f] _.
  eapply returns_bind; [apply returns_Math_random|]. intros r _.
  eapply returns_bind; [apply (returns_trends _ env Hwf)|]. intros trends Ht.
  apply returns_ret. exists emotion.
  split; [reflexivity|]. split; [exact Hin|].
  cbn [field get assoc String.eqb Ascii.eqb Bool.eqb].
  now apply calculateStressLevel_known.
Qed.

Lemma adjust_keys key f table : map fst (adjust key f table) = map fst table.
Proof.
  induction table as [|[k v] rest IH]; [reflexivity|]. cbn [adjust].
  destruct (String.eqb k key); cbn [map fst]; [reflexivity|now rewrite IH].
Qed.

Lemma adjust_Forall (Q : number -> Prop) key f table :
  (forall v, Q v -> Q (f v)) ->
  Forall (fun kv => Q (snd kv)) table ->
  Forall (fun kv => Q (snd kv)) (adjust key f table).
Proof.
  intros Hf. induction 1 as [|[k v] rest Hv Hrest IH]; [constructor|].
  cbn [adjust]. destruct (String.eqb k key); constructor; cbn [snd] in *; auto.
Qed.

Lemma clamp_table_ok :
  forallb (fun z => clamp_row_ok 20 15 z && clamp_row_ok 15 10 z)
          (map Z.of_nat (seq 0 101)) = true.
Proof. vm_compute. reflexivity. Qed.

Lemma clamp_rows z :
  0 <= z <= 100 -> clamp_row_ok 20 15 z = true /\ clamp_row_ok 15 10 z = true.
Proof.
  intros Hz. pose proof clamp_table_ok as T. rewrite forallb_forall in T.
  apply andb_prop, T. rewrite in_map_iff. exists (Z.to_nat z).
  split; [lia|]. apply in_seq. lia.
Qed.

Lemma raise_percentage up down x :
  (up, down) = (20, 15) \/ (up, down) = (15, 10) ->
  percentage x ->
  percentage (Math_min (num_of_Z 100) (num_add x (num_of_Z up)))
  /\ percentage (Math_max (num_of_Z 0) (num_sub x (num_of_Z down))).
Proof.
  intros Hd (z & Hz & ->). destruct (clamp_rows z Hz) as [R1 R2].
  destruct Hd as [E|E]; injection E as -> ->;
    [apply andb_prop in R1 as [Hup Hdown]|apply andb_prop in R2 as [Hup Hdown]];
    apply sf_eqb_eq in Hup, Hdown; rewrite Hup, Hdown;
    split; eexists; (split; [|reflexivity]); lia.
Qed.

Lemma face_entries_total i detections :
  Forall (fun d => expressions d <> []) detections ->
  exists entries, face_entries i detections = Ok entries.
Proof.
  intros Hd. revert i. induction Hd as [|d rest Hd _ IH]; intros i;
    [now exists []|].
  cbn [face_entries]. destruct (IH (S i)) as [es ->].
  unfold face_entry. destruct (expressions d); [contradiction|].
  eexists; reflexivity.
Qed.

Lemma dominant_from_In start table :
  fst (dominant_from start table) = start
  \/ In (fst (dominant_from start table)) (map fst table).
Proof. apply (dominant_fold_In table (start, num_of_Z 0)). Qed.

Lemma stress_rank_escalation (score : number) (level : string) :
  In level STRESS_LEVELS ->
  let escalated :=
    if num_ltb (num_lit 7 10) score && String.eqb level "Low" then "Medium"
    else if num_ltb (num_lit 8 10) score && String.eqb level "Medium" then "High"
    else level in
  In escalated STRESS_LEVELS
  /\ stress_rank level <= stress_rank escalated <= stress_rank level + 1.
Proof.
  unfold STRESS_LEVELS. cbn [In].
  intros [<-|[<-|[<-|[]]]]; cbn zeta;
    destruct (num_ltb (num_lit 7 10) score), (num_ltb (num_lit 8 10) score);
    cbn; intuition lia.
Qed.

(** X7: when the landmark analyzer returns (well-formed storage, at least
    one detection, each with an expression vector), its emotion is one of
    the seven of [EMOTIONS], and its stress level is one of Low, Medium and
    High that is never below the stress factor of that emotion and at most
    one level above it: the facial analysis can raise Low to Medium or
    Medium to High, never Low to High, and never lowers a level. *)
Theorem landmark_stress_escalates_by_at_most_one env detections w :
  well_formed (localStorage w) ->
  detections <> [] ->
  Forall (fun d => expressions d <> []) detections ->
  exists r w' e s,
    processDetections env detections w = (Ok r, w')
    /\ field "emotion" r = VStr e
    /\ In e (map fst EMOTIONS)
    /\ field "stressLevel" r = VStr s
    /\ In s STRESS_LEVELS
    /\ stress_rank (stressFactor_or_Medium e) <= stress_rank s
       <= stress_rank (stressFactor_or_Medium e) + 1.
Proof.
  intros Hwf Hne Hexpr.
  cut (returns (localStorage w) (processDetections env detections)
         (fun r => exists e s,
            field "emotion" r = VStr e /\ In e (map fst EMOTIONS)
            /\ field "stressLevel" r = VStr s /\ In s STRESS_LEVELS
            /\ stress_rank (stressFactor_or_Medium e) <= stress_rank s
               <= stress_rank (stressFactor_or_Medium e) + 1)).
  { intros Hr. destruct (Hr w eq_refl) as (r & w' & E & _ & e & s & Hq).
    exists r, w', e, s. tauto. }
  unfold processDetections.
  destruct detections as [|detection rest]; [contradiction|].
  match goal with |- context [dominant_from "Neutral" ?t] =>
    pose proof (dominant_from_In "Neutral" t) as H0;
    destruct (dominant_from "Neutral" t) as [d0 m0]; set (table := t) in * end.
  cbn [fst] in H0.
  match goal with |- context [dominant_from d0 ?t] =>
    pose proof (dominant_from_In d0 t) as H1;
    assert (Hk : map fst t = map fst table)
      by (destruct (_ && _), (num_ltb _ _); now rewrite ?adjust_keys);
    destruct (dominant_from d0 t) as [d1 m1] end.
  cbn [fst] in H1. rewrite Hk in H1.
  assert (Hd1 : In d1 (map fst EMOTIONS)).
  { assert (Hd0 : In d0 (map fst EMOTIONS))
      by (destruct H0 as [->|H0]; [now left|];
          cbn in H0 |- *; intuition auto).
    destruct H1 as [->|H1]; [exact Hd0|]. cbn in H1 |- *. intuition auto. }
  eapply returns_bind; [apply (returns_trends _ env Hwf)|]. intros trends Ht.
  destruct (face_entries_total 0 _ Hexpr) as [entries ->].
  eapply returns_bind with (P := fun _ => True); [now apply returns_lift|].
  intros allFaces _.
  apply returns_ret.
  pose proof (stress_rank_escalation (overallStressScore (analysis detection))
                _ (stressFactor_or_Medium_cases d1)) as [Hs Hrank].
  eexists d1, _. split; [reflexivity|]. split; [exact Hd1|].
  split; [reflexivity|]. split; [exact Hs|exact Hrank].
Qed.

(** X8: when the rounded expression percentages of the first face are
    integers between 0 and 100, so are the adjusted percentages that the
    landmark analyzer reports, for the seven emotions of [EMOTIONS] in
    their order: raising Angry by 20 or Sad by 15 and lowering Neutral by
    15 and by 10 never leaves the range. *)
Theorem landmark_percentages_stay_in_range env detection rest w :
  well_formed (localStorage w) ->
  Forall (fun d => expressions d <> []) (detection :: rest) ->
  Forall (fun name => percentage (expression_percent detection name))
         EXPRESSION_KEYS ->
  exists r w' table,
    processDetections env (detection :: rest) w = (Ok r, w')
    /\ field "allProbabilities" r = numbers_object table
    /\ map fst table = map fst EMOTIONS
    /\ Forall (fun kv => percentage (snd kv)) table.
Proof.
  intros Hwf Hexpr Hpct.
  cut (returns (localStorage w) (processDetections env (detection :: rest))
         (fun r => exists table,
            field "allProbabilities" r = numbers_object table
            /\ map fst table = map fst EMOTIONS
            /\ Forall (fun kv => percentage (snd kv)) table)).
  { intros Hr. destruct (Hr w eq_refl) as (r & w' & E & _ & table & Hq).
    exists r, w', table. tauto. }
  unfold processDetections.
  match goal with |- context [dominant_from "Neutral" ?t] =>
    assert (H0 : Forall (fun kv => percentage (snd kv)) t);
    [|destruct (dominant_from "Neutral" t) as [d0 m0]; set (table := t) in *] end.
  { unfold EXPRESSION_KEYS, expression_percent in Hpct.
    repeat match goal with
           | H : Forall _ (_ :: _) |- _ => inversion_clear H
           end.
    repeat constructor; assumption. }
  match goal with |- context [dominant_from d0 ?t] =>
    assert (Hk : map fst t = map fst table)
      by (destruct (_ && _), (num_ltb _ _); now rewrite ?adjust_keys);
    assert (H1 : Forall (fun kv => percentage (snd kv)) t);
    [|destruct (dominant_from d0 t) as [d1 m1]; set (table' := t) in *] end.
  { assert (Hup : forall up down, (up, down) = (20, 15) \/ (up, down) = (15, 10) ->
       forall t, Forall (fun kv => percentage (snd kv)) t ->
       forall k1 k2, Forall (fun kv => percentage (snd kv))
         (adjust k1 (fun p => Math_max (num_of_Z 0) (num_sub p (num_of_Z down)))
            (adjust k2 (fun p => Math_min (num_of_Z 100) (num_add p (num_of_Z up))) t))).
    { intros up down Hd t Ht k1 k2.
      apply adjust_Forall; [intros v Hv; now apply (raise_percentage up down)|].
      apply adjust_Forall; [intros v Hv; now apply (raise_percentage up down)|].
      exact Ht. }
    destruct (_ && _), (num_ltb _ _); auto. }
  eapply returns_bind; [apply (returns_trends _ env Hwf)|]. intros trends Ht.
  destruct (face_entries_total 0 _ Hexpr) as [entries ->].
  eapply returns_bind with (P := fun _ => True); [now apply returns_lift|].
  intros allFaces _.
  apply returns_ret. exists table'.
  split; [reflexivity|]. split; [exact Hk|exact H1].
Qed.

Lemma value_induction (P : jsval -> Prop) :
  P VUndefined -> P VNull -> (forall b, P (VBool b)) -> (forall n, P (VNum n)) ->
  (forall s, P (VStr s)) ->
  (forall items, Forall P items -> P (VArr items)) ->
  (forall fields, Forall (fun kv => P (snd kv)) fields -> P (VObj fields)) ->
  (forall k, P (VBuiltin k)) ->
  forall v, P v.
Proof.
  intros Hu Hn Hb Hnum Hs Harr Hobj Hk. fix IH 1.
  intros [| |b|n|s|items|fields|k];
    [exact Hu|exact Hn|apply Hb|apply Hnum|apply Hs| | |apply Hk].
  - apply Harr.
    refine ((fix go (l : list jsval) : Forall P l :=
               match l with
               | [] => @List.Forall_nil _ _
               | x :: l' => @List.Forall_cons _ _ x l' (IH x) (go l')
               end) items).
  - apply Hobj.
    refine ((fix go (l : list (string * jsval)) : Forall (fun kv => P (snd kv)) l :=
               match l with
               | [] => @List.Forall_nil _ _
               | (k, x) :: l' => @List.Forall_cons _ _ (k, x) l' (IH x) (go l')
               end) fields).
Qed.

Lemma to_json_fixed (v j : jsval) : to_json v = Some j -> json_data j.
Proof.
  unfold json_data. revert j.
  induction v as [| |b|n|s|items IH|fields IH|k] using value_induction;
    intros j E; cbn [to_json] in E; try discriminate; try (injection E as <-).
  - reflexivity.
  - reflexivity.
  - now destruct n.
  - reflexivity.
  - cbn [to_json]. do 2 f_equal. rewrite map_map.
    induction IH as [|x items Hx _ IHl]; [reflexivity|].
    cbn [map]. rewrite IHl. f_equal.
    destruct (to_json x) as [jx|]; [now rewrite (Hx jx)|reflexivity].
  - cbn [to_json]. do 2 f_equal.
    induction IH as [|[k x] fields Hx _ IHl]; [reflexivity|]. cbn [snd] in Hx.
    destruct (to_json x) as [jx|] eqn:Ex; [|exact IHl].
    rewrite (Hx jx eq_refl). now rewrite IHl.
  - destruct (String.eqb k "__proto__"); [|discriminate].
    injection E as <-. reflexivity.
Qed.

Lemma stored_has_history w h :
  has_history (localStorage w) h -> stored "stressResults" (VArr []) w = (Ok (VArr h), w).
Proof. unfold stored, read. now intros [->|[-> ->]]. Qed.


Lemma filter_last7Days_null cal results :
  Forall is_object results ->
  filter_last7Days cal (results ++ [VNull]) = Throw TypeError.
Proof.
  induction 1 as [|r results Hr _ IH]; [reflexivity|].
  cbn [app filter_last7Days]. rewrite IH.
  destruct r; try contradiction. unfold in_last7Days.
  now destruct (Date_parse cal _).
Qed.

Lemma filter_last7Days_app cal a b ka kb :
  filter_last7Days cal a = Ok ka -> filter_last7Days cal b = Ok kb ->
  filter_last7Days cal (a ++ b)%list = Ok (ka ++ kb)%list.
Proof.
  revert ka. induction a as [|r a IH]; intros ka Ha Hb.
  - injection Ha as <-. exact Hb.
  - cbn [app filter_last7Days] in *.
    destruct (in_last7Days cal r) as [keep|]; [|discriminate].
    destruct (filter_last7Days cal a) as [kept|]; [|discriminate].
    injection Ha as <-. rewrite (IH kept eq_refl Hb). now destruct keep.
Qed.

Lemma never_returns {A} st (m : M A) w :
  keeps st m (fun _ => False) -> localStorage w = st ->
  exists e, fst (m w) = Throw e.
Proof.
  intros Hm Hw. destruct (Hm w Hw) as (o & w' & E & _ & Ho).
  rewrite E. destruct o as [a|e]; [contradiction|]. now exists e.
Qed.

Lemma keeps_trends_throw st env :
  (forall cal, analyzeStressTrends cal st = Throw TypeError) ->
  keeps st (fun w => (analyzeStressTrends (calendar env) (localStorage w), w))
    (fun _ => False).
Proof.
  intros Ht w Hw. rewrite Hw, Ht. eexists _, _. split; [reflexivity|]. auto.
Qed.

Lemma keeps_processDetections_throw st env detections :
  (forall cal, analyzeStressTrends cal st = Throw TypeError) ->
  keeps st (processDetections env detections) (fun _ => False).
Proof.
  intros Ht. unfold processDetections.
  destruct detections as [|detection rest]; [apply keeps_throw|].
  destruct (dominant_from "Neutral" _) as [d0 m0].
  destruct (dominant_from d0 _) as [d1 m1].
  eapply keeps_bind; [apply (keeps_trends_throw st env Ht)|]. intros _ [].
Qed.

Lemma keeps_detectClientSide_throw st env :
  (forall cal, analyzeStressTrends cal st = Throw TypeError) ->
  keeps st (detectClientSide env) (fun _ => False).
Proof.
  intros Ht.
  assert (Hface : returns st (detectWithFaceApi env) (fun r => r = VNull)).
  { unfold detectWithFaceApi.
    apply returns_try_catch; [|intros e; now apply returns_ret].
    destruct (negb _); [apply keeps_throw|].
    eapply keeps_bind with (P := fun _ => True).
    { apply keeps_lift. now destruct (face_primary env). }
    intros detections _.
    assert (Hp : forall ds, keeps st (processDetections env ds) (fun r => r = VNull)).
    { intros ds. eapply keeps_weaken; [apply (keeps_processDetections_throw _ _ _ Ht)|].
      intros _ []. }
    destruct detections; [|apply Hp].
    eapply keeps_bind with (P := fun _ => True).
    { apply keeps_lift. now destruct (face_retry env). }
    intros retry _. destruct retry; [|apply Hp].
    now apply returns_keeps, returns_ret. }
  unfold detectClientSide.
  eapply keeps_bind with (P := fun via => via = None).
  - apply returns_keeps.
    destruct (faceapi_defined env); [|now apply returns_ret].
    apply returns_try_catch; [|intros e; now apply returns_ret].
    apply returns_keeps.
    eapply returns_bind; [apply returns_read|]. intros loaded _.
    eapply returns_bind with (P := fun _ => True).
    { destruct loaded; [now apply returns_ret|apply returns_loadFaceApiModels]. }
    intros _ _.
    eapply returns_bind; [apply returns_read|]. intros loaded' _.
    destruct loaded'; [|now apply returns_ret].
    eapply returns_bind; [exact Hface|]. intros r ->. now apply returns_ret.
  - intros via ->. unfold detectClientSideFallback.
    eapply keeps_bind; [apply returns_keeps, returns_read|]. intros k _.
    destruct (detectEmotionClientSide _ _) as [emotion allProbabilities].
    eapply keeps_bind; [apply returns_keeps, returns_update; reflexivity|].
    intros _ _.
    eapply keeps_bind; [apply returns_keeps, returns_calculateFacialFeatures|].
    intros [[e b] f] _.
    eapply keeps_bind; [apply returns_keeps, returns_Math_random|]. intros r _.
    eapply keeps_bind; [apply (keeps_trends_throw st env Ht)|]. intros _ [].
Qed.

(** X10: [saveResult] does not validate its argument.  Saving a value whose
    JSON text is [null] or that has none ([null], [undefined], NaN) succeeds,
    and from then on [analyzeStressTrends] throws a TypeError on the stored
    history, and with it [detectClientSide] in every environment: the
    landmark analyzer's error is swallowed, the pixel heuristic's is not. *)
Theorem saved_null_breaks_client_side_detection (w : World) (h : list jsval)
    (r : jsval) :
  has_history (localStorage w) h ->
  Forall is_object h ->
  stored_as r = VNull ->
  exists w',
    saveResult r w = (Ok tt, w')
    /\ (forall cal, analyzeStressTrends cal (localStorage w') = Throw TypeError)
    /\ (forall env, exists e, fst (detectClientSide env w') = Throw e).
Proof.
  intros Hh Hobj Hr. unfold saveResult, bind. rewrite (stored_has_history _ _ Hh).
  cbn [to_json]. eexists. split; [reflexivity|].
  assert (Ht : forall cal,
    analyzeStressTrends cal
      (<["stressResults" :=
           VArr (map (fun x => match to_json x with Some j => j | None => VNull end)
                     (h ++ [r]))]> (localStorage w)) = Throw TypeError).
  { intros cal. unfold analyzeStressTrends. rewrite lookup_insert_eq.
    rewrite map_app. cbn [map]. fold (stored_as r). rewrite Hr.
    rewrite filter_last7Days_null; [reflexivity|].
    rewrite List.Forall_forall. intros x Hx.
    apply in_map_iff in Hx as (y & <- & Hy). apply to_json_object.
    rewrite List.Forall_forall in Hobj. now apply Hobj. }
  split; [exact Ht|].
  intros env. eapply never_returns; [|reflexivity].
  apply keeps_detectClientSide_throw. exact Ht.
Qed.


(** X12: [getKNNResults] never throws and never writes the storage.  It
    returns the payload of the backend (any JSON value, unchecked) when the
    backend is marked available after an optional probe and answers with a
    2xx status and a JSON body; in every other case (backend unavailable or
    unresolved, network error, other status, malformed body) it returns the
    simulated metrics. *)
Theorem getKNNResults_never_fails env knn_reply w :
  exists r w',
    getKNNResults env knn_reply w = (Ok r, w')
    /\ localStorage w' = localStorage w
    /\ r = match backendAvailable w', payload knn_reply with
           | Some true, Some data => data
           | _, _ => KNN_SIMULATED
           end.
Proof.
  assert (Htail : forall w1,
    exists r,
      (flag <- read backendAvailable ;;
       fromBackend <-
         (match flag with
          | Some true =>
              try_catch
                (match knn_reply with
                 | Rejected e => throw e
                 | Response status b =>
                     if ok status then
                       match b with
                       | Json data => ret (Some data)
                       | Malformed => throw SyntaxError
                       end
                     else ret None
                 end)
                (fun _ => ret None)
          | _ => ret None
          end) ;;
       match fromBackend with
       | Some data => ret data
       | None => ret KNN_SIMULATED
       end) w1 = (Ok r, w1)
      /\ r = match backendAvailable w1, payload knn_reply with
             | Some true, Some data => data
             | _, _ => KNN_SIMULATED
             end).
  { intros w1. rewrite bind_read.
    destruct (backendAvailable w1) as [[|]|]; try (eexists; split; reflexivity).
    destruct knn_reply as [e|status [data|]]; cbn [payload];
      try (eexists; split; reflexivity);
      unfold bind, try_catch; destruct (ok status); eexists; split; reflexivity. }
  unfold getKNNResults. rewrite bind_read.
  destruct (backendAvailable w) eqn:Hflag.
  - rewrite bind_ret. destruct (Htail w) as (r & E & Hr). exists r, w. auto.
  - destruct (returns_checkBackendHealth (localStorage w) env w eq_refl)
      as (b & w1 & E1 & Hs & _).
    unfold bind at 1. rewrite E1.
    destruct (Htail w1) as (r & E & Hr). exists r, w1. auto.
Qed.

Local Open Scope Z_scope.

Lemma exact_ltb_lt (x y : Q) : Exact.ltb x y = true -> (x < y)%Q.
Proof.
  unfold Exact.ltb. destruct (Qcompare_spec x y); try discriminate. auto.
Qed.

Lemma exact_min_cases (x y : Q) :
  (Exact.min x y <= x /\ Exact.min x y <= y
   /\ forall c, c <= x -> c <= y -> c <= Exact.min x y)%Q.
Proof.
  unfold Exact.min, Exact.ltb.
  destruct (Qcompare_spec y x) as [E|L|G]; repeat split; intros; try lra.
Qed.

Lemma Qdiv_range (total n bound : Q) :
  (0 < n -> 0 <= total <= bound * n -> 0 <= total / n <= bound)%Q.
Proof.
  intros Hn [Hlo Hhi]. split.
  - apply Qle_shift_div_l; [exact Hn|]. lra.
  - apply Qle_shift_div_r; [exact Hn|]. exact Hhi.
Qed.

Lemma detectSkinTone_range (r g b : Q) :
  (0 <= g -> 0 <= b -> 3 # 10 <= detectSkinTone r g b <= 1)%Q.
Proof.
  intros Hg Hb. unfold detectSkinTone. cbn [num_div num_add num_of_Z num_ltb num_lit
    Math_min exact].
  set (ratio1 := (r / (g + inject_Z 1))%Q). set (ratio2 := (r / (b + inject_Z 1))%Q).
  destruct (_ && _) eqn:C; [|unfold Exact.lit; lra].
  repeat (apply andb_prop in C as [C ?]).
  repeat match goal with
         | H : Exact.ltb _ _ = true |- _ => apply exact_ltb_lt in H
         end.
  unfold Exact.lit in *.
  destruct (exact_min_cases (inject_Z 1) ((ratio1 + ratio2) / inject_Z 4))
    as (Hmin & _ & Hc).
  change (inject_Z 1) with 1%Q in *. split; [|exact Hmin].
  apply Hc; [lra|]. apply Qle_shift_div_l; [reflexivity|].
  change (inject_Z 4) with 4%Q. lra.
Qed.

Lemma calculateImageQuality_range (brightness contrast : Q) :
  (0 <= brightness <= 255 -> 0 <= contrast ->
   0 <= calculateImageQuality brightness contrast <= 1)%Q.
Proof.
  intros Hb Hc. unfold calculateImageQuality.
  cbn [num_div num_add num_sub num_mul num_of_Z num_lit Math_min Math_abs exact].
  unfold Exact.lit.
  destruct (exact_min_cases (inject_Z 1) (contrast / inject_Z 50)) as (H1 & _ & Hm).
  assert (H0 : (0 <= Exact.min (inject_Z 1) (contrast / inject_Z 50))%Q).
  { apply Hm; [discriminate|]. apply Qle_shift_div_l; [reflexivity|]. lra. }
  change (inject_Z 1) with 1%Q in *.
  assert (Ha : (0 <= Qabs (brightness - inject_Z 128) / inject_Z 128 <= 1)%Q).
  { change (inject_Z 128) with 128%Q. split.
    - apply Qle_shift_div_l; [reflexivity|]. pose proof (Qabs_nonneg (brightness - 128)). lra.
    - apply Qle_shift_div_r; [reflexivity|].
      apply Qabs_Qle_condition. lra. }
  generalize dependent (Exact.min 1 (contrast / inject_Z 50)).
  generalize dependent (Qabs (brightness - inject_Z 128) / inject_Z 128)%Q.
  intros. lra.
Qed.

Lemma pixel_step_range first k acc px :
  0 <= k -> byte_pixel px -> sums_in_range k acc ->
  sums_in_range (k + 1) (pixel_step first acc px).
Proof.
  intros Hk Hpx (Ht & Hr & Hg & Hb & Hc & Hp).
  destruct px as [[[r g] b] a]. destruct Hpx as (Br & Bg & Bb).
  unfold sums_in_range, pixel_step.
  cbn [totalBrightness redTotal greenTotal blueTotal contrastSum prevBrightness
       num_add num_mul num_sub num_of_Z num_lit Math_abs exact].
  unfold Exact.lit. rewrite inject_Z_plus. change (inject_Z 1) with 1%Q.
  assert (Qr : (0 <= inject_Z r <= 255)%Q).
  { split; [change 0%Q with (inject_Z 0)|change 255%Q with (inject_Z 255)];
      rewrite <- Zle_Qle; lia. }
  assert (Qg : (0 <= inject_Z g <= 255)%Q).
  { split; [change 0%Q with (inject_Z 0)|change 255%Q with (inject_Z 255)];
      rewrite <- Zle_Qle; lia. }
  assert (Qb : (0 <= inject_Z b <= 255)%Q).
  { split; [change 0%Q with (inject_Z 0)|change 255%Q with (inject_Z 255)];
      rewrite <- Zle_Qle; lia. }
  assert (Qk : (0 <= inject_Z k)%Q)
    by (change 0%Q with (inject_Z 0); rewrite <- Zle_Qle; lia).
  set (br := (inject_Z r * (299 # 1000) + inject_Z g * (587 # 1000)
              + inject_Z b * (114 # 1000))%Q).
  assert (Hbr : (0 <= br <= 255)%Q) by (unfold br; lra).
  assert (Habs : (0 <= Qabs (br - prevBrightness acc) <= 255)%Q).
  { split; [apply Qabs_nonneg|]. apply Qabs_Qle_condition. lra. }
  generalize dependent (Qabs (br - prevBrightness acc)). intros d Hd.
  destruct first; repeat split; lra.
Qed.

Lemma fold_pixel_step_range rest k acc :
  0 <= k -> Forall byte_pixel rest -> sums_in_range k acc ->
  sums_in_range (k + Z.of_nat (length rest))
    (fold_left (pixel_step false) rest acc).
Proof.
  intros Hk Hrest. revert k acc Hk.
  induction Hrest as [|px rest Hpx _ IH]; intros k acc Hk Hacc.
  - cbn. now rewrite Z.add_0_r.
  - cbn [fold_left length]. rewrite Nat2Z.inj_succ.
    replace (k + Z.succ (Z.of_nat (length rest)))
      with (k + 1 + Z.of_nat (length rest)) by lia.
    apply IH; [lia|]. now apply pixel_step_range.
Qed.


Lemma truthy_or_else (a b : jsval) : truthy b = true -> truthy (or_else a b) = true.
Proof. intros Hb. unfold or_else. now destruct (truthy a) eqn:Ha. Qed.


Lemma add_stress_NaN r : add_stress NaN r = NaN.
Proof. unfold add_stress. now destruct (index stressValues _). Qed.

Lemma fold_add_stress_NaN l : fold_left add_stress l NaN = NaN.
Proof. induction l as [|r l IH]; [reflexivity|]. cbn [fold_left]. now rewrite add_stress_NaN. Qed.

Lemma fold_add_stress_unknown l acc :
  Exists unknown_level l -> fold_left add_stress l acc = NaN.
Proof.
  intros Hl. revert acc. induction Hl as [r l Hr|r l _ IH]; intros acc; cbn [fold_left].
  - unfold add_stress at 2. unfold unknown_level in Hr.
    destruct (index stressValues _); [contradiction| |]; apply fold_add_stress_NaN.
  - apply IH.
Qed.

Lemma average_unknown l : Exists unknown_level l -> average l = NaN.
Proof. intros Hl. unfold average. now rewrite fold_add_stress_unknown. Qed.

Lemma average_or_NaN l :
  Exists unknown_level l ->
  (if Nat.ltb 0 (length l) then average l else NaN) = NaN.
Proof. intros Hl. rewrite (average_unknown l Hl). now destruct (Nat.ltb 0 (length l)). Qed.

Lemma ltb_NaN_l x : num_ltb NaN x = false.
Proof. reflexivity. Qed.

Lemma ltb_NaN_r x : num_ltb x NaN = false.
Proof. now destruct x. Qed.

Lemma leb_NaN_l x : num_leb NaN x = false.
Proof. reflexivity. Qed.

Lemma sub_NaN_l x : num_sub NaN x = NaN.
Proof. reflexivity. Qed.

Lemma sub_NaN_r x : num_sub x NaN = NaN.
Proof. now destruct x. Qed.

Lemma add_NaN_l x : num_add NaN x = NaN.
Proof. reflexivity. Qed.


(** X16: the alias normalisation is idempotent: a normalised emotion is
    left as it is by a second normalisation, for every value. *)
Theorem normalizeEmotion_idempotent (emotion : jsval) :
  normalizeEmotion (normalizeEmotion emotion) = normalizeEmotion emotion.
Proof.
  assert (Hn : normalizeEmotion emotion = emotion
               \/ (exists canonical, In canonical (map snd EMOTION_ALIASES)
                      /\ normalizeEmotion emotion = VStr canonical)
               \/ (exists k, In k OBJECT_PROTOTYPE_KEYS
                      /\ normalizeEmotion emotion = VBuiltin k)).
  { unfold normalizeEmotion, index.
    destruct (to_string emotion) as [s|]; [|now left].
    unfold get. destruct (assoc s EMOTION_ALIASES) as [canonical|] eqn:E.
    - right; left. exists canonical. split.
      + apply assoc_In in E. now apply (in_map snd) in E.
      + cbn [truthy]. destruct (String.eqb_spec canonical ""); [|reflexivity].
        subst canonical. apply assoc_In in E. cbn in E.
        repeat (destruct E as [E|E]; [discriminate|]). contradiction.
    - destruct (mem s OBJECT_PROTOTYPE_KEYS) eqn:Hm; [|now left].
      right; right. exists s. split; [now apply mem_In|reflexivity]. }
  destruct Hn as [Hn|[(canonical & Hin & Hn)|(k & Hin & Hn)]].
  - now rewrite !Hn.
  - rewrite Hn. cbn in Hin.
    repeat (destruct Hin as [<-|Hin]; [reflexivity|]). contradiction.
  - rewrite Hn. unfold OBJECT_PROTOTYPE_KEYS in Hin. cbn [In] in Hin.
    repeat (destruct Hin as [<-|Hin]; [reflexivity|]). contradiction.
Qed.

(** The theorem on a page with the models loaded and the backend down. *)
Lemma loaded_models_stay_loaded_witness :
  faceApiModelsLoaded
    (snd (loadFaceApiModels (example_env http_500 detected)
            (set_faceApiModelsLoaded true fresh))) = true
  /\ faceApiModelsLoaded
       (snd (checkBackendHealth (example_env http_500 detected)
               (set_faceApiModelsLoaded true fresh))) = true
  /\ faceApiModelsLoaded
       (snd (detectStress (example_env http_500 detected)
               (set_faceApiModelsLoaded true fresh))) = true.
Proof. apply loaded_models_stay_loaded. reflexivity. Defined.

(** The theorem on a page whose backend is marked unavailable: a backend
    that has recovered since is not noticed. *)
Lemma resolved_flag_skips_the_network_witness :
  detectStress (with_replies healthy detected (example_env http_500 http_500))
    (set_backendAvailable (Some false) fresh)
  = detectStress (example_env http_500 http_500)
      (set_backendAvailable (Some false) fresh).
Proof.
  apply (proj2 (resolved_flag_skips_the_network (example_env http_500 http_500)
                  (set_backendAvailable (Some false) fresh) false eq_refl) eq_refl).
Defined.

(** The theorem on a fresh page. *)
Lemma fallback_stress_follows_its_emotion_witness :
  exists r w' e,
    detectClientSideFallback (example_env http_500 http_500) fresh = (Ok r, w')
    /\ field "emotion" r = VStr e
    /\ In e (map fst EMOTIONS)
    /\ field "stressLevel" r = VStr (stressFactor_or_Medium e)
    /\ In (stressFactor_or_Medium e) STRESS_LEVELS.
Proof. apply fallback_stress_follows_its_emotion. split; exact I. Defined.

(** The theorem on one mostly happy face with a high overall stress
    score. *)
Lemma landmark_stress_escalates_by_at_most_one_witness :
  exists r w' e s,
    processDetections (example_env http_500 http_500) [example_detection] fresh
    = (Ok r, w')
    /\ field "emotion" r = VStr e
    /\ In e (map fst EMOTIONS)
    /\ field "stressLevel" r = VStr s
    /\ In s STRESS_LEVELS
    /\ stress_rank (stressFactor_or_Medium e) <= stress_rank s
       <= stress_rank (stressFactor_or_Medium e) + 1.
Proof.
  apply landmark_stress_escalates_by_at_most_one.
  - split; exact I.
  - discriminate.
  - repeat constructor; discriminate.
Defined.

(** The theorem on the same face. *)
Lemma landmark_percentages_stay_in_range_witness :
  exists r w' table,
    processDetections (example_env http_500 http_500) [example_detection] fresh
    = (Ok r, w')
    /\ field "allProbabilities" r = numbers_object table
    /\ map fst table = map fst EMOTIONS
    /\ Forall (fun kv => percentage (snd kv)) table.
Proof.
  apply landmark_percentages_stay_in_range.
  - split; exact I.
  - repeat constructor; discriminate.
  - unfold EXPRESSION_KEYS.
    constructor; [exists 10; split; [lia|vm_compute; reflexivity]|].
    constructor; [exists 70; split; [lia|vm_compute; reflexivity]|].
    constructor; [exists 5; split; [lia|vm_compute; reflexivity]|].
    constructor; [exists 5; split; [lia|vm_compute; reflexivity]|].
    constructor; [exists 4; split; [lia|vm_compute; reflexivity]|].
    constructor; [exists 3; split; [lia|vm_compute; reflexivity]|].
    constructor; [exists 3; split; [lia|vm_compute; reflexivity]|].
    constructor.
Defined.


(** The theorem for [null] saved after two results. *)
Lemma saved_null_breaks_client_side_detection_witness :
  exists w',
    saveResult VNull (set_localStorage (store_of tie_history) fresh) = (Ok tt, w')
    /\ (forall cal, analyzeStressTrends cal (localStorage w') = Throw TypeError)
    /\ (forall env, exists e, fst (detectClientSide env w') = Throw e).
Proof.
  apply (saved_null_breaks_client_side_detection _ tie_history).
  - left. reflexivity.
  - repeat constructor.
  - reflexivity.
Defined.





(** ** User statistics and landmark geometry: statements *)

Lemma bind_lift_Ok {A B} (a : A) (k : A -> M B) w : bind (lift (Ok a)) k w = k a w.
Proof. reflexivity. Qed.

Lemma member_object name (r : jsval) : is_object r -> member name r = Ok (field name r).
Proof. now destruct r. Qed.

Lemma filter_by_email_total email items :
  Forall is_object items ->
  exists kept,
    filter_by_email email items = Ok kept
    /\ Forall is_object kept /\ (length kept <= length items)%nat.
Proof.
  induction 1 as [|r items Hr _ (kept & IH & Hk & Hlen)].
  - exists []. repeat split; [constructor|lia].
  - cbn [filter_by_email]. rewrite (member_object _ _ Hr), IH.
    destruct (strict_eq _ _).
    + exists (r :: kept). split; [reflexivity|].
      split; [now constructor|cbn [length]; lia].
    + exists kept. split; [reflexivity|]. split; [exact Hk|cbn [length]; lia].
Qed.

Lemma count_levels items :
  Forall is_object items ->
  exists low medium high,
    count_level "Low" items = Ok low
    /\ count_level "Medium" items = Ok medium
    /\ count_level "High" items = Ok high
    /\ 0 <= low /\ 0 <= medium /\ 0 <= high
    /\ low + medium + high <= Z.of_nat (length items).
Proof.
  induction 1 as [|r items Hr _ (l & m & h & El & Em & Eh & Hl & Hm & Hh & Hsum)].
  - exists 0, 0, 0. cbn. repeat split; lia.
  - cbn [count_level]. rewrite (member_object _ _ Hr), El, Em, Eh.
    do 3 eexists. repeat (split; [reflexivity|]).
    cbn [length]. rewrite Nat2Z.inj_succ. unfold is_string.
    destruct (field "stressLevel" r) as [| | | |s| | |]; try (repeat split; lia).
    destruct (String.eqb_spec s "Low") as [->|]; cbn; [repeat split; lia|].
    destruct (String.eqb_spec s "Medium") as [->|]; cbn; [repeat split; lia|].
    destruct (String.eqb s "High"); repeat split; lia.
Qed.

Lemma plus_confidence_total items (acc : option number) :
  Forall is_object items ->
  exists sum, fold_left plus_confidence items (Ok acc) = Ok sum.
Proof.
  intros Hitems. revert acc.
  induction Hitems as [|r items Hr _ IH]; intros acc; [now exists acc|].
  cbn [fold_left]. unfold plus_confidence at 2. rewrite (member_object _ _ Hr).
  destruct acc as [a|]; [|apply IH].
  destruct (field "confidence" r); apply IH.
Qed.

Lemma emotionCounts_of_total items emotionCounts :
  Forall is_object items ->
  exists counts, emotionCounts_of items emotionCounts = Ok counts.
Proof.
  intros Hitems. revert emotionCounts.
  induction Hitems as [|r items Hr _ IH]; intros emotionCounts; [eexists; reflexivity|].
  cbn [emotionCounts_of]. rewrite (member_object _ _ Hr).
  destruct (to_string _) as [key|]; [apply IH|].
  destruct (IH emotionCounts) as [counts ->]. eexists; reflexivity.
Qed.

Lemma add_property_nonempty key v props : add_property key v props <> [].
Proof.
  destruct props as [|[k x] rest]; cbn; [discriminate|].
  destruct (array_index key), (array_index k); try discriminate.
  destruct (_ <? _); discriminate.
Qed.

Lemma set_property_nonempty key v props : props <> [] -> set_property key v props <> [].
Proof.
  destruct props as [|[k x] rest]; [contradiction|]. intros _. cbn.
  destruct (String.eqb k key); discriminate.
Qed.

Lemma count_emotion_nonempty key emotionCounts :
  emotionCounts <> [] \/ key <> "__proto__" ->
  count_emotion key emotionCounts <> [].
Proof.
  intros Hne. unfold count_emotion, get.
  destruct (assoc key emotionCounts) as [[c|]|] eqn:E.
  - apply set_property_nonempty. intros ->. discriminate.
  - intros ->. discriminate.
  - destruct (mem key OBJECT_PROTOTYPE_KEYS); [|apply add_property_nonempty].
    destruct (String.eqb_spec key "__proto__") as [->|]; [|apply add_property_nonempty].
    destruct Hne as [Hne|Hne]; [exact Hne|contradiction].
Qed.

Lemma emotionCounts_of_nonempty items emotionCounts props :
  Forall (fun r => to_string (field "emotion" r) <> Some "__proto__") items ->
  Forall is_object items ->
  emotionCounts <> [] \/ items <> [] ->
  emotionCounts_of items emotionCounts = Ok (Some props) -> props <> [].
Proof.
  intros Hplain Hobj. revert emotionCounts.
  induction Hplain as [|r items Hr _ IH]; intros emotionCounts Hne E.
  - injection E as <-. destruct Hne as [Hne|Hne]; [exact Hne|contradiction].
  - inversion_clear Hobj as [|? ? Hobj_r Hobj_items].
    cbn [emotionCounts_of] in E. rewrite (member_object _ _ Hobj_r) in E.
    destruct (to_string _) as [key|] eqn:Ek.
    + apply (IH Hobj_items _ (or_introl (count_emotion_nonempty key emotionCounts
                 (or_intror (fun H => Hr (f_equal Some H))))) E).
    + destruct (emotionCounts_of items emotionCounts); discriminate.
Qed.

(** The run of [getUserStats] on an array [kept] of the user's results. *)
Lemma getUserStats_run w kept :
  well_formed (localStorage w) ->
  user_results (localStorage w) kept ->
  getUserStats w
  = (if Nat.eqb (length kept) 0 then ret NO_STATS
     else
       low <- lift (count_level "Low" kept) ;;
       medium <- lift (count_level "Medium" kept) ;;
       high <- lift (count_level "High" kept) ;;
       sum <- lift (fold_left plus_confidence kept (Ok (Some (num_of_Z 0)))) ;;
       emotionCounts <- lift (emotionCounts_of kept []) ;;
       commonEmotion <-
         lift (match emotionCounts with
               | None => Ok None
               | Some [] => Throw TypeError
               | Some props =>
                   match counts_of props with
                   | None => Ok None
                   | Some entries =>
                       Ok (option_map fst (head (sort_by_tally entries)))
                   end
               end) ;;
       ret {| totalScans := Z.of_nat (length kept);
              avgConfidence :=
                option_map
                  (fun s => Math_round
                              (num_div s (num_of_Z (Z.of_nat (length kept)))))
                  sum;
              stressDistribution := (low, medium, high);
              commonEmotion := commonEmotion |}) w.
Proof.
  intros [Huser _] (items & Hitems & Hkept).
  unfold getUserStats, getResultsHistory. unfold bind at 1.
  rewrite (stored_has_history _ _ Hitems). unfold stored at 1. rewrite bind_read.
  destruct (localStorage w !! "currentUser") as [currentUser|].
  - rewrite (member_object _ _ Huser), bind_lift_Ok.
    destruct (truthy (field "email" currentUser)).
    + rewrite Hkept, bind_lift_Ok, bind_lift_Ok. reflexivity.
    + subst kept. rewrite bind_lift_Ok, bind_lift_Ok. reflexivity.
  - subst kept. cbn [member field get assoc mem existsb OBJECT_PROTOTYPE_KEYS].
    cbn. reflexivity.
Qed.

Lemma user_results_objects st kept :
  well_formed st -> user_results st kept ->
  Forall is_object kept
  /\ exists items, has_history st items /\ (length kept <= length items)%nat.
Proof.
  intros [_ Hres] (items & Hitems & Hkept).
  assert (Hobj : Forall is_object items).
  { destruct Hitems as [E|[E ->]]; [|constructor]. now rewrite E in Hres. }
  destruct (filter_by_email_total
              (match st !! "currentUser" with
               | Some currentUser => field "email" currentUser
               | None => VUndefined
               end) items Hobj) as (kept' & Ek & Hk & Hlen).
  destruct (st !! "currentUser") as [currentUser|].
  - destruct (truthy _).
    + rewrite Ek in Hkept. injection Hkept as <-. split; [exact Hk|]. eauto.
    + subst kept. split; [exact Hobj|]. eauto.
  - subst kept. split; [exact Hobj|]. eauto.
Qed.


Lemma counts_of_tallies counts : counts_of (tallies counts) = Some counts.
Proof.
  unfold tallies. induction counts as [|[k c] rest IH]; [reflexivity|].
  cbn [map counts_of]. now rewrite IH.
Qed.

Lemma add_property_ordinary key v props :
  array_index key = None -> add_property key v props = (props ++ [(key, v)])%list.
Proof.
  intros Hkey. induction props as [|[k x] rest IH]; [reflexivity|].
  cbn [add_property app]. now rewrite Hkey, IH.
Qed.

Lemma assoc_tallies key counts :
  assoc key (tallies counts) = option_map Count (assoc key counts).
Proof.
  unfold tallies. induction counts as [|[k c] rest IH]; [reflexivity|].
  cbn [map assoc]. now destruct (String.eqb key k).
Qed.

Lemma assoc_None_keys {A} key (l : list (string * A)) :
  assoc key l = None <-> ~ In key (map fst l).
Proof.
  induction l as [|[k a] rest IH]; cbn [assoc map fst In]; [tauto|].
  destruct (String.eqb_spec key k) as [->|Hne].
  - split; [discriminate|]. intros H. exfalso. apply H. now left.
  - rewrite IH. split; [intros H [E|E]; [congruence|contradiction]|tauto].
Qed.

(** Counting an ordinary key: its count is raised in place, or the key is
    appended with count 1. *)
Lemma count_emotion_ordinary key counts :
  ordinary key ->
  exists counts',
    count_emotion key (tallies counts) = tallies counts'
    /\ ((~ In key (map fst counts) /\ counts' = (counts ++ [(key, 1)])%list)
        \/ (exists before c after,
              counts = (before ++ (key, c) :: after)%list
              /\ ~ In key (map fst before)
              /\ counts' = (before ++ (key, c + 1) :: after)%list)).
Proof.
  intros [Hindex Hproto]. unfold count_emotion, get.
  rewrite assoc_tallies, Hproto.
  destruct (assoc key counts) as [c|] eqn:E; cbn [option_map].
  - clear Hindex Hproto. induction counts as [|[k c0] rest IH]; [discriminate|].
    cbn [assoc] in E. cbn [tallies map set_property].
    rewrite String.eqb_sym. destruct (String.eqb_spec key k) as [->|Hne].
    + injection E as ->. exists ((k, c + 1) :: rest). split; [reflexivity|].
      right. exists [], c, rest. cbn. auto.
    + destruct (IH E) as (rest' & Hset & Hcase).
      exists ((k, c0) :: rest'). split.
      { cbn [tallies map]. f_equal. exact Hset. }
      right. destruct Hcase as [[Habsent _]|(before & c1 & after & -> & Hb & ->)].
      { apply assoc_None_keys in Habsent. congruence. }
      exists ((k, c0) :: before), c1, after. cbn [app map fst In].
      repeat split; auto. intros [Hk|Hk]; [congruence|contradiction].
  - exists (counts ++ [(key, 1)])%list. split.
    + rewrite add_property_ordinary by exact Hindex.
      unfold tallies. now rewrite map_app.
    + left. split; [now apply assoc_None_keys|reflexivity].
Qed.

Lemma occ_app e l1 l2 : occ e (l1 ++ l2) = occ e l1 + occ e l2.
Proof. induction l1 as [|x l1 IH]; cbn [app occ]; lia. Qed.

Lemma occ_absent e l : ~ In e l -> occ e l = 0.
Proof.
  induction l as [|x l IH]; [reflexivity|]. cbn [occ In]. intros H.
  destruct (String.eqb_spec x e) as [->|]; [tauto|]. rewrite IH; tauto.
Qed.

Lemma occ_present e l : In e l -> 1 <= occ e l.
Proof.
  induction l as [|x l IH]; [contradiction|]. cbn [occ In].
  assert (H0 : forall l', 0 <= occ e l').
  { induction l' as [|y l' IH']; cbn [occ]; [lia|]. destruct (String.eqb y e); lia. }
  specialize (H0 l).
  destruct (String.eqb_spec x e) as [->|]; [lia|]. intros [E|E]; [congruence|].
  specialize (IH E). lia.
Qed.

Lemma position_app_present e l1 l2 :
  In e l1 -> position e (l1 ++ l2) = position e l1.
Proof.
  induction l1 as [|x l1 IH]; [contradiction|]. cbn [app position In].
  destruct (String.eqb_spec x e) as [->|]; [reflexivity|].
  intros [E|E]; [congruence|]. now rewrite IH.
Qed.

Lemma position_present e l : In e l -> (position e l < length l)%nat.
Proof.
  induction l as [|x l IH]; [contradiction|]. cbn [position length In].
  destruct (String.eqb_spec x e) as [->|]; [lia|].
  intros [E|E]; [congruence|]. specialize (IH E). lia.
Qed.

Lemma position_absent e l : ~ In e l -> position e (l ++ [e]) = length l.
Proof.
  induction l as [|x l IH]; cbn [app position length In].
  - now rewrite String.eqb_refl.
  - intros H. destruct (String.eqb_spec x e) as [->|]; [tauto|]. rewrite IH; tauto.
Qed.

Lemma StronglySorted_snoc {A} (R : A -> A -> Prop) l a :
  StronglySorted R l -> Forall (fun x => R x a) l -> StronglySorted R (l ++ [a]).
Proof.
  induction 1 as [|x l Hs IH Hx]; intros Ha; cbn [app].
  - repeat constructor.
  - inversion_clear Ha as [|? ? Hxa Hla]. constructor; [now apply IH|].
    apply Forall_app. split; [exact Hx|]. now constructor.
Qed.

Lemma StronglySorted_after {A} (R : A -> A -> Prop) l1 x l2 :
  StronglySorted R (l1 ++ x :: l2) -> forall y, In y l2 -> R x y.
Proof.
  induction l1 as [|z l1 IH]; cbn [app]; intros Hs y Hy.
  - inversion_clear Hs as [|? ? _ Hx]. rewrite List.Forall_forall in Hx. now apply Hx.
  - inversion_clear Hs as [|? ? Hs' _]. now apply IH.
Qed.

Lemma counted_step seen counts key counts' :
  counted seen counts ->
  (~ In key (map fst counts) /\ counts' = (counts ++ [(key, 1)])%list)
  \/ (exists before c after,
        counts = (before ++ (key, c) :: after)%list
        /\ ~ In key (map fst before)
        /\ counts' = (before ++ (key, c + 1) :: after)%list) ->
  counted (seen ++ [key]) counts'.
Proof.
  intros (Hocc & Hkeys & Hsorted) Hcase.
  assert (Hpos : forall l : list (string * Z),
            (forall kc, In kc l -> In (fst kc) seen) ->
            map (fun kc => position (fst kc) (seen ++ [key])) l
            = map (fun kc => position (fst kc) seen) l).
  { intros l Hl. apply map_ext_in. intros kc Hkc.
    apply position_app_present. now apply Hl. }
  assert (Hseen : forall kc, In kc counts -> In (fst kc) seen).
  { intros [k c] Hkc. now apply (Hocc k c). }
  destruct Hcase as [[Habsent ->]|(before & c & after & -> & Hbefore & ->)].
  - assert (Hnew : ~ In key seen) by (intros H; apply Habsent; now apply Hkeys).
    split; [|split].
    + intros k c Hkc. apply in_app_or in Hkc as [Hkc|[E|[]]].
      * destruct (Hocc k c Hkc) as [Hk ->]. split; [apply in_or_app; now left|].
        rewrite occ_app. cbn [occ].
        destruct (String.eqb_spec key k) as [->|]; [contradiction|]. lia.
      * injection E as <- <-. split; [apply in_or_app; right; now left|].
        rewrite occ_app, (occ_absent key seen Hnew). cbn [occ].
        now rewrite String.eqb_refl.
    + intros k Hk. rewrite map_app. apply in_or_app.
      apply in_app_or in Hk as [Hk|[<-|[]]]; [left; now apply Hkeys|right; now left].
    + rewrite map_app. cbn [map fst]. rewrite (Hpos counts Hseen).
      rewrite (position_absent key seen Hnew).
      apply StronglySorted_snoc; [exact Hsorted|].
      rewrite List.Forall_forall. intros n Hn.
      apply in_map_iff in Hn as (kc & <- & Hkc).
      apply position_present. now apply Hseen.
  - assert (Hkey : In key seen).
    { apply (Hocc key c). apply in_or_app. right. now left. }
    assert (Hafter : ~ In key (map fst after)).
    { intros Hin. apply in_map_iff in Hin as ([k c'] & Hk & Hkc). cbn in Hk. subst k.
      rewrite map_app in Hsorted. cbn [map] in Hsorted.
      pose proof (StronglySorted_after lt _ _ _ Hsorted
                    (position key seen)
                    (in_map (fun kc => position (fst kc) seen) _ _ Hkc)) as Hlt.
      cbn [fst] in Hlt. lia. }
    split; [|split].
    + intros k c' Hkc.
      assert (Hcases : (In (k, c') (before ++ (key, c) :: after) /\ k <> key)
                       \/ (k = key /\ c' = c + 1)).
      { apply in_app_or in Hkc as [Hkc|[E|Hkc]].
        - left. split; [apply in_or_app; now left|]. intros ->.
          apply Hbefore. now apply (in_map fst) in Hkc.
        - injection E as <- <-. now right.
        - left. split; [apply in_or_app; right; now right|]. intros ->.
          apply Hafter. now apply (in_map fst) in Hkc. }
      destruct Hcases as [[Hin Hne]|[-> ->]].
      * destruct (Hocc k c' Hin) as [Hk ->]. split; [apply in_or_app; now left|].
        rewrite occ_app. cbn [occ].
        destruct (String.eqb_spec key k) as [->|]; [contradiction|]. lia.
      * split; [apply in_or_app; now left|].
        rewrite occ_app. cbn [occ]. rewrite String.eqb_refl.
        destruct (Hocc key c) as [_ ->]; [apply in_or_app; right; now left|]. lia.
    + intros k Hk.
      assert (Hk' : In k (map fst (before ++ (key, c) :: after))).
      { apply in_app_or in Hk as [Hk|[<-|[]]]; [now apply Hkeys|].
        rewrite map_app. apply in_or_app. right. now left. }
      rewrite map_app in Hk' |- *. exact Hk'.
    + assert (Hsame : map (fun kc : string * Z => position (fst kc) (seen ++ [key]))
                        (before ++ (key, c + 1) :: after)
                      = map (fun kc => position (fst kc) seen)
                          (before ++ (key, c) :: after)).
      { rewrite !map_app. cbn [map fst]. f_equal; [|f_equal].
        - apply Hpos. intros kc Hkc. apply Hseen, in_or_app. now left.
        - now apply position_app_present.
        - apply Hpos. intros kc Hkc. apply Hseen, in_or_app. right. now right. }
      rewrite Hsame. exact Hsorted.
Qed.

Lemma emotionCounts_of_ordinary kept emotions seen counts :
  Forall is_object kept ->
  Forall2 (fun r e => field "emotion" r = VStr e) kept emotions ->
  Forall ordinary emotions ->
  counted seen counts ->
  exists counts',
    emotionCounts_of kept (tallies counts) = Ok (Some (tallies counts'))
    /\ counted (seen ++ emotions) counts'.
Proof.
  intros Hobj Hemotions. revert seen counts Hobj.
  induction Hemotions as [|r e kept emotions Hr _ IH];
    intros seen counts Hobj Hord Hcounted.
  - exists counts. rewrite app_nil_r. auto.
  - inversion_clear Hobj as [|? ? Hobj_r Hobj_kept].
    inversion_clear Hord as [|? ? Hord_e Hord_rest].
    cbn [emotionCounts_of]. rewrite (member_object _ _ Hobj_r), Hr. cbn [to_string].
    destruct (count_emotion_ordinary e counts Hord_e) as (counts1 & -> & Hcase).
    destruct (IH (seen ++ [e])%list counts1 Hobj_kept Hord_rest
                (counted_step _ _ _ _ Hcounted Hcase)) as (counts' & E & Hc).
    exists counts'. split; [exact E|]. now rewrite <- app_assoc in Hc.
Qed.

Lemma head_sort_by_tally entries : head (sort_by_tally entries) = best entries.
Proof.
  induction entries as [|x rest IH]; [reflexivity|].
  cbn [sort_by_tally fold_right best]. fold (sort_by_tally rest).
  rewrite <- IH. destruct (sort_by_tally rest) as [|y sorted]; [reflexivity|].
  cbn [insert_by_tally head]. now destruct (snd y <=? snd x).
Qed.

Lemma best_spec entries b :
  best entries = Some b ->
  exists before after,
    entries = (before ++ b :: after)%list
    /\ (forall y, In y before -> snd y < snd b)
    /\ (forall y, In y after -> snd y <= snd b).
Proof.
  revert b. induction entries as [|x rest IH]; intros b E; [discriminate|].
  cbn [best] in E. destruct (best rest) as [y|] eqn:Ey.
  - destruct (IH y eq_refl) as (before & after & -> & Hb & Ha).
    destruct (Z.leb_spec (snd y) (snd x)) as [Hle|Hlt]; injection E as <-.
    + exists [], (before ++ y :: after)%list. split; [reflexivity|].
      split; [intros z []|]. intros z Hz.
      apply in_app_or in Hz as [Hz|[<-|Hz]]; [specialize (Hb z Hz)|idtac|specialize (Ha z Hz)]; lia.
    + exists (x :: before), after. split; [reflexivity|]. split; [|exact Ha].
      intros z [<-|Hz]; [lia|now apply Hb].
  - injection E as <-. destruct rest as [|z rest]; [|cbn in Ey; destruct (best rest) as [u|];
      [destruct (snd u <=? snd z)|]; discriminate].
    exists [], []. split; [reflexivity|]. split; intros y [].
Qed.

Lemma best_nonempty entries : entries <> [] -> exists b, best entries = Some b.
Proof.
  destruct entries as [|x rest]; [contradiction|]. intros _. cbn [best].
  destruct (best rest) as [y|]; [destruct (snd y <=? snd x)|]; eexists; reflexivity.
Qed.

(** X18: when the emotions of the counted results are ordinary keys
    (neither array indices nor members of [Object.prototype], as the seven
    emotion names are), the common emotion that [getUserStats] reports is
    one that occurs most often among them, and among several such the one
    whose first occurrence is earliest. *)
Theorem common_emotion_is_the_first_most_frequent (w : World)
    (kept : list jsval) (emotions : list string) :
  well_formed (localStorage w) ->
  user_results (localStorage w) kept ->
  Forall2 (fun r e => field "emotion" r = VStr e) kept emotions ->
  Forall ordinary emotions ->
  kept <> [] ->
  exists stats e,
    getUserStats w = (Ok stats, w)
    /\ commonEmotion stats = Some e
    /\ In e emotions
    /\ forall e', In e' emotions ->
         occ e' emotions <= occ e emotions
         /\ (occ e' emotions = occ e emotions ->
             (position e emotions <= position e' emotions)%nat).
Proof.
  intros Hwf Hkept Hemotions Hord Hne.
  rewrite (getUserStats_run w kept Hwf Hkept).
  destruct (user_results_objects _ _ Hwf Hkept) as [Hobj _].
  destruct (Nat.eqb_spec (length kept) 0) as [E|_].
  { destruct kept; [contradiction|discriminate]. }
  destruct (count_levels kept Hobj) as (low & medium & high & El & Em & Eh & _).
  destruct (plus_confidence_total kept (Some (num_of_Z 0)) Hobj) as [sum Esum].
  assert (Hstart : counted [] []).
  { split; [intros k c []|]. split; [intros k []|constructor]. }
  destruct (emotionCounts_of_ordinary kept emotions [] [] Hobj Hemotions Hord Hstart)
    as (counts & Ec & Hocc & Hkeys & Hsorted).
  cbn [app] in Hocc, Hkeys, Hsorted. change (tallies []) with (@nil (string * tally)) in Ec.
  rewrite El, Em, Eh, Esum, Ec. rewrite !bind_lift_Ok.
  assert (Hcounts : counts <> []).
  { destruct Hemotions as [|r e0 kept emotions _ _]; [contradiction|].
    intros ->. apply (Hkeys e0). now left. }
  destruct (best_nonempty counts Hcounts) as [[e c] Hbest].
  destruct counts as [|[k0 c0] counts0] eqn:Ecounts; [contradiction|].
  cbn [tallies map]. fold (tallies counts0).
  change ((k0, Count c0) :: tallies counts0) with (tallies ((k0, c0) :: counts0)).
  rewrite counts_of_tallies, head_sort_by_tally, Hbest. cbn [option_map fst].
  rewrite bind_lift_Ok. rewrite <- Ecounts in *. clear Ecounts k0 c0 counts0.
  eexists _, e. split; [reflexivity|]. split; [reflexivity|].
  destruct (best_spec _ _ Hbest) as (before & after & -> & Hbefore & Hafter).
  assert (Hb : In (e, c) (before ++ (e, c) :: after))
    by (apply in_or_app; right; now left).
  destruct (Hocc e c Hb) as [He Hc]. split; [exact He|].
  intros e' He'. apply Hkeys in He'.
  apply in_map_iff in He' as ([k c'] & Hk & Hin). cbn in Hk. subst k.
  destruct (Hocc e' c' Hin) as [_ Hc'].
  apply in_app_or in Hin as [Hin|[Hin|Hin]].
  - specialize (Hbefore _ Hin). cbn [snd] in Hbefore. split; lia.
  - injection Hin as <- <-. split; lia.
  - pose proof (Hafter _ Hin) as Hle. cbn [snd] in Hle. split; [lia|]. intros _.
    rewrite map_app in Hsorted. cbn [map] in Hsorted.
    pose proof (StronglySorted_after lt _ _ _ Hsorted (position e' emotions)
                  (in_map (fun kc => position (fst kc) emotions) _ _ Hin)) as Hlt.
    cbn [fst] in Hlt. lia.
Qed.


(** The theorem on the same page: Ann's emotions are Happy, Sad, Sad. *)
Lemma common_emotion_is_the_first_most_frequent_witness :
  exists stats e,
    getUserStats (set_localStorage signed_in fresh)
    = (Ok stats, set_localStorage signed_in fresh)
    /\ commonEmotion stats = Some e
    /\ In e [ "Happy"; "Sad"; "Sad" ]
    /\ forall e', In e' [ "Happy"; "Sad"; "Sad" ] ->
         occ e' [ "Happy"; "Sad"; "Sad" ] <= occ e [ "Happy"; "Sad"; "Sad" ]
         /\ (occ e' [ "Happy"; "Sad"; "Sad" ] = occ e [ "Happy"; "Sad"; "Sad" ] ->
             (position e [ "Happy"; "Sad"; "Sad" ]
              <= position e' [ "Happy"; "Sad"; "Sad" ])%nat).
Proof.
  apply (common_emotion_is_the_first_most_frequent
           (set_localStorage signed_in fresh) scans_of_ann).
  - split; [exact I|]. repeat constructor.
  - exists scans. split; [left; reflexivity|reflexivity].
  - repeat constructor.
  - repeat constructor.
  - discriminate.
Defined.

Lemma ext_compare_swap a b :
  B64.ext_compare b a = CompOpp (B64.ext_compare a b).
Proof.
  destruct a as [|p|], b as [|q|]; try reflexivity.
  cbn. symmetry. apply Qcompare_antisym.
Qed.

Lemma B64_compare_swap x y c :
  B64.compare x y = Some c -> B64.compare y x = Some (CompOpp c).
Proof.
  unfold B64.compare. destruct (B64.value x) as [a|], (B64.value y) as [b|];
    try discriminate.
  intros [= <-]. now rewrite ext_compare_swap.
Qed.

Lemma B64_compare_refl x c : B64.compare x x = Some c -> c = Eq.
Proof.
  unfold B64.compare. destruct (B64.value x) as [[|q|]|]; try discriminate;
    intros [= <-]; try reflexivity.
  cbn. apply Qeq_alt. reflexivity.
Qed.

Lemma B64_leb_refl x : x <> S754_nan -> B64.leb x x = true.
Proof.
  intros Hx. unfold B64.leb.
  destruct (B64.compare x x) as [c|] eqn:E.
  - now rewrite (B64_compare_refl x c E).
  - unfold B64.compare in E. destruct x; try discriminate. contradiction.
Qed.

(** [Math.min] and [Math.max] return NaN or one of their arguments, on the
    right side of both. *)
Lemma B64_min_cases x y :
  B64.min x y = S754_nan
  \/ ((B64.min x y = x \/ B64.min x y = y)
      /\ B64.leb (B64.min x y) x = true /\ B64.leb (B64.min x y) y = true).
Proof.
  unfold B64.min. destruct (B64.compare x y) as [c|] eqn:E; [|now left].
  assert (Hx : x <> S754_nan) by (intros ->; discriminate).
  assert (Hy : y <> S754_nan) by (intros ->; unfold B64.compare in E;
                                   destruct (B64.value x); discriminate).
  pose proof (B64_compare_swap _ _ _ E) as E'.
  right. destruct c; cbn [CompOpp] in E'.
  - destruct (B64.is_neg_zero x).
    + split; [now left|]. split; [now apply B64_leb_refl|]. unfold B64.leb. now rewrite E.
    + split; [now right|]. split; [|now apply B64_leb_refl]. unfold B64.leb. now rewrite E'.
  - split; [now left|]. split; [now apply B64_leb_refl|]. unfold B64.leb. now rewrite E.
  - split; [now right|]. split; [|now apply B64_leb_refl]. unfold B64.leb. now rewrite E'.
Qed.

Lemma B64_max_cases x y :
  B64.max x y = S754_nan
  \/ ((B64.max x y = x \/ B64.max x y = y)
      /\ B64.leb x (B64.max x y) = true /\ B64.leb y (B64.max x y) = true).
Proof.
  unfold B64.max. destruct (B64.compare x y) as [c|] eqn:E; [|now left].
  assert (Hx : x <> S754_nan) by (intros ->; discriminate).
  assert (Hy : y <> S754_nan) by (intros ->; unfold B64.compare in E;
                                   destruct (B64.value x); discriminate).
  pose proof (B64_compare_swap _ _ _ E) as E'.
  right. destruct c; cbn [CompOpp] in E'.
  - destruct (B64.is_neg_zero x).
    + split; [now right|]. split; [|now apply B64_leb_refl]. unfold B64.leb. now rewrite E.
    + split; [now left|]. split; [now apply B64_leb_refl|]. unfold B64.leb. now rewrite E'.
  - split; [now right|]. split; [|now apply B64_leb_refl]. unfold B64.leb. now rewrite E.
  - split; [now left|]. split; [now apply B64_leb_refl|]. unfold B64.leb. now rewrite E'.
Qed.

Lemma clamp01_range x : clamp01 x = NaN \/ in_unit_interval (clamp01 x).
Proof.
  unfold clamp01, in_unit_interval.
  change (@Math_max spec_float binary64) with B64.max.
  change (@Math_min spec_float binary64) with B64.min.
  change (@num_leb spec_float binary64) with B64.leb.
  destruct (B64_max_cases (num_of_Z 0) (B64.min (num_of_Z 1) x))
    as [Hnan|([Hz|Hz] & H0 & Hm)]; [now left| |]; right.
  - rewrite Hz. split; reflexivity.
  - split; [exact H0|]. rewrite Hz.
    destruct (B64_min_cases (num_of_Z 1) x) as [Hnan|(_ & H1 & _)]; [|exact H1].
    rewrite Hz, Hnan in H0. discriminate.
Qed.

Lemma min_one_range x :
  Math_min (num_of_Z 1) x = NaN \/ num_leb (Math_min (num_of_Z 1) x) (num_of_Z 1) = true.
Proof.
  destruct (B64_min_cases (num_of_Z 1) x) as [Hnan|(_ & H1 & _)]; [now left|now right].
Qed.

Lemma darkCircles_range canvas underLeftEye underRightEye :
  darkCircles canvas underLeftEye underRightEye = NaN
  \/ in_unit_interval (darkCircles canvas underLeftEye underRightEye).
Proof.
  assert (Hdefault : in_unit_interval (num_lit 3 10)) by (split; reflexivity).
  unfold darkCircles.
  destruct canvas as [c|], underLeftEye as [l|], underRightEye as [r|]; auto.
  destruct (fold_left _ _ _) as [totalDarkness samples].
  destruct (0 <? samples); [apply clamp01_range|auto].
Qed.

(** X19: [analyzeFacialLandmarks] never throws, and whatever the landmarks,
    the canvas and the face box are, its eye-fatigue, brow-tension and
    dark-circle scores are NaN or lie between 0 and 1, its mouth-tension
    score is one of 0.7, 0.4, 0.2 and the default 0.3, and its wrinkle score
    is NaN or at most 1. *)
Theorem landmark_scores_are_clamped (toFixed : number -> nat -> string)
    (landmarks : Landmarks) (canvas : option Canvas) (faceBox : jsval) :
  let a := analyzeFacialLandmarks toFixed landmarks canvas faceBox in
  (eyeFatigueScore a = NaN \/ in_unit_interval (eyeFatigueScore a))
  /\ (browTensionScore a = NaN \/ in_unit_interval (browTensionScore a))
  /\ (darkCircleScore a = NaN \/ in_unit_interval (darkCircleScore a))
  /\ In (mouthTensionScore a)
        [ num_lit 7 10; num_lit 4 10; num_lit 3 10; num_lit 2 10 ]
  /\ (wrinkleScore a = NaN \/ num_leb (wrinkleScore a) (num_of_Z 1) = true).
Proof.
  assert (Hdefault : in_unit_interval (num_lit 3 10)) by (split; reflexivity).
  assert (Hthrow :
    (eyeFatigueScore DEFAULT_ANALYSIS = NaN
     \/ in_unit_interval (eyeFatigueScore DEFAULT_ANALYSIS))
    /\ (browTensionScore DEFAULT_ANALYSIS = NaN
        \/ in_unit_interval (browTensionScore DEFAULT_ANALYSIS))
    /\ (darkCircleScore DEFAULT_ANALYSIS = NaN
        \/ in_unit_interval (darkCircleScore DEFAULT_ANALYSIS))
    /\ In (mouthTensionScore DEFAULT_ANALYSIS)
          [ num_lit 7 10; num_lit 4 10; num_lit 3 10; num_lit 2 10 ]
    /\ (wrinkleScore DEFAULT_ANALYSIS = NaN
        \/ num_leb (wrinkleScore DEFAULT_ANALYSIS) (num_of_Z 1) = true)).
  { cbn [DEFAULT_ANALYSIS eyeFatigueScore browTensionScore darkCircleScore
         mouthTensionScore wrinkleScore In].
    repeat split; auto. all: cbn; auto 10. }
  cbn zeta. unfold analyzeFacialLandmarks.
  repeat match goal with
         | |- context [point ?l ?i] =>
             destruct (point l i) as [[? ?]|]; cbn [and_then]; [|exact Hthrow]
         end.
  destruct (member "width" faceBox); cbn [and_then]; [|exact Hthrow].
  cbn [eyeFatigueScore browTensionScore darkCircleScore mouthTensionScore
       wrinkleScore].
  split; [apply clamp01_range|]. split; [apply clamp01_range|].
  split; [apply darkCircles_range|]. split; [|apply min_one_range].
  cbn [In]. destruct (num_ltb (num_of_Z 4) _); [auto|].
  destruct (num_ltb (num_of_Z 3) _); auto.
Qed.

(** ** The cycle of detecting and saving: statements *)

Lemma detectStress_returns_object env w :
  well_formed (localStorage w) ->
  exists r w1,
    detectStress env w = (Ok r, w1) /\ localStorage w1 = localStorage w /\ is_object r.
Proof.
  intros Hwf. destruct (truthy (uploadedImage env)) eqn:Himg.
  - destruct (returns_detectStress _ env Hwf Himg w eq_refl) as (r & w1 & E & Hs & Hr).
    exists r, w1. split; [exact E|]. split; [exact Hs|].
    destruct Hr as [[Hr _]|[Hr|Hr]]; apply Hr.
  - unfold detectStress. rewrite Himg. cbn [negb]. eexists _, w.
    split; [reflexivity|]. split; [reflexivity|exact I].
Qed.



(** A member of a stored object: the first own property of that name, when
    it has a JSON text. *)
Lemma field_stored_as fields name v j :
  assoc name fields = Some v -> to_json v = Some j ->
  field name (stored_as (VObj fields)) = j.
Proof.
  intros Hv Hj. unfold stored_as. cbn [to_json field].
  enough (E : assoc name
                ((fix go (l : list (string * jsval)) : list (string * jsval) :=
                    match l with
                    | [] => []
                    | (k, x) :: l' =>
                        match to_json x with
                        | Some j => (k, j) :: go l'
                        | None => go l'
                        end
                    end) fields) = Some j).
  { unfold get. now rewrite E. }
  induction fields as [|[k x] rest IH]; [discriminate|].
  cbn [assoc] in Hv. destruct (String.eqb name k) eqn:Ek.
  - injection Hv as ->. rewrite Hj. cbn [assoc]. now rewrite Ek.
  - destruct (to_json x); [cbn [assoc]; rewrite Ek|]; now apply IH.
Qed.

Lemma assoc_assign_same name v fields : assoc name (assign name v fields) = Some v.
Proof.
  induction fields as [|[k x] rest IH]; cbn [assign assoc].
  - now rewrite String.eqb_refl.
  - destruct (String.eqb_spec k name) as [->|Hne]; cbn [assoc].
    + now rewrite String.eqb_refl.
    + destruct (String.eqb_spec name k) as [->|]; [contradiction|exact IH].
Qed.

Lemma add_user_info_object fields w :
  well_formed (localStorage w) ->
  exists name email,
    add_user_info (VObj fields) w
    = (Ok (VObj (assign "userEmail" email (assign "userName" name fields))), w).
Proof.
  intros [Huser _]. unfold add_user_info, stored. rewrite bind_read.
  assert (Hcu : is_object (match localStorage w !! "currentUser" with
                           | Some v => v
                           | None => VObj []
                           end)).
  { destruct (localStorage w !! "currentUser"); [exact Huser|exact I]. }
  destruct (match localStorage w !! "currentUser" with Some v => v | None => VObj [] end)
    as [| | | | | |cu|]; try contradiction.
  eexists _, _. reflexivity.
Qed.

(** The report of a window that holds an entry of unknown level. *)
Lemma report_of_unknown_level cal (st : storage) (results kept : list jsval) :
  st !! "stressResults" = Some (VArr results) ->
  filter_last7Days cal results = Ok kept ->
  Exists unknown_level kept ->
  exists trends,
    analyzeStressTrends cal st = Ok trends
    /\ field "trend" trends = VStr "stable"
    /\ field "avgStress" trends = VStr "High"
    /\ field "improvementRate" trends = VNum NaN.
Proof.
  intros Hst Hkept Hbad. unfold analyzeStressTrends. rewrite Hst, Hkept.
  destruct (Nat.eqb (length kept) 0) eqn:Hlen.
  { destruct kept; [inversion Hbad|discriminate]. }
  rewrite (average_unknown kept Hbad).
  set (half := Nat.div2 (length kept)).
  assert (Hhalves : Exists unknown_level (firstn half kept)
                    \/ Exists unknown_level (skipn half kept)).
  { apply Exists_app. now rewrite firstn_skipn. }
  eexists. split; [reflexivity|].
  cbn [field get assoc String.eqb Ascii.eqb Bool.eqb].
  rewrite leb_NaN_l.
  destruct Hhalves as [H|H].
  - rewrite (average_or_NaN _ H).
    rewrite !sub_NaN_l, add_NaN_l, ltb_NaN_l, ltb_NaN_r. auto.
  - rewrite (average_or_NaN (skipn half kept) H).
    rewrite sub_NaN_r, ltb_NaN_l, ltb_NaN_r. auto.
Qed.


